(** * start_services.py: a shallow embedding and its verified properties

    The launcher script [start_services.py] sequences external commands
    (git, docker compose), materialises a [.env] file, waits for dependent
    services by polling HTTP endpoints, and remaps conflicting loopback
    ports before the main stack is started.  This development embeds the
    functions of that script as Rocq functions over an explicit world
    (file system, dictionary objects, printed output, spawned child
    processes) and proves the properties of the specification about them.

    Conventions of the embedding.
    - A Python [str] is a Rocq [string]; a character is one of the code
      points 0..255.  A file is the text read from it.
    - A Python [int] is a [Z].
    - A Python [dict] used as a map is a [gmap]; a [set] is a [gset].
    - Code that prints, spawns a process, touches a file or raises runs in
      the monad [M]: a state transformer over [World] whose result is
      either a value or the exception that propagates.
    - What the script cannot decide by itself (what a child process does,
      what a server answers, which temporary name the system picks) is
      read from a [Host] record. *)

From stdpp Require Import gmap strings list fin_maps pretty.
From Stdlib Require Import ZArith Lia Ascii.

Set Warnings "-clear-no-such-hyp".
Open Scope Z_scope.

(* ===================================================================== *)
(** * Part I: definitions                                                *)
(* ===================================================================== *)

(** ** Python string operations used by the script *)

(** [sep.join(parts)]. *)
Fixpoint join (sep : string) (parts : list string) : string :=
  match parts with
  | [] => ""
  | [p] => p
  | p :: rest => p +:+ sep +:+ join sep rest
  end.

(** [str.isspace] on one character, for the code points 0..255:
    TAB, LF, VT, FF, CR, the separators FS GS RS US, SPACE, NEL and
    NO-BREAK SPACE. *)
Definition isspace (c : ascii) : bool :=
  let n := Ascii.N_of_ascii c in
  ((9 <=? n) && (n <=? 13) || (28 <=? n) && (n <=? 32)
   || (n =? 133) || (n =? 160))%N.

(** [s.lstrip()]. *)
Fixpoint lstrip (s : string) : string :=
  match s with
  | "" => ""
  | String c s' => if isspace c then lstrip s' else s
  end.

(** [s.rstrip()]. *)
Fixpoint rstrip (s : string) : string :=
  match s with
  | "" => ""
  | String c s' =>
      match rstrip s' with
      | "" => if isspace c then "" else String c ""
      | r => String c r
      end
  end.

(** [s.strip()]: whitespace is removed at both ends. *)
Definition strip (s : string) : string := rstrip (lstrip s).

(** [s.startswith(c)] for a one-character prefix. *)
Definition startswith_char (c : ascii) (s : string) : bool :=
  match s with
  | String c' _ => bool_decide (c' = c)
  | "" => false
  end.

(** [c in s] for a one-character needle. *)
Fixpoint contains_char (c : ascii) (s : string) : bool :=
  match s with
  | "" => false
  | String c' s' => bool_decide (c' = c) || contains_char c s'
  end.

(** [s.split(c, 1)]: at most one split, at the first occurrence of [c]. *)
Fixpoint split1 (c : ascii) (s : string) : list string :=
  match s with
  | "" => [""]
  | String c' s' =>
      if bool_decide (c' = c) then [""; s']
      else match split1 c s' with
           | h :: t => String c' h :: t
           | [] => []
           end
  end.

Definition LF : ascii := Ascii.ascii_of_N 10.
Definition CR : ascii := Ascii.ascii_of_N 13.

(** Iterating over a file opened in text mode: the lines of the text, each
    with its terminator; [universal newlines] turns CR LF and a lone CR
    into LF.  The last line has no terminator when the text does not end
    with one. *)
Fixpoint text_lines (s : string) : list string :=
  match s with
  | "" => []
  | String c s' =>
      if bool_decide (c = LF) then String LF "" :: text_lines s'
      else if bool_decide (c = CR) then
        match s' with
        | String c2 s'' =>
            if bool_decide (c2 = LF) then String LF "" :: text_lines s''
            else String LF "" :: text_lines s'
        | "" => [String LF ""]
        end
      else match text_lines s' with
           | [] => [String c ""]
           | l :: ls => String c l :: ls
           end
  end.

(** Python's truth value of a string: non-empty. *)
Definition nonempty (s : string) : bool :=
  match s with "" => false | _ => true end.

(** ** The world the script runs in *)

(** One child process as [subprocess] starts it. *)
Record Spawn := {
  sp_cmd : list string;
  sp_cwd : option string;
  sp_env : gmap string string;
  sp_timeout : option Z
}.

(** What a child process does, as [subprocess.run] observes it. *)
Inductive Behaviour :=
| Exited (returncode : Z) (stdout stderr : string)
| TimedOut
| NotFound (text : string)
| Broke (text : string).

(** The exceptions that occur in the script. *)
Inductive Exn :=
| CalledProcessError (returncode : Z) (cmd : list string)
| TimeoutExpired
| FileNotFoundError (text : string)
| CommandExecutionError (message : string) (cmd : list string)
    (exit_code : Z) (stdout stderr : string)
| PyException (text : string).

Record World := {
  fs : gmap string string;                   (* path to file text *)
  dicts : gmap positive (gmap string string);(* dict objects by identity *)
  out : list string;                         (* lines printed so far *)
  spawned : list Spawn;                      (* children started so far *)
  temps : list string                        (* names mkstemp handed out *)
}.

(** The object [os.environ]. *)
Definition os_environ : positive := 1%positive.

Definition environ (w : World) : gmap string string :=
  default ∅ (dicts w !! os_environ).

Inductive Result (A : Type) :=
| Ok (a : A)
| Raise (e : Exn).
Arguments Ok {A} a.
Arguments Raise {A} e.

Definition M (A : Type) : Type := World → Result A * World.

Definition ret {A} (a : A) : M A := λ w, (Ok a, w).

Definition bind {A B} (m : M A) (k : A → M B) : M B :=
  λ w, match m w with
       | (Ok a, w') => k a w'
       | (Raise e, w') => (Raise e, w')
       end.

Definition raise {A} (e : Exn) : M A := λ w, (Raise e, w).

Notation "'let*' x ':=' m 'in' k" := (bind m (λ x, k))
  (at level 10, x name, m at level 100, k at level 200).
Notation "m ;;; k" := (bind m (λ _, k))
  (at level 100, right associativity).

(** [try: body except ...: handler]; a handler that answers [None] does
    not match, and the exception propagates. *)
Definition try_except {A} (body : M A) (handler : Exn → option (M A)) : M A :=
  λ w, match body w with
       | (Ok a, w') => (Ok a, w')
       | (Raise e, w') =>
           match handler e with
           | Some h => h w'
           | None => (Raise e, w')
           end
       end.

(** [try: body finally: fin]. *)
Definition try_finally {A} (body : M A) (fin : M unit) : M A :=
  λ w, match body w with
       | (r, w') =>
           match fin w' with
           | (Ok _, w'') => (r, w'')
           | (Raise e, w'') => (Raise e, w'')
           end
       end.

Definition when (b : bool) (m : M unit) : M unit :=
  if b then m else ret tt.

Definition get_world : M World := λ w, (Ok w, w).

Definition print (line : string) : M unit :=
  λ w, (Ok tt, {| fs := fs w; dicts := dicts w; out := out w ++ [line];
                  spawned := spawned w; temps := temps w |}).

Definition set_fs (f : gmap string string) : M unit :=
  λ w, (Ok tt, {| fs := f; dicts := dicts w; out := out w;
                  spawned := spawned w; temps := temps w |}).

(** [os.path.exists]. *)
Definition path_exists (p : string) : M bool :=
  λ w, (Ok (bool_decide (is_Some (fs w !! p))), w).

(** Writing a whole file.  The modelled file system has no directories,
    permissions or quotas: writing, copying and removing a file succeed,
    so the handlers the script puts around these calls are never entered
    and [os.makedirs] has nothing to do. *)
Definition write_file (p text : string) : M unit :=
  λ w, set_fs (<[p := text]> (fs w)) w.

(** [os.remove]. *)
Definition remove_file (p : string) : M unit :=
  λ w, set_fs (delete p (fs w)) w.

(** [d.copy()]: a new dict object with the entries of [d]. *)
Definition dict_copy (d : positive) : M positive :=
  λ w, let d' := fresh (dom (dicts w)) in
       (Ok d', {| fs := fs w;
                  dicts := <[d' := default ∅ (dicts w !! d)]> (dicts w);
                  out := out w; spawned := spawned w; temps := temps w |}).

(** [d.update(other)]: in place. *)
Definition dict_update (d : positive) (other : gmap string string) : M unit :=
  λ w, (Ok tt, {| fs := fs w;
                  dicts := <[d := other ∪ default ∅ (dicts w !! d)]> (dicts w);
                  out := out w; spawned := spawned w; temps := temps w |}).

Definition dict_read (d : positive) : M (gmap string string) :=
  λ w, (Ok (default ∅ (dicts w !! d)), w).

(** [os.environ.get(key, dflt)]. *)
Definition environ_get (key dflt : string) : M string :=
  λ w, (Ok (default dflt (environ w !! key)), w).

(** What lies outside the script. *)
Record Host := {
  (* what a child does in a given world, and the files it leaves behind *)
  exec : World → Spawn → Behaviour * gmap string string;
  (* str(e) for an exception object *)
  py_str : Exn → string;
  (* tempfile.gettempdir() and the random part of the name mkstemp picks *)
  gettempdir : string;
  mkstemp_random : World → string;
  (* what the patterns of lines 507 and 518 find in one line of the output
     of ss and of lsof: the ports that line adds to the set *)
  ss_port : string → option Z;
  lsof_ports : string → list Z;
  (* the container port to service table scanned from docker-compose.yml *)
  scan_compose : World → gmap Z string;
  (* sys.executable and the directory of the script *)
  sys_executable : string;
  repo_dir : string;
  (* what the server behind a URL answers at a given polling round *)
  server : nat → string → option Z;
  (* how often the deadline test of each wait loop succeeds *)
  rounds_supabase : nat;
  rounds_neo4j : nat;
  (* the phases of main that no property below looks into:
     clone_supabase_repo, the two SearXNG steps, start_nextjs_dev *)
  host_clone : World → Result unit * World;
  host_searxng : World → Result unit * World;
  host_nextjs : World → Result unit * World
}.

Section Script.

Variable H : Host.

(** ** Command Runner *)

Record CompletedProcess := {
  returncode : Z;
  stdout : string;
  stderr : string
}.

(** Starting a child: it is recorded, and it leaves its files behind. *)
Definition spawn (sp : Spawn) : M Behaviour :=
  λ w, let '(b, files) := exec H w sp in
       (Ok b, {| fs := files; dicts := dicts w; out := out w;
                 spawned := spawned w ++ [sp]; temps := temps w |}).

(** [subprocess.run(cmd, cwd=cwd, check=check, env=env, capture_output=True,
    text=True, timeout=timeout)]. *)
Definition subprocess_run (cmd : list string) (cwd : option string)
    (check : bool) (env : gmap string string) (timeout : option Z)
  : M CompletedProcess :=
  let* b := spawn {| sp_cmd := cmd; sp_cwd := cwd; sp_env := env;
                     sp_timeout := timeout |} in
  match b with
  | Exited rc so se =>
      if check && negb (rc =? 0) then raise (CalledProcessError rc cmd)
      else ret {| returncode := rc; stdout := so; stderr := se |}
  | TimedOut => raise TimeoutExpired
  | NotFound text => raise (FileNotFoundError text)
  | Broke text => raise (PyException text)
  end.

(** [subprocess.check_output(cmd)]: the child inherits the environment. *)
Definition check_output (cmd : list string) : M string :=
  let* w := get_world in
  let* r := subprocess_run cmd None true (environ w) None in
  ret (stdout r).

(** The text an f-string gives for the [timeout] argument. *)
Definition timeout_text (timeout : option Z) : string :=
  match timeout with
  | None => "None"
  | Some t => pretty t
  end.

(** Lines 38-41 of [run_command]: the command line is printed and the
    environment of the child is built. *)
Definition run_command_env (cmd : list string)
    (env_override : option (gmap string string)) : M (gmap string string) :=
  print ("Running: " +:+ join " " cmd) ;;;
  let* env := dict_copy os_environ in
  match env_override with
  | Some o => when (negb (bool_decide (o = ∅))) (dict_update env o)
  | None => ret tt
  end ;;;
  dict_read env.

(** [run_command], lines 22-85. *)
Definition run_command (cmd : list string) (cwd : option string)
    (env_override : option (gmap string string)) (ignore_errors : bool)
    (timeout : option Z) : M (option CompletedProcess) :=
  let* env_now := run_command_env cmd env_override in
  try_except
    (let* result := subprocess_run cmd cwd (negb ignore_errors) env_now
                      timeout in
     when (negb (returncode result =? 0) && negb ignore_errors)
       (raise (CommandExecutionError
                 ("Command failed with exit code "
                    +:+ pretty (returncode result))
                 cmd (returncode result) (stdout result) (stderr result))) ;;;
     when (nonempty (stdout result))
       (print ("STDOUT: " +:+ stdout result)) ;;;
     when (nonempty (stderr result) && (returncode result =? 0))
       (print ("STDERR: " +:+ stderr result)) ;;;
     ret (Some result))
    (λ e,
       match e with
       | TimeoutExpired =>
           Some (let error_msg := "Command timed out after "
                      +:+ timeout_text timeout +:+ " seconds: "
                      +:+ join " " cmd in
                 print ("ERROR: " +:+ error_msg) ;;;
                 if negb ignore_errors
                 then raise (CommandExecutionError error_msg cmd (-1) ""
                               "Timeout")
                 else ret None)
       | FileNotFoundError _ =>
           Some (let error_msg := "Command not found: " +:+ hd "" cmd
                      +:+ ". Please ensure it's installed and in your PATH." in
                 print ("ERROR: " +:+ error_msg) ;;;
                 if negb ignore_errors
                 then raise (CommandExecutionError error_msg cmd (-1) ""
                               (py_str H e))
                 else ret None)
       | _ =>
           Some (let error_msg := "Unexpected error running command: "
                      +:+ py_str H e in
                 print ("ERROR: " +:+ error_msg) ;;;
                 if negb ignore_errors
                 then raise (CommandExecutionError error_msg cmd (-1) ""
                               (py_str H e))
                 else ret None)
       end).

(** The handler [except subprocess.CalledProcessError] of the callers. *)
Definition except_CalledProcessError {A} (body : M A)
    (handler : Exn → M A) : M A :=
  try_except body
    (λ e, match e with
          | CalledProcessError _ _ => Some (handler e)
          | _ => None
          end).

(** The handler [except Exception]. *)
Definition except_Exception {A} (body : M A) (handler : Exn → M A) : M A :=
  try_except body (λ e, Some (handler e)).

(** ** Environment Materializer *)

(** [os.path.join(dir, rel)] for a relative [rel]: a separator is added
    unless [dir] is empty or already ends with one. *)
Fixpoint ends_with_slash (s : string) : bool :=
  match s with
  | "" => false
  | String c "" => bool_decide (c = "/"%char)
  | String _ s' => ends_with_slash s'
  end.

Definition dir_prefix (dir : string) : string :=
  if negb (nonempty dir) || ends_with_slash dir then dir else dir +:+ "/".

Definition path_join (dir rel : string) : string := dir_prefix dir +:+ rel.

Definition root_env : string := path_join (repo_dir H) ".env".
Definition supabase_env : string :=
  path_join (repo_dir H) "supabase/docker/.env".
Definition gen_script : string :=
  path_join (repo_dir H) "scripts/gen_all_in_one_env.py".
Definition gen_fallback : string :=
  path_join (repo_dir H) "scripts/generate_env.py".

(** The body of the loop of [read_env], lines 256-260. *)
Definition read_env_line (vals : gmap string string) (line : string)
  : gmap string string :=
  let line := strip line in
  if negb (nonempty line) || startswith_char "#" line
     || negb (contains_char "=" line)
  then vals
  else match split1 "=" line with
       | [k; v] => <[k := v]> vals
       | _ => vals
       end.

(** [read_env] on the text of a file. *)
Definition read_env_text (text : string) : gmap string string :=
  foldl read_env_line ∅ (text_lines text).

(** [read_env], lines 250-261. *)
Definition read_env (path : string) : M (gmap string string) :=
  λ w, match fs w !! path with
       | None => (Ok ∅, w)
       | Some text => (Ok (read_env_text text), w)
       end.

Definition required : list string :=
  ["POSTGRES_HOST"; "POSTGRES_DB"; "POSTGRES_PORT"; "NEO4J_AUTH";
   "DOCKER_SOCKET_LOCATION"].

(** [[k for k in required if not env_vals.get(k)]]. *)
Definition missing_keys (env_vals : gmap string string) : list string :=
  filter (λ k, ¬ nonempty (default "" (env_vals !! k))) required.

(** The text [print] gives for a list of strings. *)
Definition repr_list (l : list string) : string :=
  "[" +:+ join ", " ((λ k, "'" +:+ k +:+ "'") <$> l) +:+ "]".

Definition nonnil {A} (l : list A) : bool :=
  match l with [] => false | _ => true end.

(** [generate_env_if_missing], lines 224-244. *)
Definition generate_env_if_missing : M unit :=
  let* has_gen := path_exists gen_script in
  when has_gen
    (print "Generating .env from scripts/gen_all_in_one_env.py..." ;;;
     except_CalledProcessError
       (run_command [sys_executable H; gen_script] (Some (repo_dir H))
          None false None ;;;
        print "gen_all_in_one_env.py completed; expecting .env in repo root")
       (λ _, print
          "gen_all_in_one_env.py failed; trying generate_env.py fallback")) ;;;
  let* has_root := path_exists root_env in
  let* has_fallback := path_exists gen_fallback in
  when (negb has_root && has_fallback)
    (print "Generating .env from scripts/generate_env.py (fallback)..." ;;;
     except_Exception
       (let* o := check_output [sys_executable H; gen_fallback] in
        write_file root_env o ;;;
        print "Wrote generated .env to repo root")
       (λ e, print ("Failed to auto-generate .env: " +:+ py_str H e))).

(** Lines 246-288 of [prepare_supabase_env]: a missing or incomplete
    [.env] is regenerated, at most twice, and what is still missing is
    reported. *)
Definition regenerate_root_env : M unit :=
  let* has_root := path_exists root_env in
  when (negb has_root)
    (print "No .env found in repo root; attempting to auto-generate one..." ;;;
     generate_env_if_missing) ;;;
  let* env_vals := read_env root_env in
  when (nonnil (missing_keys env_vals))
    (print ("Some required .env keys are missing or empty: "
              +:+ repr_list (missing_keys env_vals)) ;;;
     print "Attempting to regenerate .env once more..." ;;;
     generate_env_if_missing ;;;
     let* env_vals := read_env root_env in
     let* has_fallback := path_exists gen_fallback in
     let* missing :=
       (if nonnil (missing_keys env_vals) && has_fallback then
          print "Running fallback scripts/generate_env.py to produce a more complete .env..." ;;;
          except_Exception
            (let* o := check_output [sys_executable H; gen_fallback] in
             write_file root_env o ;;;
             print "Wrote fallback-generated .env to repo root")
            (λ e, print ("Failed to run fallback generate_env.py: "
                           +:+ py_str H e)) ;;;
          let* env_vals := read_env root_env in
          ret (missing_keys env_vals)
        else ret (missing_keys env_vals)) in
     when (nonnil missing)
       (print ("Warning: after auto-generation, these keys are still missing: "
                 +:+ repr_list missing) ;;;
        print "Docker compose may fail; please inspect .env or run scripts/generate_env.py manually.")).

(** Lines 290-298 of [prepare_supabase_env]: [shutil.copyfile] of the root
    file to [supabase/docker/.env], whenever the root file exists. *)
Definition copy_root_env : M unit :=
  let* w := get_world in
  match fs w !! root_env with
  | Some text =>
      print "Copying .env in root to .env in supabase/docker..." ;;;
      write_file supabase_env text
  | None => ret tt
  end.

(** [prepare_supabase_env], lines 214-298. *)
Definition prepare_supabase_env : M unit :=
  regenerate_root_env ;;; copy_root_env.

(** ** Dependency Readiness Waiter *)

(** What [urllib.request.urlopen] makes of the server's answer: a response
    object for a 2xx status, the exception [HTTPError] for any other status
    (raised by the library's error processor), [URLError] when nothing
    answers.  The status is the one of the final answer, after the
    redirects the library follows. *)
Inductive UrlopenResult :=
| Response (code : Z)
| HTTPError (code : Z)
| URLError.

Definition urlopen (reply : option Z) : UrlopenResult :=
  match reply with
  | Some code =>
      if (200 <=? code) && (code <? 300) then Response code
      else HTTPError code
  | None => URLError
  end.

(** [http_get], lines 351-356: every exception gives [None]. *)
Definition http_get (round : nat) (url : string) : option Z :=
  match urlopen (server H round url) with
  | Response code => Some code
  | HTTPError _ => None
  | URLError => None
  end.

(** The test [code and code < 600]. *)
Definition answered (code : option Z) : bool :=
  match code with
  | Some c => negb (c =? 0) && (c <? 600)
  | None => false
  end.

Definition targets : list (string * string) :=
  [("auth", "http://localhost:9999/health");
   ("rest", "http://localhost:8000/rest/v1/")].

(** The [for] loop of [wait_for_supabase], lines 368-374. *)
Fixpoint poll_targets (round : nat) (ts : list (string * string))
    (ready : gset string) : M (gset string) :=
  match ts with
  | [] => ret ready
  | (name, url) :: rest =>
      if bool_decide (name ∈ ready) then poll_targets round rest ready
      else
        let code := http_get round url in
        if answered code then
          print ("  " +:+ name +:+ " up (HTTP "
                   +:+ pretty (default 0 code) +:+ ")") ;;;
          poll_targets round rest ({[name]} ∪ ready)
        else poll_targets round rest ready
  end.

(** The [while] loop of [wait_for_supabase], lines 367-380; [left] counts
    the iterations the deadline still admits, [round] the ones done. *)
Fixpoint wait_for_supabase_loop (left round : nat) (ready : gset string)
  : M bool :=
  match left with
  | O =>
      print "Timeout waiting for Supabase; proceeding anyway." ;;;
      ret false
  | S left' =>
      let* ready := poll_targets round targets ready in
      if bool_decide (size ready = length targets) then
        print "Supabase core endpoints responding." ;;;
        ret true
      else wait_for_supabase_loop left' (S round) ready
  end.

(** [wait_for_supabase], lines 359-380. *)
Definition wait_for_supabase : M bool :=
  print "Waiting for Supabase (auth, rest) to become ready..." ;;;
  wait_for_supabase_loop (rounds_supabase H) 0 ∅.

(** ** Port Conflict Resolver *)

(** A decimal digit, as the pattern [\d] and [int] read it on the code
    points 0..255. *)
Definition is_digit (c : ascii) : bool :=
  let n := Ascii.N_of_ascii c in ((48 <=? n) && (n <=? 57))%N.

(** The longest prefix of digits, and what follows it: a greedy [\d*]. *)
Fixpoint take_digits (s : string) : string * string :=
  match s with
  | "" => ("", "")
  | String c s' =>
      if is_digit c then
        let '(d, r) := take_digits s' in (String c d, r)
      else ("", s)
  end.

(** [int(digits)]. *)
Fixpoint int_of_digits_from (acc : Z) (s : string) : Z :=
  match s with
  | "" => acc
  | String c s' =>
      int_of_digits_from (10 * acc + (Z.of_N (Ascii.N_of_ascii c) - 48)) s'
  end.

Definition int_of_digits (s : string) : Z := int_of_digits_from 0 s.

Fixpoint all_digits (s : string) : bool :=
  match s with
  | "" => true
  | String c s' => is_digit c && all_digits s'
  end.

(** [s] without the prefix [p], when it has it. *)
Fixpoint drop_prefix (p s : string) : option string :=
  match p, s with
  | "", _ => Some s
  | String a p', String b s' =>
      if bool_decide (a = b) then drop_prefix p' s' else None
  | String _ _, "" => None
  end.

(** [re.match(r"-\s*127\.0\.0\.1:(\d+):(\d+)", line)], line 540, with the
    two groups converted by [int]. *)
Definition match_loopback_mapping (line : string) : option (Z * Z) :=
  match line with
  | String c rest =>
      if bool_decide (c = "-"%char) then
        match drop_prefix "127.0.0.1:" (lstrip rest) with
        | Some r1 =>
            let '(host_d, r2) := take_digits r1 in
            match r2 with
            | String c2 r3 =>
                let '(cont_d, _) := take_digits r3 in
                if nonempty host_d && bool_decide (c2 = ":"%char)
                   && nonempty cont_d
                then Some (int_of_digits host_d, int_of_digits cont_d)
                else None
            | "" => None
            end
        | None => None
        end
      else None
  | "" => None
  end.

(** [parse_private_override_ports], lines 527-548: the list stored under
    the key ['__anonymous__'], empty when the dict has no such key. *)
Definition parse_private_override_ports (path : string)
  : M (list (Z * Z)) :=
  λ w, match fs w !! path with
       | None => (Ok [], w)
       | Some text =>
           (Ok (omap (λ line, match_loopback_mapping (strip line))
                  (text_lines text)), w)
       end.

(** The loop of [find_next_free_port], run for at most [fuel] steps. *)
Fixpoint scan_free (fuel : nat) (p : Z) (used : gset Z) : Z :=
  match fuel with
  | O => p
  | S fuel' =>
      if bool_decide (p ∈ used ∨ p < 1024) then scan_free fuel' (p + 1) used
      else p
  end.

(** The largest port the loop can still reject. *)
Definition last_rejected (used : gset Z) : Z := set_fold Z.max 1023 used.

(** [find_next_free_port], lines 550-554.  The loop leaves at the latest
    one past [last_rejected]; [find_next_free_port_unfold] shows that the
    steps given here are never used up. *)
Definition find_next_free_port (start : Z) (used : gset Z) : Z :=
  scan_free (Z.to_nat (last_rejected used + 1 - start)) start used.

(** One iteration of the loop of lines 564-569, without its [print]. *)
Definition remap_step (st : list (Z * Z * Z) * gset Z) (pr : Z * Z)
  : list (Z * Z * Z) * gset Z :=
  let '(remap, listening) := st in
  let '(host_p, cont_p) := pr in
  if bool_decide (host_p ∈ listening) then
    let new_p := find_next_free_port (host_p + 1) listening in
    (remap ++ [(host_p, cont_p, new_p)], {[new_p]} ∪ listening)
  else st.

(** The loop of lines 562-569 from a given state. *)
Definition remap_from (st : list (Z * Z * Z) * gset Z)
    (declared : list (Z * Z)) : list (Z * Z * Z) * gset Z :=
  foldl remap_step st declared.

(** The remaps of one resolution pass: [remap] after the loop. *)
Definition resolve (declared : list (Z * Z)) (listening : gset Z)
  : list (Z * Z * Z) :=
  (remap_from ([], listening) declared).1.

Definition remap_message (r : Z * Z * Z) : string :=
  "Port " +:+ pretty r.1.1 +:+ " is already in use on the host; remapping to "
    +:+ pretty r.2 +:+ " in a temporary override file.".

(** [svc_to_ports.setdefault(srvname, []).append(x)] on a dict that keeps
    the order of insertion. *)
Fixpoint setdefault_append (srvname : string) (x : Z * Z)
    (d : list (string * list (Z * Z))) : list (string * list (Z * Z)) :=
  match d with
  | [] => [(srvname, [x])]
  | (k, l) :: d' =>
      if bool_decide (k = srvname) then (k, l ++ [x]) :: d'
      else (k, l) :: setdefault_append srvname x d'
  end.

(** Lines 599-603. *)
Definition group_by_service (contport_to_service : gmap Z string)
    (remap : list (Z * Z * Z)) : list (string * list (Z * Z)) :=
  foldl (λ d r,
           let srvname :=
             match contport_to_service !! r.1.2 with
             | Some svc => if nonempty svc then svc
                           else "unknown_" +:+ pretty r.1.2
             | None => "unknown_" +:+ pretty r.1.2
             end in
           setdefault_append srvname (r.2, r.1.2) d)
        [] remap.

(** Lines 605-610 and 615: the text of the override file. *)
Definition overlay_text (svc_to_ports : list (string * list (Z * Z)))
  : string :=
  join (String LF "")
    (["version: '3'"; "services:"]
       ++ mbind (λ sp : string * list (Z * Z),
                   ("  " +:+ sp.1 +:+ ":") :: "    ports:"
                   :: ((λ pc : Z * Z,
                          "      - '127.0.0.1:" +:+ pretty pc.1 +:+ ":"
                            +:+ pretty pc.2 +:+ "'") <$> sp.2))
               svc_to_ports)
    +:+ String LF "".

(** [tempfile.mkstemp(prefix='docker-override-', suffix='.yml')]: the
    system picks the name and creates the file. *)
Definition mkstemp_name (w : World) : string :=
  gettempdir H +:+ "/docker-override-" +:+ mkstemp_random H w +:+ ".yml".

Definition mkstemp : M string :=
  λ w, let name := mkstemp_name w in
       (Ok name, {| fs := <[name := ""]> (fs w); dicts := dicts w;
                    out := out w; spawned := spawned w;
                    temps := temps w ++ [name] |}).

(** ** Dependency Readiness Waiter: Neo4j *)

(** [s.splitlines()] on the code points 0..255: a line ends at LF, VT, FF,
    CR, CR LF, FS, GS, RS or NEL, and the line ends are dropped. *)
Definition is_line_end (c : ascii) : bool :=
  let n := Ascii.N_of_ascii c in
  ((10 <=? n) && (n <=? 13) || (28 <=? n) && (n <=? 30) || (n =? 133))%N.

Fixpoint splitlines (s : string) : list string :=
  match s with
  | "" => []
  | String c s' =>
      if is_line_end c then
        if bool_decide (c = CR) then
          match s' with
          | String c2 s'' =>
              if bool_decide (c2 = LF) then "" :: splitlines s''
              else "" :: splitlines s'
          | "" => [""]
          end
        else "" :: splitlines s'
      else match splitlines s' with
           | [] => [String c ""]
           | l :: ls => String c l :: ls
           end
  end.

(** [s.isdigit()] on the code points 0..255: the decimal digits and the
    superscripts two, three and one; at least one character. *)
Definition isdigit_char (c : ascii) : bool :=
  let n := Ascii.N_of_ascii c in
  ((48 <=? n) && (n <=? 57) || (n =? 178) || (n =? 179) || (n =? 185))%N.

Fixpoint all_isdigit (s : string) : bool :=
  match s with
  | "" => true
  | String c s' => isdigit_char c && all_isdigit s'
  end.

Definition isdigit (s : string) : bool := nonempty s && all_isdigit s.

(** [int(s)] for a string that passed [isdigit]: a superscript is no
    decimal digit, [int] raises [ValueError] for it. *)
Definition py_int (s : string) : M Z :=
  if nonempty s && all_digits s then ret (int_of_digits s)
  else raise (PyException "ValueError").

(** [s.startswith(p)] and [m in s]. *)
Fixpoint startswith (p s : string) : bool :=
  match p, s with
  | "", _ => true
  | String a p', String b s' => bool_decide (a = b) && startswith p' s'
  | String _ _, "" => false
  end.

Fixpoint contains_str (m s : string) : bool :=
  startswith m s
  || match s with
     | "" => false
     | String _ s' => contains_str m s'
     end.

(** [subprocess.call(cmd, ...)]: the child inherits the environment and
    its exit code is returned. *)
Definition subprocess_call (cmd : list string) : M Z :=
  let* w := get_world in
  let* r := subprocess_run cmd None false (environ w) None in
  ret (returncode r).

(** [find_neo4j_container], lines 392-398. *)
Definition find_neo4j_container : M (option string) :=
  except_Exception
    (let* o := check_output ["docker"; "ps"; "--filter"; "name=neo4j";
                             "--format"; "{{.Names}}"] in
     let names := filter (λ n, nonempty n) (strip <$> splitlines o) in
     ret (head names))
    (λ _, ret None).

(** [check_inside_with_curl], lines 400-413. *)
Definition check_inside_with_curl (cname : string) : M (option Z) :=
  except_Exception
    (let* rc := subprocess_call
                  ["docker"; "exec"; cname; "sh"; "-c";
                   "command -v curl >/dev/null 2>&1"] in
     if rc =? 0 then
       let* o := check_output
                   ["docker"; "exec"; cname; "sh"; "-c";
                    "curl -s -o /dev/null -w '%{http_code}' http://localhost:7474/ || true"] in
       let o := strip o in
       if nonempty o && isdigit o then
         let* n := py_int o in
         if negb (n =? 0) then
           let* n := py_int o in
           ret (Some n)
         else ret None
       else ret None
     else ret None)
    (λ _, ret None).

(** The command line of the probe of lines 418-420; it holds two double
    quotes. *)
Definition py_cmd : string :=
  "python3 -c " +:+ String (Ascii.ascii_of_N 34)
    ("import http.client,sys; c=http.client.HTTPConnection('localhost',7474,timeout=3); c.request('GET','/'); r=c.getresponse(); print(r.status)"
       +:+ String (Ascii.ascii_of_N 34) "").

(** [check_inside_with_python], lines 415-426. *)
Definition check_inside_with_python (cname : string) : M (option Z) :=
  except_Exception
    (let* o := check_output ["docker"; "exec"; cname; "sh"; "-c"; py_cmd] in
     let o := strip o in
     if nonempty o && isdigit o then
       let* n := py_int o in
       ret (Some n)
     else ret None)
    (λ _, ret None).

Definition markers : list string :=
  ["Bolt enabled"; "Started"; "Remote interface available";
   "Bolt connector enabled"; "Started database"; "Server started"].

(** [logs_indicate_ready], lines 428-437. *)
Definition logs_indicate_ready (cname : string) : M bool :=
  except_Exception
    (let* logs := check_output ["docker"; "logs"; "--tail"; "500"; cname] in
     ret (existsb (λ m, contains_str m logs) markers))
    (λ _, ret false).

(** The [while] loop of [wait_for_neo4j], lines 439-462. *)
Fixpoint wait_for_neo4j_loop (left round : nat) : M bool :=
  match left with
  | O =>
      print "Timeout waiting for Neo4j; proceeding anyway." ;;;
      ret false
  | S left' =>
      let code := http_get round "http://localhost:7474/" in
      if answered code then
        print ("Neo4j up (HTTP " +:+ pretty (default 0 code) +:+ ")") ;;;
        ret true
      else
        let* found := find_neo4j_container in
        match found with
        | Some cname =>
            let* inner := check_inside_with_curl cname in
            if answered inner then
              print ("Neo4j up inside container " +:+ cname +:+ " (HTTP "
                       +:+ pretty (default 0 inner) +:+ ")") ;;;
              ret true
            else
              let* inner := check_inside_with_python cname in
              if answered inner then
                print ("Neo4j up inside container " +:+ cname +:+ " (HTTP "
                         +:+ pretty (default 0 inner) +:+ ")") ;;;
                ret true
              else
                let* ready := logs_indicate_ready cname in
                if ready then
                  print ("Neo4j logs indicate service started inside container "
                           +:+ cname) ;;;
                  ret true
                else wait_for_neo4j_loop left' (S round)
        | None => wait_for_neo4j_loop left' (S round)
        end
  end.

(** [wait_for_neo4j], lines 383-462. *)
Definition wait_for_neo4j : M bool :=
  print "Waiting for Neo4j to become ready (HTTP 7474)..." ;;;
  wait_for_neo4j_loop (rounds_neo4j H) 0.

(** [get_listening_ports], lines 501-525: the ports in the output of [ss],
    or of [lsof] when [ss] fails, or none. *)
Definition get_listening_ports : M (gset Z) :=
  except_Exception
    (let* o := check_output ["ss"; "-ltnp"] in
     ret (list_to_set (omap (ss_port H) (splitlines o))))
    (λ _,
       except_Exception
         (let* o := check_output ["lsof"; "-iTCP"; "-sTCP:LISTEN"; "-P";
                                  "-n"] in
          ret (list_to_set (concat (lsof_ports H <$> splitlines o))))
         (λ _, ret ∅)).

(** ** Stack Launcher *)

(** The truth value of an optional string argument. *)
Definition truthy (o : option string) : bool :=
  match o with
  | Some s => nonempty s
  | None => false
  end.

Definition is_string (o : option string) (s : string) : bool :=
  bool_decide (o = Some s).

(** The dict literal of lines 306, 320, 337 and 631. *)
Definition docker_socket_override : M (gmap string string) :=
  let* loc := environ_get "DOCKER_SOCKET_LOCATION" "/var/run/docker.sock" in
  ret {[ "DOCKER_SOCKET_LOCATION" := loc ]}.

Fixpoint print_all (lines : list string) : M unit :=
  match lines with
  | [] => ret tt
  | l :: rest => print l ;;; print_all rest
  end.

(** [ensure_local_images], lines 474-495. *)
Definition ensure_local_images : M unit :=
  let portal_image := "localai-portal:latest" in
  except_CalledProcessError
    (let* w := get_world in
     subprocess_run ["docker"; "image"; "inspect"; portal_image] None true
       (environ w) None ;;;
     print ("Local image " +:+ portal_image
              +:+ " already exists; skipping local build."))
    (λ _,
       let portal_dir := path_join (repo_dir H) "portal" in
       let dockerfile := path_join portal_dir "Dockerfile" in
       let* has := path_exists dockerfile in
       if has then
         print ("Local image " +:+ portal_image +:+ " not found. Building from "
                  +:+ portal_dir +:+ "...") ;;;
         except_CalledProcessError
           (run_command ["docker"; "build"; "-t"; portal_image; "."]
              (Some portal_dir) None false None ;;;
            print ("Built " +:+ portal_image +:+ " successfully."))
           (λ e,
              print ("Failed to build " +:+ portal_image +:+ ": "
                       +:+ py_str H e) ;;;
              print "You can try to install the docker buildx plugin or build the image manually:" ;;;
              print ("  docker build -t " +:+ portal_image +:+ " "
                       +:+ portal_dir))
       else
         print ("Portal Dockerfile not found at " +:+ dockerfile
                  +:+ "; skipping local portal build.")).

(** Lines 618-630: the command that starts the main stack. *)
Definition compose_up_cmd (profile environment : option string)
    (temp_override_path : option string) : list string :=
  ["docker"; "compose"; "-p"; "localai"]
    ++ (if truthy profile && negb (is_string profile "none")
        then ["--profile"; default "" profile] else [])
    ++ ["-f"; "docker-compose.yml"]
    ++ (if truthy environment && is_string environment "private"
        then ["-f"; "docker-compose.override.private.yml"] else [])
    ++ (if truthy environment && is_string environment "public"
        then ["-f"; "docker-compose.override.public.yml"] else [])
    ++ (if truthy temp_override_path
        then ["-f"; default "" temp_override_path] else [])
    ++ ["up"; "-d"].

(** Lines 575-617: the override file is written when there are remaps. *)
Definition write_override (remap : list (Z * Z * Z)) : M (option string) :=
  if nonnil remap then
    let* w := get_world in
    let svc_to_ports := group_by_service (scan_compose H w) remap in
    let* temp_path := mkstemp in
    write_file temp_path (overlay_text svc_to_ports) ;;;
    print ("Wrote temporary compose override to " +:+ temp_path) ;;;
    ret (Some temp_path)
  else ret None.

(** Lines 618-645: the main stack is started, and the override file is
    removed whatever the outcome. *)
Definition compose_up (profile environment : option string)
    (temp_override_path : option string) : M unit :=
  let cmd := compose_up_cmd profile environment temp_override_path in
  let* env_override := docker_socket_override in
  try_finally
    (except_CalledProcessError
       (run_command cmd None (Some env_override) false None ;;; ret tt)
       (λ e,
          print ("docker compose up for local AI failed: " +:+ py_str H e) ;;;
          print "Suggested action: confirm .env is complete and docker has enough memory; try re-running with --preflight to validate environment first." ;;;
          raise e))
    (let* there := path_exists (default "" temp_override_path) in
     when (truthy temp_override_path && there)
       (remove_file (default "" temp_override_path) ;;;
        print ("Removed temporary override file "
                 +:+ default "" temp_override_path))).

(** [start_local_ai], lines 464-645. *)
Definition start_local_ai (profile environment : option string) : M unit :=
  print "Starting local AI services..." ;;;
  ensure_local_images ;;;
  let* parsed := parse_private_override_ports
                   (path_join (repo_dir H)
                      "docker-compose.override.private.yml") in
  let* listening := get_listening_ports in
  let remap := resolve parsed listening in
  print_all (remap_message <$> remap) ;;;
  let* temp_override_path := write_override remap in
  compose_up profile environment temp_override_path.

(** [stop_existing_containers], lines 300-311. *)
Definition stop_existing_containers (profile : option string) : M unit :=
  print "Stopping and removing existing containers for the unified project 'localai'..." ;;;
  let cmd := ["docker"; "compose"; "-p"; "localai"]
               ++ (if truthy profile && negb (is_string profile "none")
                   then ["--profile"; default "" profile] else [])
               ++ ["-f"; "docker-compose.yml"; "down"] in
  let* env_override := docker_socket_override in
  except_CalledProcessError
    (run_command cmd None (Some env_override) false None ;;; ret tt)
    (λ e,
       print ("docker compose down failed: " +:+ py_str H e) ;;;
       print "If this is due to a bad .env, try running scripts/generate_env.py to create a complete .env, then re-run this script.").

(** [start_supabase], lines 313-330. *)
Definition start_supabase (environment : option string) : M unit :=
  print "Starting Supabase services..." ;;;
  let cmd := ["docker"; "compose"; "-p"; "localai"; "-f";
              "supabase/docker/docker-compose.yml"]
               ++ (if truthy environment && is_string environment "public"
                   then ["-f"; "docker-compose.override.public.supabase.yml"]
                   else [])
               ++ ["up"; "-d"] in
  let* env_override := docker_socket_override in
  except_CalledProcessError
    (run_command cmd None (Some env_override) false None ;;; ret tt)
    (λ e,
       print ("docker compose up for Supabase failed: " +:+ py_str H e) ;;;
       print "Common causes: incomplete .env, docker registry auth issues, or insufficient memory for extracting images." ;;;
       print "Suggested actions:" ;;;
       print "  - Ensure .env exists and contains keys like POSTGRES_HOST, POSTGRES_DB, POSTGRES_PORT, DOCKER_SOCKET_LOCATION" ;;;
       print "  - Run: python3 scripts/generate_env.py > .env and then re-run" ;;;
       print "  - If pulling images fails due to credentials, run 'docker login' and retry." ;;;
       raise e).

(** [start_neo4j], lines 333-345. *)
Definition start_neo4j : M unit :=
  print "Starting Neo4j service (if present in compose)..." ;;;
  let* env_override := docker_socket_override in
  except_CalledProcessError
    (run_command ["docker"; "compose"; "-p"; "localai"; "-f";
                  "docker-compose.yml"; "up"; "-d"; "neo4j"]
       None (Some env_override) false None ;;; ret tt)
    (λ _,
       print "Failed to start Neo4j via a dedicated service bring-up; falling back to full compose up" ;;;
       except_CalledProcessError
         (run_command ["docker"; "compose"; "-p"; "localai"; "-f";
                       "docker-compose.yml"; "up"; "-d"]
            None (Some env_override) false None ;;; ret tt)
         (λ e, print ("Error starting compose: " +:+ py_str H e))).

(** The command line as [argparse] hands it to [main]. *)
Record Args := {
  profile : string;
  environment : string;
  skip_neo4j : bool;
  start_nextjs : bool;
  preflight : bool
}.

(** [main], lines 824-858. *)
Definition main (args : Args) : M unit :=
  host_clone H ;;;
  prepare_supabase_env ;;;
  host_searxng H ;;;
  if preflight args then
    print "Preflight checks completed. Exiting without starting containers."
  else
    stop_existing_containers (Some (profile args)) ;;;
    (if negb (skip_neo4j args) then
       start_neo4j ;;; wait_for_neo4j ;;; ret tt
     else print "Skipping Neo4j startup as requested") ;;;
    when (negb (nonempty (environment args)) || nonempty (environment args))
      (start_supabase (Some (environment args)) ;;;
       wait_for_supabase ;;; ret tt) ;;;
    start_local_ai (Some (profile args)) (Some (environment args)) ;;;
    when (start_nextjs args) (host_nextjs H).

(** How a launch ends: [Done] when [main] returns, [Failed] when an
    exception leaves it. *)
Inductive Outcome := Done | Failed.

Definition launch (args : Args) (w : World) : Outcome * World :=
  match main args w with
  | (Ok _, w') => (Done, w')
  | (Raise _, w') => (Failed, w')
  end.

End Script.

(** The KEY=VALUE format of the specification (section 6), as a writer:
    one line [KEY=VALUE] per pair, each ended by a line feed. *)
Definition render_line (kv : string * string) : string :=
  kv.1 +:+ "=" +:+ kv.2 +:+ String LF "".

Fixpoint render_env (kvs : list (string * string)) : string :=
  match kvs with
  | [] => ""
  | kv :: rest => render_line kv +:+ render_env rest
  end.

Definition has_line_break (s : string) : bool :=
  contains_char LF s || contains_char CR s.

Definition first_is_space (s : string) : bool :=
  match s with
  | String c _ => isspace c
  | "" => false
  end.

Fixpoint last_is_space (s : string) : bool :=
  match s with
  | "" => false
  | String c "" => isspace c
  | String _ s' => last_is_space s'
  end.

(** The keys that survive a round trip: no ['='], no line break, no
    whitespace or ['#'] in front. *)
Definition key_ok (k : string) : bool :=
  negb (contains_char "=" k) && negb (has_line_break k)
  && negb (first_is_space k) && negb (startswith_char "#" k).

(** The values that survive a round trip: no line break, no whitespace at
    the end.  An ['='] and whitespace in front are allowed. *)
Definition value_ok (v : string) : bool :=
  negb (has_line_break v) && negb (last_is_space v).

Definition entry_ok (kv : string * string) : Prop :=
  key_ok kv.1 ∧ value_ok kv.2.

(** The pair a line contributes to the result of [read_env], if any. *)
Definition env_entry (line : string) : option (string * string) :=
  let line := strip line in
  if negb (nonempty line) || startswith_char "#" line
     || negb (contains_char "=" line)
  then None
  else match split1 "=" line with
       | [k; v] => Some (k, v)
       | _ => None
       end.

(** ** Sample hosts and worlds *)

(** What [ss] prints on the sample hosts: the ports of [listening], one
    per line. *)
Definition sample_ss_output (listening : gset Z) : string :=
  join (String LF "") (pretty <$> elements listening).

(** A host on which every child behaves as [run] says and leaves the files
    alone, but for [ss], which prints the ports of [listening]; the pattern
    of line 507 finds the port in a line of digits; servers answer as [srv]
    says. *)
Definition sample_host (run : list string → Behaviour)
    (srv : nat → string → option Z) (listening : gset Z) : Host :=
  {| exec := λ w sp,
       (if bool_decide (sp_cmd sp = ["ss"; "-ltnp"])
        then Exited 0 (sample_ss_output listening) ""
        else run (sp_cmd sp), fs w);
     py_str := λ _, "error";
     gettempdir := "/tmp";
     mkstemp_random := λ _, "k3x9";
     ss_port := λ line, if nonempty line && all_digits line
                        then Some (int_of_digits line) else None;
     lsof_ports := λ _, [];
     scan_compose := λ _, ∅;
     sys_executable := "/usr/bin/python3";
     repo_dir := "/srv/localai";
     server := srv;
     rounds_supabase := 2;
     rounds_neo4j := 1;
     host_clone := ret tt;
     host_searxng := ret tt;
     host_nextjs := ret tt |}.

(** A world with the given files, an environment, and nothing done yet. *)
Definition sample_world (files : gmap string string) : World :=
  {| fs := files;
     dicts := {[ os_environ := {[ "PATH" := "/usr/bin" ]} ]};
     out := [];
     spawned := [];
     temps := [] |}.

(** ** Vocabulary of the properties *)

(** What the loop of [find_next_free_port] steps over. *)
Definition rejected (used : gset Z) (p : Z) : Prop := p ∈ used ∨ p < 1024.

(** [n] is the smallest integer from [lo] on that satisfies [P]. *)
Definition smallest_from (lo : Z) (P : Z → Prop) (n : Z) : Prop :=
  lo ≤ n ∧ P n ∧ ∀ q, lo ≤ q < n → ¬ P q.

(** The new host ports of a list of remaps. *)
Definition new_ports (remap : list (Z * Z * Z)) : list Z := snd <$> remap.

(** A computation that hands out no temporary name. *)
Definition keeps_temps {A} (m : M A) : Prop :=
  ∀ w, temps (m w).2 = temps w.

(** Lines 618-625: the start command of the main stack up to the place
    where the override file is added. *)
Definition compose_base_cmd (profile environment : option string)
  : list string :=
  ["docker"; "compose"; "-p"; "localai"]
    ++ (if truthy profile && negb (is_string profile "none")
        then ["--profile"; default "" profile] else [])
    ++ ["-f"; "docker-compose.yml"]
    ++ (if truthy environment && is_string environment "private"
        then ["-f"; "docker-compose.override.private.yml"] else [])
    ++ (if truthy environment && is_string environment "public"
        then ["-f"; "docker-compose.override.public.yml"] else []).

(** The world [w] after the lines [lines] have been printed. *)
Definition with_out (w : World) (lines : list string) : World :=
  {| fs := fs w; dicts := dicts w; out := out w ++ lines;
     spawned := spawned w; temps := temps w |}.

Definition supabase_warning : string :=
  "Timeout waiting for Supabase; proceeding anyway.".

Definition neo4j_warning : string :=
  "Timeout waiting for Neo4j; proceeding anyway.".

(** The phases of [main] before the wait for Supabase, lines 834-852, in a
    launch that is not a preflight. *)
Definition launch_until_wait (H : Host) (args : Args) : M unit :=
  host_clone H ;;;
  prepare_supabase_env H ;;;
  host_searxng H ;;;
  stop_existing_containers H (Some (profile args)) ;;;
  (if negb (skip_neo4j args) then
     start_neo4j H ;;; wait_for_neo4j H ;;; ret tt
   else print "Skipping Neo4j startup as requested") ;;;
  start_supabase H (Some (environment args)).

(** The phases of [main] after the wait for Supabase, lines 855-858. *)
Definition launch_after_wait (H : Host) (args : Args) : M unit :=
  start_local_ai H (Some (profile args)) (Some (environment args)) ;;;
  when (start_nextjs args) (host_nextjs H).

(** The phases of [main] before the wait for Neo4j, lines 834-846, and
    after it, lines 851-858, in a launch that starts Neo4j. *)
Definition launch_until_neo4j_wait (H : Host) (args : Args) : M unit :=
  host_clone H ;;;
  prepare_supabase_env H ;;;
  host_searxng H ;;;
  stop_existing_containers H (Some (profile args)) ;;;
  start_neo4j H.

Definition launch_after_neo4j_wait (H : Host) (args : Args) : M unit :=
  start_supabase H (Some (environment args)) ;;;
  wait_for_supabase H ;;;
  launch_after_wait H args.

Definition outcome_of {A} (r : Result A * World) : Outcome * World :=
  match r with
  | (Ok _, w') => (Done, w')
  | (Raise _, w') => (Failed, w')
  end.

(** Servers: the REST gateway answers 401 to a request without a key and
    the auth service answers 200; only the auth service answers; nobody
    answers. *)
Definition rest_unauthorized : nat → string → option Z :=
  λ _ url, if bool_decide (url = "http://localhost:8000/rest/v1/")
           then Some 401 else Some 200.

Definition auth_only : nat → string → option Z :=
  λ _ url, if bool_decide (url = "http://localhost:9999/health")
           then Some 200 else None.

Definition nobody_answers : nat → string → option Z := λ _ _, None.

(** Children: all succeed; all time out. *)
Definition all_succeed : list string → Behaviour := λ _, Exited 0 "" "".

Definition all_time_out : list string → Behaviour := λ _, TimedOut.

Definition sample_args : Args :=
  {| profile := "cpu"; environment := "private"; skip_neo4j := true;
     start_nextjs := false; preflight := false |}.

(** A root [.env] with every required key. *)
Definition complete_env : string :=
  render_env [("POSTGRES_HOST", "db"); ("POSTGRES_DB", "postgres");
              ("POSTGRES_PORT", "5432"); ("NEO4J_AUTH", "neo4j/s3cret");
              ("DOCKER_SOCKET_LOCATION", "/var/run/docker.sock")].

(** ** Further vocabulary *)

(** The name under which a remapped container port is listed, lines
    601-602. *)
Definition service_name (contport_to_service : gmap Z string) (cont_p : Z)
  : string :=
  match contport_to_service !! cont_p with
  | Some svc => if nonempty svc then svc else "unknown_" +:+ pretty cont_p
  | None => "unknown_" +:+ pretty cont_p
  end.

Fixpoint all_space (s : string) : bool :=
  match s with
  | "" => true
  | String c s' => isspace c && all_space s'
  end.

Fixpoint spaces (n : nat) : string :=
  match n with
  | O => ""
  | S n' => String " " (spaces n')
  end.

(** A loopback mapping as the private override file declares it: a list
    item [- 127.0.0.1:HOST:CONTAINER], indented by [indent] spaces. *)
Definition render_mapping (item : nat * (Z * Z)) : string :=
  spaces item.1 +:+ "- 127.0.0.1:" +:+ pretty item.2.1 +:+ ":"
    +:+ pretty item.2.2 +:+ String LF "".

Fixpoint render_mappings (items : list (nat * (Z * Z))) : string :=
  match items with
  | [] => ""
  | item :: rest => render_mapping item +:+ render_mappings rest
  end.


(** The command lines of [stop_existing_containers] (lines 302-305),
    [start_supabase] (lines 316-319) and [start_neo4j] (line 336). *)
Definition down_cmd (profile : option string) : list string :=
  ["docker"; "compose"; "-p"; "localai"]
    ++ (if truthy profile && negb (is_string profile "none")
        then ["--profile"; default "" profile] else [])
    ++ ["-f"; "docker-compose.yml"; "down"].

Definition supabase_up_cmd (environment : option string) : list string :=
  ["docker"; "compose"; "-p"; "localai"; "-f";
   "supabase/docker/docker-compose.yml"]
    ++ (if truthy environment && is_string environment "public"
        then ["-f"; "docker-compose.override.public.supabase.yml"] else [])
    ++ ["up"; "-d"].

Definition neo4j_up_cmd : list string :=
  ["docker"; "compose"; "-p"; "localai"; "-f"; "docker-compose.yml";
   "up"; "-d"; "neo4j"].

(** The value the compose commands get for [DOCKER_SOCKET_LOCATION]. *)
Definition docker_socket (w : World) : string :=
  default "/var/run/docker.sock" (environ w !! "DOCKER_SOCKET_LOCATION").

(** The child of a compose command: no working directory, no timeout, the
    ambient environment with the socket location set. *)
Definition compose_child (w : World) (cmd : list string) : Spawn :=
  {| sp_cmd := cmd; sp_cwd := None;
     sp_env := <["DOCKER_SOCKET_LOCATION" := docker_socket w]> (environ w);
     sp_timeout := None |}.

(** The [try] body of a phase that runs one compose command: lines 301-308,
    315-322 and 335-339. *)
Definition compose_phase (H : Host) (line : string) (cmd : list string)
  : M unit :=
  print line ;;;
  let* env_override := docker_socket_override in
  run_command H cmd None (Some env_override) false None ;;;
  ret tt.

(** A host on which every child ends with exit code 0. *)
Definition always_succeeds (H : Host) : Prop :=
  ∀ w sp, ∃ so se, (exec H w sp).1 = Exited 0 so se.

(** A child that the given host lets fail whenever it runs [cmd]: it does
    not end with exit code 0. *)
Definition always_fails (H : Host) (cmd : list string) : Prop :=
  ∀ w sp so se, sp_cmd sp = cmd → (exec H w sp).1 ≠ Exited 0 so se.

(** Children: all succeed but [docker compose ... down]. *)
Definition down_fails : list string → Behaviour :=
  λ cmd, if bool_decide ("down" ∈ cmd)
         then Exited 1 "" "invalid compose project"
         else Exited 0 "" "".

(** Children: all succeed but the primary generator of [.env]; all
    succeed, and the fallback generator prints a complete [.env]. *)
Definition generator_fails : list string → Behaviour :=
  λ cmd, if bool_decide ("/srv/localai/scripts/gen_all_in_one_env.py" ∈ cmd)
         then Exited 1 "" "Traceback (most recent call last)"
         else Exited 0 "" "".

Definition fallback_prints : list string → Behaviour :=
  λ cmd, if bool_decide ("/srv/localai/scripts/generate_env.py" ∈ cmd)
         then Exited 0 complete_env ""
         else Exited 0 "" "".

(** Children: a Neo4j container is listed, and no probe inside it
    succeeds. *)
Definition neo4j_never_ready : list string → Behaviour :=
  λ cmd, if bool_decide ("ps" ∈ cmd)
         then Exited 0 ("neo4j" +:+ String LF "") ""
         else if bool_decide ("exec" ∈ cmd) || bool_decide ("logs" ∈ cmd)
              then Exited 1 "" ""
              else Exited 0 "" "".

Definition sample_args_neo4j : Args :=
  {| profile := "cpu"; environment := "private"; skip_neo4j := false;
     start_nextjs := false; preflight := false |}.

(** A root [.env] that lacks four of the required keys, and a repository
    with that file, the primary generator and an older shadow file. *)
Definition incomplete_env : string := render_env [("POSTGRES_HOST", "db")].

Definition stale_shadow_files : gmap string string :=
  {[ "/srv/localai/.env" := incomplete_env;
     "/srv/localai/scripts/gen_all_in_one_env.py" := "import os";
     "/srv/localai/supabase/docker/.env" := "OLD=1" ]}.

(** The server answers the request of the given round with a 2xx status. *)
Definition responds (H : Host) (round : nat) (url : string) : Prop :=
  ∃ code, server H round url = Some code ∧ 200 ≤ code < 300.





(** The command of [get_listening_ports], line 505. *)
Definition ss_cmd : list string := ["ss"; "-ltnp"].

(** The commands of [ensure_local_images], lines 478 and 488, and the
    Dockerfile it looks for. *)
Definition inspect_cmd : list string :=
  ["docker"; "image"; "inspect"; "localai-portal:latest"].

Definition build_cmd : list string :=
  ["docker"; "build"; "-t"; "localai-portal:latest"; "."].

Definition portal_dockerfile (H : Host) : string :=
  path_join (path_join (repo_dir H) "portal") "Dockerfile".

(** Children: the portal image is missing and cannot be built. *)
Definition build_fails : list string → Behaviour :=
  λ cmd, if bool_decide ("localai-portal:latest" ∈ cmd)
         then Exited 1 "" "failed to solve"
         else Exited 0 "" "".

(** Lines 466-569 of [start_local_ai]: everything before the override file
    is written; the result is the list of remaps. *)
Definition override_plan (H : Host) : M (list (Z * Z * Z)) :=
  print "Starting local AI services..." ;;;
  ensure_local_images H ;;;
  let* parsed := parse_private_override_ports
                   (path_join (repo_dir H)
                      "docker-compose.override.private.yml") in
  let* listening := get_listening_ports H in
  let remap := resolve parsed listening in
  print_all (remap_message <$> remap) ;;;
  ret remap.


(** The child of [subprocess.check_output(cmd)] and of
    [subprocess.call(cmd)] in the world [w]: it inherits the environment,
    has no working directory of its own and no timeout. *)
Definition inherit (w : World) (cmd : list string) : Spawn :=
  {| sp_cmd := cmd; sp_cwd := None; sp_env := environ w;
     sp_timeout := None |}.

(** The world after such a child has run in [w]. *)
Definition after_child (H : Host) (w : World) (cmd : list string) : World :=
  {| fs := (exec H w (inherit w cmd)).2; dicts := dicts w; out := out w;
     spawned := spawned w ++ [inherit w cmd]; temps := temps w |}.

(** The commands of the probes of [wait_for_neo4j], lines 394-430:
    [docker ps], [docker exec] and [docker logs]. *)
Definition is_neo4j_probe (cmd : list string) : bool :=
  bool_decide (cmd !! 0%nat = Some "docker")
  && bool_decide (cmd !! 1%nat ∈ [Some "ps"; Some "exec"; Some "logs"]).

(** From [w] to [w'] nothing happened but probes of [wait_for_neo4j]:
    the output, the dicts and the temporary names are those of [w], and
    the children started since are probes that inherit the environment. *)
Definition only_probes (w w' : World) : Prop :=
  out w' = out w ∧ dicts w' = dicts w ∧ temps w' = temps w
  ∧ ∃ kids, spawned w' = spawned w ++ kids
      ∧ Forall (λ sp, is_neo4j_probe (sp_cmd sp) = true
                      ∧ sp = inherit w (sp_cmd sp)) kids.

(* ===================================================================== *)
(** * Part II: properties                                                *)
(* ===================================================================== *)

(** ** Port Conflict Resolver *)

Section PortFacts.

Implicit Types (used listening : gset Z) (p start : Z).

Lemma last_rejected_bounds used :
  1023 ≤ last_rejected used ∧ ∀ x, x ∈ used → x ≤ last_rejected used.
Proof.
  unfold last_rejected.
  apply (set_fold_ind_L (λ r X, 1023 ≤ r ∧ ∀ x, x ∈ X → x ≤ r)).
  - split; [lia | set_solver].
  - intros x X r Hx [Hr HX]. split; [lia |].
    intros y [->%elem_of_singleton | Hy]%elem_of_union; [lia |].
    specialize (HX y Hy). lia.
Qed.

Lemma smallest_from_unique lo P n m :
  smallest_from lo P n → smallest_from lo P m → n = m.
Proof.
  intros (Hn1 & Hn2 & Hn3) (Hm1 & Hm2 & Hm3).
  destruct (Z.lt_trichotomy n m) as [Hlt | [Heq | Hgt]]; [| done |].
  - exfalso. apply (Hm3 n); [lia | done].
  - exfalso. apply (Hn3 m); [lia | done].
Qed.

Lemma smallest_from_step lo (P : Z → Prop) n :
  ¬ P lo → smallest_from (lo + 1) P n → smallest_from lo P n.
Proof.
  intros Hlo (Hle & Hn & Hmin). split; [lia |]. split; [done |].
  intros q Hq. destruct (decide (q = lo)) as [-> | Hne]; [done |].
  apply Hmin. lia.
Qed.

Lemma smallest_from_here lo (P : Z → Prop) : P lo → smallest_from lo P lo.
Proof. intros Hlo. split; [lia |]. split; [done | intros q ?; lia]. Qed.

(** With enough steps the scan stops at the first port it does not step
    over. *)
Lemma scan_free_spec used (fuel : nat) p :
  last_rejected used < p + Z.of_nat fuel →
  smallest_from p (λ q, ¬ rejected used q) (scan_free fuel p used).
Proof.
  destruct (last_rejected_bounds used) as [Hlo Hhi].
  revert p. induction fuel as [| fuel IH]; intros p Hp; simpl.
  - apply smallest_from_here.
    intros [Hin | Hlt]; [apply Hhi in Hin |]; lia.
  - case_bool_decide as Hrej.
    + apply smallest_from_step; [by intros Hn; apply Hn |].
      apply IH. lia.
    + by apply smallest_from_here.
Qed.

Lemma find_next_free_port_spec start used :
  smallest_from start (λ q, ¬ rejected used q)
    (find_next_free_port start used).
Proof. apply scan_free_spec. lia. Qed.

(** The function is the [while] loop of the source: it never runs out of
    the steps its definition allots. *)
Lemma find_next_free_port_unfold p used :
  find_next_free_port p used =
    if bool_decide (p ∈ used ∨ p < 1024)
    then find_next_free_port (p + 1) used
    else p.
Proof.
  apply (smallest_from_unique p (λ q, ¬ rejected used q));
    [apply find_next_free_port_spec |].
  case_bool_decide as Hrej.
  - apply smallest_from_step; [by intros Hn; apply Hn |].
    apply find_next_free_port_spec.
  - by apply smallest_from_here.
Qed.

Lemma remap_from_app st (l1 l2 : list (Z * Z)) :
  remap_from st (l1 ++ l2) = remap_from (remap_from st l1) l2.
Proof. apply foldl_app. Qed.

(** The remaps found so far are only extended. *)
Lemma remap_from_prefix (l : list (Z * Z)) remap listening :
  remap_from (remap, listening) l =
    (remap ++ (remap_from ([], listening) l).1,
     (remap_from ([], listening) l).2).
Proof.
  revert remap listening.
  induction l as [| [host_p cont_p] l IH]; intros remap listening; simpl.
  - by rewrite app_nil_r.
  - case_bool_decide as Hin; [| apply IH].
    rewrite IH. rewrite (IH [_]). simpl. by rewrite <- app_assoc.
Qed.

(** [listening] grows by exactly the ports handed out. *)
Lemma remap_from_listening (l : list (Z * Z)) listening :
  (remap_from ([], listening) l).2 =
    listening ∪ list_to_set (new_ports (remap_from ([], listening) l).1).
Proof.
  revert listening.
  induction l as [| [host_p cont_p] l IH]; intros listening; simpl.
  - set_solver.
  - case_bool_decide as Hin; [| apply IH].
    rewrite remap_from_prefix. simpl. rewrite IH.
    unfold new_ports. set_solver.
Qed.

Lemma resolve_state (l : list (Z * Z)) listening :
  remap_from ([], listening) l =
    (resolve l listening,
     listening ∪ list_to_set (new_ports (resolve l listening))).
Proof.
  unfold resolve. rewrite <- remap_from_listening.
  by destruct (remap_from _ _).
Qed.

Lemma remap_from_unprivileged (l : list (Z * Z)) remap listening :
  Forall (λ r, 1024 ≤ r.2) remap →
  Forall (λ r, 1024 ≤ r.2) (remap_from (remap, listening) l).1.
Proof.
  revert remap listening.
  induction l as [| [host_p cont_p] l IH]; intros remap listening Hall;
    simpl; [done |].
  case_bool_decide as Hin; [| by apply IH].
  apply IH. apply Forall_app. split; [done |].
  apply Forall_singleton. simpl.
  destruct (find_next_free_port_spec (host_p + 1) listening)
    as (_ & Hfree & _).
  unfold rejected in Hfree. lia.
Qed.

(** C2, as the code has it.  Take a declared loopback pair [(h, c)] whose
    host port is in the listening set, with the pairs [pre] declared before
    it and [post] after it.  One resolution pass produces the remaps of
    [pre], then exactly one remap [(h, c, n)] for the pair, then the remaps
    of [post]; and [n] is the smallest integer from [max (h + 1) 1024] on
    that is neither in the listening set nor a port handed out for [pre]:
    the scan starts at [h + 1] but never stops below 1024.  The pass is a
    function of the declared pairs and the listening set, so resolving twice
    gives the same remaps.  For the pair 8080:80 and the listening set
    {8080, 8081} the remap is (8080, 80, 8082). *)
Theorem resolve_remaps_to_next_free_port :
  (∀ (pre post : list (Z * Z)) (h c : Z) listening,
     h ∈ listening →
     ∃ n,
       resolve (pre ++ (h, c) :: post) listening =
         resolve pre listening
           ++ ((h, c, n)
               :: resolve post
                    ({[n]} ∪ (listening
                        ∪ list_to_set (new_ports (resolve pre listening)))))
       ∧ smallest_from (Z.max (h + 1) 1024)
           (λ q, (q ∉ listening) ∧ (q ∉ new_ports (resolve pre listening))) n)
  ∧ resolve [(8080, 80)] {[8080; 8081]} = [(8080, 80, 8082)].
Proof.
  split; [| by vm_compute].
  intros pre post h c listening Hin.
  set (before := resolve pre listening).
  set (taken := listening ∪ list_to_set (new_ports before)).
  exists (find_next_free_port (h + 1) taken). split.
  - unfold resolve at 1. rewrite remap_from_app, resolve_state. simpl.
    fold before taken. rewrite bool_decide_eq_true_2 by set_solver.
    rewrite remap_from_prefix. simpl. by rewrite <- app_assoc.
  - destruct (find_next_free_port_spec (h + 1) taken) as (Hle & Hfree & Hmin).
    unfold rejected in Hfree.
    split; [lia |]. split.
    + split; intros Hq; apply Hfree; left; subst taken; set_solver.
    + intros q Hq [HqL Hqn]. apply (Hmin q); [lia |].
      intros [Hqt | Hlow]; [| lia].
      subst taken. set_solver.
Qed.

Lemma resolve_remaps_to_next_free_port_witness :
  8080 ∈ ({[8080; 8081]} : gset Z)
  ∧ ∃ n,
      resolve ([] ++ (8080, 80) :: []) {[8080; 8081]} =
        resolve [] {[8080; 8081]}
          ++ ((8080, 80, n)
              :: resolve []
                   ({[n]} ∪ ({[8080; 8081]}
                       ∪ list_to_set
                           (new_ports (resolve [] {[8080; 8081]})))))
      ∧ smallest_from (Z.max (8080 + 1) 1024)
          (λ q, (q ∉ ({[8080; 8081]} : gset Z))
                ∧ (q ∉ new_ports (resolve [] {[8080; 8081]}))) n.
Proof.
  assert (Hin : 8080 ∈ ({[8080; 8081]} : gset Z)) by (vm_compute; tauto).
  split; [exact Hin |].
  exact (proj1 resolve_remaps_to_next_free_port [] [] 8080 80 _ Hin).
Defined.

(** C2 as the specification words it fails below port 1024: with the pair
    80:80 declared and only port 80 listening, the smallest free port from
    81 on is 81, and the resolver hands out 1024. *)
Lemma resolve_skips_free_privileged_port :
  resolve [(80, 80)] {[80]} = [(80, 80, 1024)]
  ∧ ¬ smallest_from (80 + 1)
        (λ q, (q ∉ ({[80]} : gset Z)) ∧ (q ∉ new_ports (resolve [] {[80]})))
        1024.
Proof.
  split; [by vm_compute |].
  intros (_ & _ & Hmin). apply (Hmin 81); [lia |].
  split; [set_solver | by intros ?%elem_of_nil].
Qed.

(** C9.  The scan never returns a port below 1024, wherever it starts and
    whatever is listening: ports below 1024 are stepped over even when
    they are free.  Hence every new host port of a resolution pass is at
    least 1024. *)
Theorem remapped_ports_are_unprivileged :
  (∀ start used, 1024 ≤ find_next_free_port start used)
  ∧ (∀ start used,
       find_next_free_port start used =
         find_next_free_port (Z.max start 1024) used)
  ∧ (∀ (declared : list (Z * Z)) listening,
       Forall (λ r, 1024 ≤ r.2) (resolve declared listening)).
Proof.
  assert (Hge : ∀ start used, 1024 ≤ find_next_free_port start used).
  { intros start used.
    destruct (find_next_free_port_spec start used) as (_ & Hfree & _).
    unfold rejected in Hfree. lia. }
  split; [exact Hge |]. split.
  - intros start used.
    apply (smallest_from_unique start (λ q, ¬ rejected used q));
      [apply find_next_free_port_spec |].
    destruct (find_next_free_port_spec (Z.max start 1024) used)
      as (Hle & Hfree & Hmin).
    split; [lia |]. split; [done |].
    intros q Hq Hfq. destruct (decide (q < 1024)) as [Hlow | Hhigh].
    + apply Hfq. by right.
    + apply (Hmin q); [lia | done].
  - intros declared listening. by apply remap_from_unprivileged.
Qed.

End PortFacts.

(** ** Command Runner *)

Section RunnerFacts.

Variable H : Host.

(** Lines 38-41 print one line, allocate one dict and leave every dict
    that existed before as it was; the environment handed to the child is
    the override merged onto the ambient one. *)
Lemma run_command_env_spec cmd eo w :
  is_Some (dicts w !! os_environ) →
  ∃ w1, run_command_env cmd eo w = (Ok (default ∅ eo ∪ environ w), w1)
    ∧ fs w1 = fs w ∧ spawned w1 = spawned w ∧ temps w1 = temps w
    ∧ out w1 = out w ++ ["Running: " +:+ join " " cmd]
    ∧ (∀ d, d ∈ dom (dicts w) → dicts w1 !! d = dicts w !! d).
Proof.
  intros Henv. unfold run_command_env, bind, print, dict_copy. simpl.
  set (d' := fresh (dom (dicts w))).
  assert (Hfresh : d' ∉ dom (dicts w)) by apply is_fresh.
  assert (Hne : ∀ d, d ∈ dom (dicts w) → d' ≠ d) by (intros d Hd ->; done).
  assert (Hcopy : default ∅ (<[d' := environ w]> (dicts w) !! d') = environ w)
    by (by rewrite lookup_insert_eq).
  destruct eo as [o |]; simpl; [case_bool_decide as Ho; simpl |].
  - subst o. eexists. split.
    + unfold ret, dict_read. simpl. fold (environ w). rewrite Hcopy.
      by rewrite (left_id_L ∅ (∪)).
    + repeat split; try done.
      intros d Hd. simpl. rewrite lookup_insert_ne; [done | by apply Hne].
  - eexists. split.
    + unfold dict_update, dict_read. simpl. fold (environ w).
      rewrite Hcopy, lookup_insert_eq. done.
    + repeat split; try done.
      intros d Hd. simpl. rewrite !lookup_insert_ne; [done | by apply Hne ..].
  - eexists. split.
    + unfold ret, dict_read. simpl. fold (environ w). rewrite Hcopy.
      by rewrite (left_id_L ∅ (∪)).
    + repeat split; try done.
      intros d Hd. simpl. rewrite lookup_insert_ne; [done | by apply Hne].
Qed.

(** Whatever the child does, [run_command] starts exactly one child and
    touches no dict that existed before the call. *)
Lemma run_command_spawns_once cmd cwd eo ie timeout w :
  is_Some (dicts w !! os_environ) →
  let sp := {| sp_cmd := cmd; sp_cwd := cwd;
               sp_env := default ∅ eo ∪ environ w; sp_timeout := timeout |} in
  let w' := (run_command H cmd cwd eo ie timeout w).2 in
  spawned w' = spawned w ++ [sp]
  ∧ temps w' = temps w
  ∧ (∀ d, d ∈ dom (dicts w) → dicts w' !! d = dicts w !! d).
Proof.
  intros Henv sp.
  destruct (run_command_env_spec cmd eo w Henv)
    as (w1 & Hprel & Hfs & Hsp & Htmp & Hout & Hd).
  destruct (run_command H cmd cwd eo ie timeout w) as [r w'] eqn:Erun.
  unfold run_command, bind in Erun. rewrite Hprel in Erun.
  unfold try_except, subprocess_run, spawn, bind in Erun. fold sp in Erun.
  rewrite <- Hsp, <- Htmp.
  assert (Hd' : ∀ w2, dicts w2 = dicts w1 →
            ∀ d, d ∈ dom (dicts w) → dicts w2 !! d = dicts w !! d)
    by (intros w2 -> d; apply Hd).
  destruct (exec H w1 sp) as [b files].
  destruct b as [rc so se | | text | text], ie; simpl in Erun;
    repeat (match type of Erun with
            | context [negb (?rc =? 0)] => destruct (rc =? 0); simpl in Erun
            | context [nonempty ?s] => destruct (nonempty s); simpl in Erun
            end);
    unfold when, print, raise, ret in Erun; simpl in Erun;
    injection Erun as _ <-; simpl; (split; [done |]); (split; [done |]);
    by apply Hd'.
Qed.

(** C8.  In a world where [os.environ] exists, whatever the command, the
    overrides, the flags and the behaviour of the child: the call starts
    one child, whose environment is the overrides merged onto the ambient
    environment; the ambient environment after the call is the one before
    it, and so is every other dict that existed before the call. *)
Theorem run_command_keeps_ambient_environment cmd cwd eo ie timeout w :
  is_Some (dicts w !! os_environ) →
  let w' := (run_command H cmd cwd eo ie timeout w).2 in
  environ w' = environ w
  ∧ (∀ d, d ∈ dom (dicts w) → dicts w' !! d = dicts w !! d)
  ∧ spawned w' =
      spawned w ++ [{| sp_cmd := cmd; sp_cwd := cwd;
                       sp_env := default ∅ eo ∪ environ w;
                       sp_timeout := timeout |}].
Proof.
  intros Henv w'.
  destruct (run_command_spawns_once cmd cwd eo ie timeout w Henv)
    as (Hsp & _ & Hd).
  split; [| by split].
  unfold environ. fold w' in Hd. rewrite Hd; [done |].
  by apply elem_of_dom.
Qed.

(** Lines 38-41 print the command line and nothing else. *)
Lemma run_command_env_out cmd eo w env w1 :
  run_command_env cmd eo w = (Ok env, w1) →
  out w1 = out w ++ ["Running: " +:+ join " " cmd].
Proof.
  unfold run_command_env, bind, print, dict_copy, dict_read. simpl.
  destruct eo as [o |]; simpl; [case_bool_decide; simpl |];
    by intros [= _ <-].
Qed.

(** C3, as the code has it.  Let the child of [run_command] exceed its
    timeout.  With [ignore_errors] the call does not raise and returns
    [None]: there is no result object.  Without it the call raises
    [CommandExecutionError] with exit code -1, empty stdout and stderr
    ["Timeout"].  Either way the call has printed two lines by then, the
    command line and the timeout error. *)
Theorem run_command_timeout cmd cwd eo timeout w env w1 :
  run_command_env cmd eo w = (Ok env, w1) →
  (exec H w1 {| sp_cmd := cmd; sp_cwd := cwd; sp_env := env;
                sp_timeout := timeout |}).1 = TimedOut →
  let error_msg := "Command timed out after " +:+ timeout_text timeout
                     +:+ " seconds: " +:+ join " " cmd in
  (run_command H cmd cwd eo true timeout w).1 = Ok None
  ∧ (run_command H cmd cwd eo false timeout w).1 =
      Raise (CommandExecutionError error_msg cmd (-1) "" "Timeout")
  ∧ ∀ ignore_errors,
      out (run_command H cmd cwd eo ignore_errors timeout w).2 =
        out w ++ ["Running: " +:+ join " " cmd; "ERROR: " +:+ error_msg].
Proof.
  intros Hprel Hexec error_msg.
  pose proof (run_command_env_out cmd eo w env w1 Hprel) as Hout.
  unfold run_command, bind. rewrite Hprel.
  unfold try_except, subprocess_run, spawn, bind.
  destruct (exec H w1 _) as [b files]. simpl in Hexec. subst b.
  split; [done |]. split; [done |].
  intros []; simpl; by rewrite Hout, <- app_assoc.
Qed.

End RunnerFacts.

Lemma run_command_keeps_ambient_environment_witness :
  let H := sample_host all_succeed nobody_answers ∅ in
  let w := sample_world ∅ in
  let eo := Some {[ "DOCKER_SOCKET_LOCATION" := "/var/run/docker.sock" ]} in
  is_Some (dicts w !! os_environ)
  ∧ environ (run_command H ["docker"; "ps"] None eo false None w).2
    = environ w.
Proof.
  intros H w eo.
  assert (Henv : is_Some (dicts w !! os_environ)) by (by eexists).
  split; [exact Henv |].
  exact (proj1 (run_command_keeps_ambient_environment H ["docker"; "ps"]
                  None eo false None w Henv)).
Defined.

Lemma run_command_timeout_witness :
  let H := sample_host all_time_out nobody_answers ∅ in
  let w := sample_world ∅ in
  let error_msg := "Command timed out after " +:+ timeout_text (Some 1)
                     +:+ " seconds: " +:+ join " " ["sleep"; "5"] in
  (run_command H ["sleep"; "5"] None None true (Some 1) w).1 = Ok None
  ∧ (run_command H ["sleep"; "5"] None None false (Some 1) w).1 =
      Raise (CommandExecutionError error_msg ["sleep"; "5"] (-1) ""
               "Timeout")
  ∧ ∀ ignore_errors,
      out (run_command H ["sleep"; "5"] None None ignore_errors (Some 1)
             w).2 =
        out w ++ ["Running: " +:+ join " " ["sleep"; "5"];
                  "ERROR: " +:+ error_msg].
Proof.
  intros H w.
  apply (run_command_timeout H ["sleep"; "5"] None None (Some 1) w
           {[ "PATH" := "/usr/bin" ]}
           (run_command_env ["sleep"; "5"] None w).2).
  - by vm_compute.
  - reflexivity.
Defined.

(** C3 as the specification words it fails: with [ignore_errors] a
    timed-out command gives [None], not a result whose exit code is -1 and
    whose stderr is ["Timeout"]. *)
Lemma run_command_timeout_has_no_result :
  let H := sample_host all_time_out nobody_answers ∅ in
  let r := (run_command H ["sleep"; "5"] None None true (Some 1)
              (sample_world ∅)).1 in
  r = Ok None
  ∧ ¬ ∃ p, r = Ok (Some p) ∧ returncode p = -1 ∧ stderr p = "Timeout".
Proof.
  intros H r.
  assert (Hr : r = Ok None) by (by vm_compute).
  split; [exact Hr |].
  intros (p & Hp & _). rewrite Hr in Hp. discriminate.
Qed.

(** ** Environment Materializer: the reader *)

Section StringFacts.
Implicit Types (s t : string) (c : ascii).

Lemma str_app_cons c s t : String c s +:+ t = String c (s +:+ t).
Proof. reflexivity. Qed.

Lemma str_app_nil_l s : "" +:+ s = s.
Proof. reflexivity. Qed.

Lemma str_app_nil_r s : s +:+ "" = s.
Proof. induction s as [| c s IH]; [done |]. by rewrite str_app_cons, IH. Qed.

Lemma str_app_assoc s t u : (s +:+ t) +:+ u = s +:+ (t +:+ u).
Proof. induction s as [| c s IH]; [done |]. by rewrite !str_app_cons, IH. Qed.

Lemma contains_char_app c s t :
  contains_char c (s +:+ t) = contains_char c s || contains_char c t.
Proof.
  induction s as [| a s IH]; [done |].
  rewrite str_app_cons. simpl. rewrite IH. by rewrite orb_assoc.
Qed.

Lemma contains_char_lstrip c s :
  contains_char c (lstrip s) = true → contains_char c s = true.
Proof.
  induction s as [| a s IH]; simpl; [done |].
  destruct (isspace a); simpl; [| done].
  intros Hc. rewrite IH by done. apply orb_true_r.
Qed.

Lemma contains_char_rstrip c s :
  contains_char c (rstrip s) = true → contains_char c s = true.
Proof.
  induction s as [| a s IH]; simpl; [done |].
  destruct (rstrip s) as [| b r] eqn:Hr.
  - destruct (isspace a); simpl; [done |].
    rewrite orb_false_r. intros ->. done.
  - simpl. intros [-> | Hc]%orb_true_iff; [done |].
    rewrite IH; [apply orb_true_r | done].
Qed.

Lemma contains_char_strip c s :
  contains_char c (strip s) = true → contains_char c s = true.
Proof. intros Hc. by apply contains_char_lstrip, contains_char_rstrip. Qed.

Lemma lstrip_id s : first_is_space s = false → lstrip s = s.
Proof. destruct s as [| c s]; simpl; [done |]. by intros ->. Qed.

Lemma rstrip_id s : last_is_space s = false → rstrip s = s.
Proof.
  induction s as [| c s IH]; [done |]. simpl.
  destruct s as [| b s].
  - simpl. by intros ->.
  - intros Hl. by rewrite IH.
Qed.

Lemma rstrip_app_space s c :
  isspace c = true → rstrip (s +:+ String c "") = rstrip s.
Proof.
  intros Hc. induction s as [| a s IH].
  - rewrite str_app_nil_l. simpl. by rewrite Hc.
  - rewrite str_app_cons. simpl. by rewrite IH.
Qed.

Lemma last_is_space_app s c t :
  last_is_space (s +:+ String c t) = last_is_space (String c t).
Proof.
  induction s as [| a s IH]; [done |].
  rewrite str_app_cons. cbn [last_is_space]. rewrite IH.
  destruct s; reflexivity.
Qed.

Lemma split1_app c s t :
  contains_char c s = false → split1 c (s +:+ String c t) = [s; t].
Proof.
  induction s as [| a s IH]; intros Hc.
  - rewrite str_app_nil_l. simpl. by rewrite bool_decide_eq_true_2.
  - simpl in Hc. apply orb_false_iff in Hc as [Ha Hs].
    rewrite str_app_cons. simpl. rewrite Ha. by rewrite IH.
Qed.

Lemma split1_contains c s :
  contains_char c s = true → ∃ k v, split1 c s = [k; v] ∧ s = k +:+ String c v
    ∧ contains_char c k = false.
Proof.
  induction s as [| a s IH]; simpl; [done |].
  destruct (bool_decide (a = c)) eqn:Ha; simpl.
  - intros _. apply bool_decide_eq_true_1 in Ha as ->. by exists "", s.
  - intros (k & v & -> & -> & Hk)%IH. exists (String a k), v.
    split; [done |]. split; [done |]. simpl. by rewrite Ha, Hk.
Qed.

Lemma text_lines_line s rest :
  has_line_break s = false →
  text_lines (s +:+ String LF rest) = (s +:+ String LF "") :: text_lines rest.
Proof.
  induction s as [| a s IH]; intros Hb.
  - reflexivity.
  - unfold has_line_break in *. simpl in Hb.
    apply orb_false_iff in Hb as [[HaL HsL]%orb_false_iff [HaC HsC]%orb_false_iff].
    rewrite !str_app_cons. cbn [text_lines]. rewrite HaL, HaC.
    rewrite IH; [done |]. by rewrite HsL, HsC.
Qed.

End StringFacts.

Section EnvFacts.
Implicit Types (s t k v line : string) (vals m : gmap string string).

Lemma read_env_line_entry vals line :
  read_env_line vals line =
    match env_entry line with
    | Some (k, v) => <[k := v]> vals
    | None => vals
    end.
Proof.
  unfold read_env_line, env_entry.
  destruct (negb _ || _ || _); [done |].
  by destruct (split1 _ _) as [| k [| v [| ? ?]]].
Qed.

Lemma env_entry_render k v :
  key_ok k → value_ok v → env_entry (render_line (k, v)) = Some (k, v).
Proof.
  unfold key_ok, value_ok, has_line_break.
  intros Hk Hv.
  apply andb_True in Hk as [Hk Hkhash]. apply andb_True in Hk as [Hk Hksp].
  apply andb_True in Hk as [Hkeq _]. apply andb_True in Hv as [_ Hvsp].
  apply negb_True, Is_true_false in Hksp.
  apply negb_True, Is_true_false in Hkhash.
  apply negb_True, Is_true_false in Hvsp.
  apply negb_True, Is_true_false in Hkeq.
  unfold env_entry, render_line, strip. simpl fst. simpl snd.
  assert (Hline : rstrip (lstrip (k +:+ "=" +:+ v +:+ String LF ""))
                  = k +:+ String "=" v).
  { rewrite lstrip_id by (by destruct k).
    replace (k +:+ "=" +:+ v +:+ String LF "")
      with ((k +:+ String "=" v) +:+ String LF "")
      by (by rewrite !str_app_assoc).
    rewrite rstrip_app_space by done.
    apply rstrip_id. rewrite last_is_space_app.
    by destruct v. }
  rewrite Hline.
  assert (Hne : nonempty (k +:+ String "=" v) = true) by (by destruct k).
  assert (Hhash : startswith_char "#" (k +:+ String "=" v) = false)
    by (by destruct k).
  assert (Hin : contains_char "=" (k +:+ String "=" v) = true).
  { rewrite contains_char_app. simpl. apply orb_true_r. }
  rewrite Hne, Hhash, Hin. simpl.
  by rewrite split1_app.
Qed.


Lemma text_lines_render (kvs : list (string * string)) :
  Forall entry_ok kvs → text_lines (render_env kvs) = render_line <$> kvs.
Proof.
  induction 1 as [| [k v] kvs [Hk Hv] _ IH]; [done |].
  simpl in Hk, Hv. cbn [render_env fmap list_fmap].
  unfold render_line at 1. simpl fst. simpl snd.
  replace ((k +:+ "=" +:+ v +:+ String LF "") +:+ render_env kvs)
    with ((k +:+ String "=" v) +:+ String LF (render_env kvs))
    by (by rewrite !str_app_assoc).
  rewrite text_lines_line, IH.
  - unfold render_line. simpl. by rewrite !str_app_assoc.
  - unfold key_ok, value_ok in Hk, Hv.
    apply andb_True in Hk as [Hk _]. apply andb_True in Hk as [Hk _].
    apply andb_True in Hk as [_ Hkb]. apply andb_True in Hv as [Hvb _].
    apply negb_True, Is_true_false in Hkb.
    apply negb_True, Is_true_false in Hvb.
    unfold has_line_break in *. rewrite !contains_char_app. simpl.
    apply orb_false_iff in Hkb as [-> ->].
    apply orb_false_iff in Hvb as [-> ->]. done.
Qed.

Lemma read_env_text_render (kvs : list (string * string)) :
  Forall entry_ok kvs →
  read_env_text (render_env kvs) =
    foldl (λ m (kv : string * string), <[kv.1 := kv.2]> m) ∅ kvs.
Proof.
  intros Hok. unfold read_env_text. rewrite text_lines_render by done.
  generalize (∅ : gmap string string).
  induction Hok as [| [k v] kvs [Hk Hv] _ IH]; intros vals; [done |].
  cbn [fmap list_fmap foldl]. rewrite IH. f_equal.
  by rewrite read_env_line_entry, env_entry_render.
Qed.

Lemma foldl_insert_list_to_map (kvs : list (string * string)) :
  foldl (λ (m : gmap string string) (kv : string * string),
           <[kv.1 := kv.2]> m) ∅ kvs
  = list_to_map (reverse kvs).
Proof.
  rewrite <- (reverse_involutive kvs) at 1.
  generalize (reverse kvs) as l. intros l.
  induction l as [| [k v] l IH]; [done |].
  rewrite reverse_cons, foldl_app. simpl. by rewrite IH.
Qed.



(** C4, as the code has it.  The reader strips every line before it looks
    at it.  A line whose stripped text is not empty, does not start with
    ['#'] and contains ['='] sets the key to everything before the first
    ['='] of the stripped text and the value to everything after it, so an
    ['='] inside the value and whitespace right after the first ['='] are
    kept, while whitespace at the end of the line is lost.  A set of pairs
    written in the KEY=VALUE format is read back unchanged when no key
    contains ['='] or a line break or starts with whitespace or ['#'], and
    no value contains a line break or ends with whitespace. *)
Theorem read_env_round_trip :
  (∀ vals line,
     nonempty (strip line) = true →
     startswith_char "#" (strip line) = false →
     contains_char "=" (strip line) = true →
     ∃ k v, strip line = k +:+ String "=" v
            ∧ contains_char "=" k = false
            ∧ read_env_line vals line = <[k := v]> vals)
  ∧ (∀ (m : gmap string string) path w,
       map_Forall (λ k v, key_ok k ∧ value_ok v) m →
       fs w !! path = Some (render_env (map_to_list m)) →
       read_env path w = (Ok m, w)).
Proof.
  split.
  - intros vals line Hne Hhash Heq.
    destruct (split1_contains _ _ Heq) as (k & v & Hsplit & Hline & Hk).
    exists k, v. split; [done |]. split; [done |].
    unfold read_env_line. by rewrite Hne, Hhash, Heq, Hsplit.
  - intros m path w Hm Hfile. unfold read_env. rewrite Hfile.
    do 2 f_equal. rewrite read_env_text_render.
    + rewrite foldl_insert_list_to_map.
      rewrite <- (list_to_map_to_list m) at 2.
      apply list_to_map_proper.
      * rewrite fmap_reverse, reverse_Permutation.
        apply NoDup_fst_map_to_list.
      * apply reverse_Permutation.
    + apply Forall_forall. intros [k v] Hkv%elem_of_map_to_list.
      apply (Hm k v Hkv).
Qed.

Lemma read_env_round_trip_witness :
  let m : gmap string string := {[ "URL" := " a=b" ]} in
  let w := sample_world {[ "/srv/localai/.env" := render_env (map_to_list m) ]} in
  map_Forall (λ k v, key_ok k ∧ value_ok v) m
  ∧ fs w !! "/srv/localai/.env" = Some (render_env (map_to_list m))
  ∧ read_env "/srv/localai/.env" w = (Ok m, w).
Proof.
  intros m w.
  assert (Hm : map_Forall (λ k v, key_ok k ∧ value_ok v) m).
  { apply map_Forall_singleton. by vm_compute. }
  assert (Hfile : fs w !! "/srv/localai/.env"
                  = Some (render_env (map_to_list m))) by reflexivity.
  split; [exact Hm |]. split; [exact Hfile |].
  exact (proj2 read_env_round_trip m "/srv/localai/.env" w Hm Hfile).
Defined.

(** C4 as the specification words it fails at the end of a value: the
    file written for the pair [K], ["v "] is read back with the value
    ["v"]. *)
Lemma read_env_loses_trailing_whitespace :
  let m : gmap string string := {[ "K" := "v " ]} in
  let w := sample_world {[ "/srv/localai/.env" := render_env (map_to_list m) ]} in
  render_env (map_to_list m) = "K=v " +:+ String LF ""
  ∧ read_env "/srv/localai/.env" w = (Ok {[ "K" := "v" ]}, w)
  ∧ read_env "/srv/localai/.env" w ≠ (Ok m, w).
Proof.
  intros m w.
  assert (Hr : read_env "/srv/localai/.env" w = (Ok {[ "K" := "v" ]}, w))
    by (by vm_compute).
  split; [by vm_compute |]. split; [exact Hr |].
  rewrite Hr. intros Heq.
  pose proof (f_equal (λ p : Result (gmap string string) * World,
                         match p.1 with
                         | Ok vals => vals !! "K"
                         | Raise _ => None
                         end) Heq) as Hk.
  vm_compute in Hk. discriminate.
Qed.



End EnvFacts.

(** ** Environment Materializer: the copy *)

Section MaterializerFacts.

Variable H : Host.

Lemma root_env_ne_supabase_env : root_env H ≠ supabase_env H.
Proof.
  unfold root_env, supabase_env, path_join.
  intros Heq. apply (inj (String.app _)) in Heq. discriminate.
Qed.

Lemma regenerate_root_env_complete w text :
  fs w !! root_env H = Some text →
  missing_keys (read_env_text text) = [] →
  regenerate_root_env H w = (Ok tt, w).
Proof.
  intros Hroot Hmiss.
  unfold regenerate_root_env, bind, path_exists, read_env.
  rewrite Hroot. rewrite bool_decide_eq_true_2 by (by eexists).
  cbn -[missing_keys read_env_text]. rewrite Hroot.
  cbn -[missing_keys read_env_text]. by rewrite Hmiss.
Qed.

Lemma copy_root_env_spec w :
  ∃ w', copy_root_env H w = (Ok tt, w')
    ∧ dicts w' = dicts w ∧ spawned w' = spawned w ∧ temps w' = temps w
    ∧ match fs w !! root_env H with
      | Some text =>
          fs w' = <[supabase_env H := text]> (fs w)
          ∧ out w' = out w ++ ["Copying .env in root to .env in supabase/docker..."]
      | None => w' = w
      end.
Proof.
  unfold copy_root_env, bind, get_world. simpl.
  destruct (fs w !! root_env H) as [text |] eqn:Hroot.
  - eexists. split; [reflexivity |]. done.
  - exists w. split; [reflexivity |]. done.
Qed.

(** C5.  Let the root file exist with every required key present and not
    empty.  Then [prepare_supabase_env] returns without starting any
    process, the file system afterwards is the one before with the text of
    the root file at the shadow path, whatever was there, and a second
    invocation returns too and leaves the file system as the first one
    left it.  But the copy does not happen on every invocation in which a
    root file exists: with a root file that lacks required keys and a
    primary generator that fails, the [CommandExecutionError] of
    [run_command] passes the handler of line 234, which waits for
    [CalledProcessError], the invocation raises at line 232, and the
    shadow file keeps its old text. *)
Theorem prepare_supabase_env_copies :
  (∀ w text,
     fs w !! root_env H = Some text →
     missing_keys (read_env_text text) = [] →
     let w' := (prepare_supabase_env H w).2 in
     (prepare_supabase_env H w).1 = Ok tt
     ∧ spawned w' = spawned w
     ∧ fs w' = <[supabase_env H := text]> (fs w)
     ∧ (prepare_supabase_env H w').1 = Ok tt
     ∧ fs (prepare_supabase_env H w').2 = fs w')
  ∧ (let H0 := sample_host generator_fails nobody_answers ∅ in
     let w0 := sample_world stale_shadow_files in
     let r := prepare_supabase_env H0 w0 in
     fs w0 !! root_env H0 = Some incomplete_env
     ∧ r.1 = Raise (CommandExecutionError
                      "Unexpected error running command: error"
                      [sys_executable H0; gen_script H0] (-1) "" "error")
     ∧ sp_cmd <$> spawned r.2 = [[sys_executable H0; gen_script H0]]
     ∧ fs r.2 !! root_env H0 = Some incomplete_env
     ∧ fs r.2 !! supabase_env H0 = Some "OLD=1").
Proof.
  assert (Hrun : ∀ w text,
            fs w !! root_env H = Some text →
            missing_keys (read_env_text text) = [] →
            ∃ w', prepare_supabase_env H w = (Ok tt, w')
                  ∧ spawned w' = spawned w
                  ∧ fs w' = <[supabase_env H := text]> (fs w)).
  { intros w text Hroot Hmiss.
    destruct (copy_root_env_spec w) as (w' & Hcopy & _ & Hsp & _ & Hfs).
    rewrite Hroot in Hfs. destruct Hfs as [Hfs _].
    exists w'. split; [| done].
    unfold prepare_supabase_env, bind.
    by rewrite (regenerate_root_env_complete w text). }
  split.
  - intros w text Hroot Hmiss.
    destruct (Hrun w text Hroot Hmiss) as (w' & Hprep & Hsp & Hfs).
    rewrite Hprep. simpl.
    assert (Hroot' : fs w' !! root_env H = Some text).
    { rewrite Hfs, lookup_insert_ne; [done |].
      intros Heq. by apply root_env_ne_supabase_env. }
    destruct (Hrun w' text Hroot' Hmiss) as (w'' & Hprep' & _ & Hfs').
    rewrite Hprep'. simpl.
    repeat split; try done.
    rewrite Hfs', Hfs. apply insert_insert_eq.
  - by vm_compute.
Qed.

End MaterializerFacts.

Lemma prepare_supabase_env_copies_witness :
  let H := sample_host all_succeed nobody_answers ∅ in
  let w := sample_world {[ "/srv/localai/.env" := complete_env;
                           "/srv/localai/supabase/docker/.env" := "OLD=1" ]} in
  fs w !! root_env H = Some complete_env
  ∧ missing_keys (read_env_text complete_env) = []
  ∧ (prepare_supabase_env H w).1 = Ok tt
  ∧ spawned (prepare_supabase_env H w).2 = spawned w
  ∧ fs (prepare_supabase_env H w).2 =
      <[supabase_env H := complete_env]> (fs w).
Proof.
  intros H w.
  assert (Hroot : fs w !! root_env H = Some complete_env) by reflexivity.
  assert (Hmiss : missing_keys (read_env_text complete_env) = [])
    by (by vm_compute).
  split; [exact Hroot |]. split; [exact Hmiss |].
  destruct (proj1 (prepare_supabase_env_copies H) w complete_env Hroot Hmiss)
    as (Hok & Hsp & Hfs & _).
  by repeat split.
Defined.

(** ** Stack Launcher: the override file *)

Section Frame.
Context {A B : Type}.

Lemma keeps_temps_ret (a : A) : keeps_temps (ret a).
Proof. by intros w. Qed.

Lemma keeps_temps_raise e : keeps_temps (@raise A e).
Proof. by intros w. Qed.

Lemma keeps_temps_bind (m : M A) (k : A → M B) :
  keeps_temps m → (∀ a, keeps_temps (k a)) → keeps_temps (bind m k).
Proof.
  intros Hm Hk w. unfold bind. specialize (Hm w).
  destruct (m w) as [[a | e] w1]; simpl in *; [| done].
  by rewrite Hk.
Qed.

Lemma keeps_temps_try_except (m : M A) handler :
  keeps_temps m →
  (∀ e h, handler e = Some h → keeps_temps h) →
  keeps_temps (try_except m handler).
Proof.
  intros Hm Hh w. unfold try_except. specialize (Hm w).
  destruct (m w) as [[a | e] w1]; simpl in *; [done |].
  destruct (handler e) as [h |] eqn:He; [| done].
  by rewrite (Hh e h He).
Qed.

Lemma keeps_temps_try_finally (m : M A) fin :
  keeps_temps m → keeps_temps fin → keeps_temps (try_finally m fin).
Proof.
  intros Hm Hf w. unfold try_finally. specialize (Hm w).
  destruct (m w) as [r w1]. specialize (Hf w1).
  destruct (fin w1) as [[[] | e] w2]; simpl in *; congruence.
Qed.

End Frame.

Lemma keeps_temps_when b m : keeps_temps m → keeps_temps (when b m).
Proof. intros Hm. destruct b; [done | apply keeps_temps_ret]. Qed.

Lemma keeps_temps_print line : keeps_temps (print line).
Proof. by intros w. Qed.

Lemma keeps_temps_print_all lines : keeps_temps (print_all lines).
Proof.
  induction lines as [| l lines IH]; [apply keeps_temps_ret |].
  apply keeps_temps_bind; [apply keeps_temps_print | done].
Qed.

Lemma keeps_temps_get_world : keeps_temps get_world.
Proof. by intros w. Qed.

Lemma keeps_temps_path_exists p : keeps_temps (path_exists p).
Proof. by intros w. Qed.

Lemma keeps_temps_write_file p text : keeps_temps (write_file p text).
Proof. by intros w. Qed.

Lemma keeps_temps_remove_file p : keeps_temps (remove_file p).
Proof. by intros w. Qed.

Lemma keeps_temps_dict_copy d : keeps_temps (dict_copy d).
Proof. by intros w. Qed.

Lemma keeps_temps_dict_update d o : keeps_temps (dict_update d o).
Proof. by intros w. Qed.

Lemma keeps_temps_dict_read d : keeps_temps (dict_read d).
Proof. by intros w. Qed.

Lemma keeps_temps_environ_get k d : keeps_temps (environ_get k d).
Proof. by intros w. Qed.

Lemma keeps_temps_read_env p : keeps_temps (read_env p).
Proof. intros w. unfold read_env. by destruct (fs w !! p). Qed.

Lemma keeps_temps_parse p : keeps_temps (parse_private_override_ports p).
Proof. intros w. unfold parse_private_override_ports. by destruct (fs w !! p). Qed.

Create HintDb frame.
#[local] Hint Resolve keeps_temps_ret keeps_temps_raise keeps_temps_when
  keeps_temps_print keeps_temps_print_all keeps_temps_get_world
  keeps_temps_path_exists keeps_temps_write_file keeps_temps_remove_file
  keeps_temps_dict_copy keeps_temps_dict_update keeps_temps_dict_read
  keeps_temps_environ_get keeps_temps_read_env keeps_temps_parse : frame.

Ltac frame :=
  repeat first
    [ progress auto with frame
    | apply keeps_temps_bind; [| intros ?]
    | apply keeps_temps_try_finally
    | apply keeps_temps_try_except; [| intros ? ? ?]
    | match goal with
      | |- keeps_temps (match ?x with _ => _ end) => destruct x
      | |- keeps_temps (if ?b then _ else _) => destruct b
      | Heq : match ?e with _ => _ end = Some _ |- _ =>
          destruct e; try discriminate Heq;
          injection Heq as <-
      | Heq : Some _ = Some _ |- _ => injection Heq as <-
      end ].

Section LauncherFacts.
Variable H : Host.

Lemma keeps_temps_spawn sp : keeps_temps (spawn H sp).
Proof. intros w. unfold spawn. by destruct (exec H w sp). Qed.
Hint Resolve keeps_temps_spawn : frame.

Lemma keeps_temps_subprocess_run cmd cwd check env timeout :
  keeps_temps (subprocess_run H cmd cwd check env timeout).
Proof. unfold subprocess_run. frame. Qed.
Hint Resolve keeps_temps_subprocess_run : frame.

Lemma keeps_temps_run_command cmd cwd eo ie timeout :
  keeps_temps (run_command H cmd cwd eo ie timeout).
Proof. unfold run_command, run_command_env. frame. Qed.
Hint Resolve keeps_temps_run_command : frame.

Lemma keeps_temps_ensure_local_images : keeps_temps (ensure_local_images H).
Proof. unfold ensure_local_images, except_CalledProcessError. frame. Qed.


Lemma run_command_env_total cmd eo w :
  ∃ env w1, run_command_env cmd eo w = (Ok env, w1)
    ∧ fs w1 = fs w ∧ spawned w1 = spawned w.
Proof.
  unfold run_command_env, bind, print, dict_copy, dict_read. simpl.
  destruct eo as [o |]; simpl; [case_bool_decide; simpl |]; by eexists _, _.
Qed.

(** [run_command] starts one child with the given command line, and what
    it raises is a [CommandExecutionError]. *)
Lemma run_command_outcome cmd cwd eo ie timeout w :
  ∃ env,
    spawned (run_command H cmd cwd eo ie timeout w).2 =
      spawned w ++ [{| sp_cmd := cmd; sp_cwd := cwd; sp_env := env;
                       sp_timeout := timeout |}]
    ∧ match (run_command H cmd cwd eo ie timeout w).1 with
      | Ok _ => True
      | Raise e => ∃ msg so se, e = CommandExecutionError msg cmd (-1) so se
      end.
Proof.
  destruct (run_command_env_total cmd eo w) as (env & w1 & Hprel & _ & Hsp).
  exists env.
  destruct (run_command H cmd cwd eo ie timeout w) as [r w'] eqn:Erun.
  unfold run_command, bind in Erun. rewrite Hprel in Erun.
  unfold try_except, subprocess_run, spawn, bind in Erun.
  rewrite <- Hsp.
  destruct (exec H w1 _) as [b files].
  destruct b as [rc so se | | text | text], ie; simpl in Erun;
    repeat (match type of Erun with
            | context [negb (?rc =? 0)] => destruct (rc =? 0); simpl in Erun
            | context [nonempty ?s] => destruct (nonempty s); simpl in Erun
            end);
    unfold when, print, raise, ret in Erun; simpl in Erun;
    injection Erun as <- <-; simpl; (split; [done |]); eauto.
Qed.

Lemma nonempty_mkstemp_name w : nonempty (mkstemp_name H w) = true.
Proof. unfold mkstemp_name. by destruct (gettempdir H). Qed.

Lemma print_all_spec lines w :
  ∃ w', print_all lines w = (Ok tt, w')
    ∧ fs w' = fs w ∧ temps w' = temps w ∧ spawned w' = spawned w.
Proof.
  revert w. induction lines as [| l lines IH]; intros w; [by exists w |].
  simpl. unfold bind, print. simpl.
  destruct (IH {| fs := fs w; dicts := dicts w; out := out w ++ [l];
                  spawned := spawned w; temps := temps w |})
    as (w' & -> & ? & ? & ?).
  by exists w'.
Qed.

Lemma write_override_spec remap w :
  ∃ tp w1, write_override H remap w = (Ok tp, w1)
    ∧ spawned w1 = spawned w
    ∧ if nonnil remap then
        tp = Some (mkstemp_name H w)
        ∧ temps w1 = temps w ++ [mkstemp_name H w]
        ∧ fs w1 = <[mkstemp_name H w :=
                      overlay_text
                        (group_by_service (scan_compose H w) remap)]> (fs w)
      else tp = None ∧ w1 = w.
Proof.
  unfold write_override. destruct (nonnil remap); [| by exists None, w].
  unfold bind, get_world, mkstemp, write_file, set_fs, print. simpl.
  eexists _, _. split; [reflexivity |]. simpl.
  split; [done |]. split; [done |]. split; [done |].
  apply insert_insert_eq.
Qed.

Lemma compose_up_cmd_plain profile environment :
  compose_up_cmd profile environment None =
    compose_base_cmd profile environment ++ ["up"; "-d"].
Proof.
  unfold compose_up_cmd, compose_base_cmd.
  change (truthy None) with false. cbv iota.
  by rewrite app_nil_l, !app_assoc.
Qed.

Lemma compose_up_cmd_override profile environment w :
  compose_up_cmd profile environment (Some (mkstemp_name H w)) =
    compose_base_cmd profile environment
      ++ ["-f"; mkstemp_name H w; "up"; "-d"].
Proof.
  unfold compose_up_cmd, compose_base_cmd.
  change (truthy (Some (mkstemp_name H w)))
    with (nonempty (mkstemp_name H w)).
  rewrite nonempty_mkstemp_name. cbv iota.
  change (default "" (Some (mkstemp_name H w))) with (mkstemp_name H w).
  change ["-f"; mkstemp_name H w; "up"; "-d"]
    with (["-f"; mkstemp_name H w] ++ ["up"; "-d"]).
  by rewrite !app_assoc.
Qed.

Lemma keeps_temps_check_output cmd : keeps_temps (check_output H cmd).
Proof. unfold check_output. frame. Qed.
Hint Resolve keeps_temps_check_output : frame.

Lemma keeps_temps_get_listening_ports : keeps_temps (get_listening_ports H).
Proof. unfold get_listening_ports, except_Exception. frame. Qed.

Lemma keeps_temps_override_plan : keeps_temps (override_plan H).
Proof.
  unfold override_plan.
  apply keeps_temps_bind; [apply keeps_temps_print | intros _].
  apply keeps_temps_bind; [apply keeps_temps_ensure_local_images | intros _].
  apply keeps_temps_bind; [apply keeps_temps_parse | intros parsed].
  apply keeps_temps_bind; [apply keeps_temps_get_listening_ports | intros l].
  apply keeps_temps_bind; [apply keeps_temps_print_all | intros _].
  apply keeps_temps_ret.
Qed.

(** [start_local_ai] is the plan, then the override file, then the start
    command. *)
Lemma start_local_ai_plan profile environment w :
  start_local_ai H profile environment w =
    (let* remap := override_plan H in
     let* temp_override_path := write_override H remap in
     compose_up H profile environment temp_override_path) w.
Proof.
  unfold start_local_ai, override_plan, bind. simpl.
  destruct (ensure_local_images H _) as [[[] | e] w1]; [| done].
  destruct (parse_private_override_ports _ w1) as [[parsed | e] w2];
    [| done].
  destruct (get_listening_ports H w2) as [[l | e] w3]; [| done].
  by destruct (print_all _ w3) as [[[] | e] w4].
Qed.

(** The child of [run_command] without [ignore_errors]: the world it runs
    in has the files of the world of the call, the files it leaves are
    the files after the call, and the call returns exactly when the child
    ends with exit code 0. *)
Lemma run_command_child cmd cwd eo timeout w :
  ∃ wx sp,
    sp_cmd sp = cmd ∧ fs wx = fs w ∧ spawned wx = spawned w
    ∧ spawned (run_command H cmd cwd eo false timeout w).2 =
        spawned w ++ [sp]
    ∧ fs (run_command H cmd cwd eo false timeout w).2 = (exec H wx sp).2
    ∧ match (exec H wx sp).1 with
      | Exited 0 _ _ =>
          ∃ res, (run_command H cmd cwd eo false timeout w).1 = Ok res
      | _ =>
          ∃ msg so se,
            (run_command H cmd cwd eo false timeout w).1 =
              Raise (CommandExecutionError msg cmd (-1) so se)
      end.
Proof.
  destruct (run_command_env_total cmd eo w) as (env & w1 & Hprel & Hfs & Hsp).
  exists w1, {| sp_cmd := cmd; sp_cwd := cwd; sp_env := env;
                sp_timeout := timeout |}.
  split; [done |]. split; [done |]. split; [done |].
  unfold run_command, bind. rewrite Hprel.
  unfold try_except, subprocess_run, spawn, bind. rewrite <- Hsp.
  destruct (exec H w1 _) as [b files].
  destruct b as [rc so se | | text | text]; simpl;
    [destruct (Z.eqb_spec rc 0) as [-> | Hrc]; simpl | ..];
    repeat (match goal with
            | |- context [nonempty ?s] => destruct (nonempty s); simpl
            end);
    unfold when, print, raise, ret; simpl;
    (split; [done |]); (split; [done |]); eauto.
  destruct rc; [done | eauto ..].
Qed.

(** Lines 618-645: the start command is the one child, it runs with the
    files of the world of the call, and what it leaves is kept but for
    the override file. *)
Lemma compose_up_child profile environment tp w :
  ∃ wx sp,
    sp_cmd sp = compose_up_cmd profile environment tp
    ∧ fs wx = fs w
    ∧ spawned wx = spawned w
    ∧ spawned (compose_up H profile environment tp w).2 = spawned w ++ [sp]
    ∧ fs (compose_up H profile environment tp w).2 =
        (if truthy tp then delete (default "" tp) (exec H wx sp).2
         else (exec H wx sp).2)
    ∧ temps (compose_up H profile environment tp w).2 = temps w
    ∧ match (exec H wx sp).1 with
      | Exited 0 _ _ => (compose_up H profile environment tp w).1 = Ok tt
      | _ =>
          ∃ msg so se,
            (compose_up H profile environment tp w).1 =
              Raise (CommandExecutionError msg
                       (compose_up_cmd profile environment tp) (-1) so se)
      end.
Proof.
  assert (Hk : keeps_temps (compose_up H profile environment tp)).
  { unfold compose_up, docker_socket_override, except_CalledProcessError.
    frame. }
  specialize (Hk w).
  unfold compose_up, bind, docker_socket_override, environ_get,
    try_finally, except_CalledProcessError, try_except in *. simpl in *.
  set (cmd := compose_up_cmd profile environment tp) in *.
  set (eo := Some _) in *.
  destruct (run_command_child cmd None eo None w)
    as (wx & sp & Hcmd & Hfs & Hspx & Hsp & Hfiles & Hres).
  exists wx, sp. split; [done |]. split; [done |]. split; [done |].
  assert (Hdel : ∀ w1, fs w1 = (exec H wx sp).2 →
            fs w1 !! default "" tp = None →
            fs w1 = delete (default "" tp) (exec H wx sp).2).
  { intros w1 Hw1 Hno. rewrite <- Hw1. by rewrite delete_id. }
  destruct (run_command H cmd None eo false None w) as [[res | e] w1];
    simpl in *.
  - assert (Hzero : match (exec H wx sp).1 with
                    | Exited 0 _ _ => True
                    | _ => False
                    end).
    { destruct (exec H wx sp).1 as [rc so se | | text | text];
        [destruct rc | ..]; try done;
        by destruct Hres as (? & ? & ? & ?). }
    unfold when, print in *.
    destruct (truthy tp); simpl in *;
      [case_bool_decide as Hex; simpl in * |].
    + split; [done |]. split; [by rewrite Hfiles |]. split; [done |].
      destruct (exec H wx sp).1 as [rc so se | | text | text];
        [destruct rc | ..]; done.
    + split; [done |].
      split; [apply Hdel; [done | by apply eq_None_not_Some] |].
      split; [done |].
      destruct (exec H wx sp).1 as [rc so se | | text | text];
        [destruct rc | ..]; done.
    + split; [done |]. split; [done |]. split; [done |].
      destruct (exec H wx sp).1 as [rc so se | | text | text];
        [destruct rc | ..]; done.
  - assert (He : (∃ msg so se,
                    e = CommandExecutionError msg cmd (-1) so se)
                 ∧ match (exec H wx sp).1 with
                   | Exited 0 _ _ => False
                   | _ => True
                   end).
    { destruct (exec H wx sp).1 as [rc so se | | text | text];
        [destruct rc | ..];
        try (destruct Hres as (msg & so' & se' & [= ->]); eauto 10).
      by destruct Hres as (? & ?). }
    destruct He as ((msg & so & se & ->) & Hnz). simpl in *.
    unfold when, print in *.
    destruct (truthy tp); simpl in *;
      [case_bool_decide as Hex; simpl in * |].
    + split; [done |]. split; [by rewrite Hfiles |]. split; [done |].
      destruct (exec H wx sp).1 as [rc so' se' | | text | text];
        [destruct rc | ..]; eauto; done.
    + split; [done |].
      split; [apply Hdel; [done | by apply eq_None_not_Some] |].
      split; [done |].
      destruct (exec H wx sp).1 as [rc so' se' | | text | text];
        [destruct rc | ..]; eauto; done.
    + split; [done |]. split; [done |]. split; [done |].
      destruct (exec H wx sp).1 as [rc so' se' | | text | text];
        [destruct rc | ..]; eauto; done.
Qed.

(** C7.  Let the plan of [start_local_ai] (everything up to the list of
    remaps) end in the world [w1].  When the plan raises, so does
    [start_local_ai], and no temporary file has been created.  When it
    returns the remaps, [start_local_ai] starts exactly one more child,
    the start command, after the children of the plan and no other, and
    returns when that child ends with exit code 0
    and raises [CommandExecutionError] otherwise.  With no remap the
    command has no override argument, the child sees the files of [w1],
    and no temporary name is handed out.  With remaps one temporary name
    is handed out, the command passes it after [-f], the child runs with
    the override text in that file, and when [start_local_ai] ends the
    file is gone, whether it returns or raises. *)
Theorem override_file_is_removed profile environment w :
  match override_plan H w with
  | (Raise e, w1) =>
      start_local_ai H profile environment w = (Raise e, w1)
      ∧ temps w1 = temps w
  | (Ok remap, w1) =>
      let r := start_local_ai H profile environment w in
      let n := mkstemp_name H w1 in
      ∃ wx sp,
        spawned wx = spawned w1
        ∧ spawned r.2 = spawned w1 ++ [sp]
        ∧ match (exec H wx sp).1 with
          | Exited 0 _ _ => r.1 = Ok tt
          | _ =>
              ∃ msg so se,
                r.1 = Raise (CommandExecutionError msg (sp_cmd sp) (-1)
                               so se)
          end
        ∧ match remap with
          | [] =>
              sp_cmd sp =
                compose_base_cmd profile environment ++ ["up"; "-d"]
              ∧ fs wx = fs w1
              ∧ fs r.2 = (exec H wx sp).2
              ∧ temps r.2 = temps w
          | _ :: _ =>
              sp_cmd sp =
                compose_base_cmd profile environment
                  ++ ["-f"; n; "up"; "-d"]
              ∧ fs wx =
                  <[n := overlay_text
                           (group_by_service (scan_compose H w1) remap)]>
                    (fs w1)
              ∧ fs r.2 = delete n (exec H wx sp).2
              ∧ fs r.2 !! n = None
              ∧ temps r.2 = temps w ++ [n]
          end
  end.
Proof.
  pose proof (keeps_temps_override_plan w) as Htmp.
  destruct (override_plan H w) as [[remap | e] w1] eqn:Hplan;
    simpl in Htmp; rewrite start_local_ai_plan; unfold bind at 1;
    rewrite Hplan; [| by split].
  unfold bind.
  destruct (write_override_spec remap w1) as (tp & w2 & -> & Hsp2 & Hcase).
  destruct (compose_up_child profile environment tp w2)
    as (wx & sp & Hcmd & Hfs & Hspx & Hsp & Hfiles & Htmps & Hres).
  cbv zeta. exists wx, sp.
  split; [by rewrite Hspx, Hsp2 |].
  split; [by rewrite Hsp, Hsp2 |].
  split.
  { rewrite Hcmd.
    destruct (exec H wx sp).1 as [rc so se | | text | text];
      [destruct rc | ..]; done. }
  destruct remap as [| r0 remap]; simpl in Hcase.
  - destruct Hcase as [-> ->].
    rewrite Hcmd, compose_up_cmd_plain.
    split; [done |]. split; [done |]. split; [done |]. congruence.
  - destruct Hcase as (-> & Htmp2 & Hfs2).
    rewrite Hcmd, compose_up_cmd_override.
    unfold truthy in Hfiles. rewrite nonempty_mkstemp_name in Hfiles.
    simpl in Hfiles.
    split; [done |]. split; [by rewrite Hfs, Hfs2 |].
    split; [done |].
    split; [rewrite Hfiles; apply lookup_delete_eq |].
    by rewrite Htmps, Htmp2, Htmp.
Qed.

End LauncherFacts.

Lemma override_file_is_removed_witness :
  let H := sample_host all_succeed nobody_answers {[ 8080 ]} in
  let w := sample_world
             {[ "/srv/localai/docker-compose.override.private.yml" :=
                  render_mappings [(6%nat, (8080, 80))] ]} in
  let w1 := (override_plan H w).2 in
  let r := start_local_ai H (Some "cpu") (Some "private") w in
  let n := mkstemp_name H w1 in
  ∃ wx sp,
    spawned wx = spawned w1
    ∧ spawned r.2 = spawned w1 ++ [sp]
    ∧ match (exec H wx sp).1 with
      | Exited 0 _ _ => r.1 = Ok tt
      | _ =>
          ∃ msg so se,
            r.1 = Raise (CommandExecutionError msg (sp_cmd sp) (-1) so se)
      end
    ∧ sp_cmd sp =
        compose_base_cmd (Some "cpu") (Some "private")
          ++ ["-f"; n; "up"; "-d"]
    ∧ fs wx =
        <[n := overlay_text
                 (group_by_service (scan_compose H w1) [(8080, 80, 8081)])]>
          (fs w1)
    ∧ fs r.2 = delete n (exec H wx sp).2
    ∧ fs r.2 !! n = None
    ∧ temps r.2 = temps w ++ [n].
Proof.
  intros H w w1 r n.
  pose proof (override_file_is_removed H (Some "cpu") (Some "private") w)
    as Hthm.
  assert (Hplan : override_plan H w = (Ok [(8080, 80, 8081)], w1))
    by (by vm_compute).
  rewrite Hplan in Hthm. exact Hthm.
Defined.

(** ** Dependency Readiness Waiter and the launch *)

Section WaiterFacts.
Variable H : Host.

Lemma with_out_nil w : with_out w [] = w.
Proof. destruct w. unfold with_out. simpl. by rewrite app_nil_r. Qed.

Lemma with_out_app w l1 l2 : with_out (with_out w l1) l2 = with_out w (l1 ++ l2).
Proof. unfold with_out. simpl. by rewrite app_assoc. Qed.

Lemma print_with_out line w : print line w = (Ok tt, with_out w [line]).
Proof. reflexivity. Qed.

Lemma poll_targets_prints round ts ready w :
  ∃ ready' lines,
    poll_targets H round ts ready w = (Ok ready', with_out w lines).
Proof.
  revert ready w. induction ts as [| [name url] ts IH]; intros ready w.
  - exists ready, []. by rewrite with_out_nil.
  - simpl. case_bool_decide; [apply IH |].
    destruct (answered _); [| apply IH].
    unfold bind. rewrite print_with_out.
    match goal with
    | |- context [poll_targets H round ts ?r ?w1] =>
        destruct (IH r w1) as (r' & lines & ->)
    end.
    exists r'. eexists. by rewrite with_out_app.
Qed.

Lemma wait_for_supabase_loop_prints left round ready w :
  ∃ b lines,
    wait_for_supabase_loop H left round ready w = (Ok b, with_out w lines)
    ∧ (b = false → last lines = Some supabase_warning).
Proof.
  revert round ready w.
  induction left as [| left IH]; intros round ready w;
    cbn [wait_for_supabase_loop].
  - exists false, [supabase_warning]. done.
  - unfold bind at 1.
    destruct (poll_targets_prints round targets ready w)
      as (ready' & lines & ->).
    case_bool_decide.
    + exists true. eexists. unfold bind. rewrite print_with_out.
      unfold ret. rewrite with_out_app. done.
    + destruct (IH (S round) ready' (with_out w lines))
        as (b & lines' & -> & Hb).
      exists b, (lines ++ lines'). rewrite with_out_app. split; [done |].
      intros Hf. specialize (Hb Hf). rewrite last_app, Hb. done.
Qed.

Lemma wait_for_supabase_prints w :
  ∃ b lines,
    wait_for_supabase H w = (Ok b, with_out w lines)
    ∧ (b = false → last lines = Some supabase_warning).
Proof.
  unfold wait_for_supabase, bind. rewrite print_with_out.
  destruct (wait_for_supabase_loop_prints (rounds_supabase H) 0 ∅
              (with_out w ["Waiting for Supabase (auth, rest) to become ready..."]))
    as (b & lines & -> & Hb).
  exists b. eexists. rewrite with_out_app. split; [done |].
  intros Hf. specialize (Hb Hf). rewrite last_app, Hb. done.
Qed.

Lemma answered_http_get round url :
  answered (http_get H round url) = true ↔
  ∃ code, server H round url = Some code ∧ 200 ≤ code < 300.
Proof.
  unfold http_get, urlopen.
  destruct (server H round url) as [code |]; simpl.
  - destruct ((200 <=? code) && (code <? 300)) eqn:Hc; simpl.
    + apply andb_true_iff in Hc as [?%Z.leb_le ?%Z.ltb_lt].
      split; [intros _; exists code; split; [done | lia] |].
      intros _. apply andb_true_iff. split.
      * apply negb_true_iff, Z.eqb_neq. lia.
      * apply Z.ltb_lt. lia.
    + split; [done |]. intros (c & [= <-] & Hr).
      apply andb_false_iff in Hc as [?%Z.leb_gt | ?%Z.ltb_ge]; lia.
  - split; [done | by intros (c & ? & _)].
Qed.



(** The probes of [wait_for_neo4j] *)

Lemma check_output_child cmd w :
  ∃ r, check_output H cmd w = (r, after_child H w cmd).
Proof.
  unfold check_output, bind, get_world, subprocess_run, spawn, bind,
    after_child, inherit.
  destruct (exec H w _) as [b files]. simpl.
  destruct b as [rc so se | | text | text]; simpl; [| by eexists ..].
  destruct (negb (rc =? 0)); by eexists.
Qed.

Lemma subprocess_call_child cmd w :
  ∃ r, subprocess_call H cmd w = (r, after_child H w cmd).
Proof.
  unfold subprocess_call, bind, get_world, subprocess_run, spawn, bind,
    after_child, inherit.
  destruct (exec H w _) as [b files]. simpl.
  destruct b as [rc so se | | text | text]; by eexists.
Qed.

Lemma only_probes_refl w : only_probes w w.
Proof.
  repeat split. exists []. by rewrite app_nil_r.
Qed.

Lemma only_probes_child w0 w cmd :
  is_neo4j_probe cmd = true →
  only_probes w0 w → only_probes w0 (after_child H w cmd).
Proof.
  intros Hcmd (Hout & Hd & Ht & kids & Hsp & Hkids).
  repeat split; try done.
  exists (kids ++ [inherit w cmd]). simpl. split.
  - by rewrite Hsp, app_assoc.
  - apply Forall_app. split; [done |]. apply Forall_singleton.
    split; [done |]. unfold inherit, environ. by rewrite Hd.
Qed.

Lemma only_probes_print w0 w line :
  only_probes w0 w → only_probes (with_out w0 [line]) (with_out w [line]).
Proof.
  intros (Hout & Hd & Ht & kids & Hsp & Hkids).
  repeat split; simpl; try done; [by rewrite Hout |].
  by exists kids.
Qed.

Lemma find_neo4j_container_quiet w0 w :
  only_probes w0 w →
  ∃ r w', find_neo4j_container H w = (Ok r, w') ∧ only_probes w0 w'.
Proof.
  intros Hw.
  unfold find_neo4j_container, except_Exception, try_except, bind.
  match goal with
  | |- context [check_output H ?cmd w] =>
      destruct (check_output_child cmd w) as (r & ->);
      pose proof (only_probes_child w0 w cmd eq_refl Hw)
  end.
  destruct r as [o | e]; by eexists _, _.
Qed.

Lemma check_inside_with_curl_quiet cname w0 w :
  only_probes w0 w →
  ∃ r w', check_inside_with_curl H cname w = (Ok r, w') ∧ only_probes w0 w'.
Proof.
  intros Hw.
  unfold check_inside_with_curl, except_Exception, try_except.
  unfold bind at 1.
  match goal with
  | |- context [subprocess_call H ?cmd w] =>
      destruct (subprocess_call_child cmd w) as (r & ->);
      pose proof (only_probes_child w0 w cmd eq_refl Hw) as Hw1
  end.
  destruct r as [rc | e]; [| by eexists _, _].
  destruct (rc =? 0); [| by eexists _, _].
  unfold bind at 1.
  match goal with
  | |- context [check_output H ?cmd ?w1] =>
      destruct (check_output_child cmd w1) as (r & ->);
      pose proof (only_probes_child w0 w1 cmd eq_refl Hw1) as Hw2
  end.
  destruct r as [o | e]; [| by eexists _, _].
  cbv zeta. destruct (nonempty (strip o) && isdigit (strip o));
    [| by eexists _, _].
  unfold bind, py_int, ret, raise.
  destruct (nonempty (strip o) && all_digits (strip o));
    [| by eexists _, _].
  destruct (negb (int_of_digits (strip o) =? 0)); by eexists _, _.
Qed.

Lemma check_inside_with_python_quiet cname w0 w :
  only_probes w0 w →
  ∃ r w',
    check_inside_with_python H cname w = (Ok r, w') ∧ only_probes w0 w'.
Proof.
  intros Hw.
  unfold check_inside_with_python, except_Exception, try_except.
  unfold bind at 1.
  match goal with
  | |- context [check_output H ?cmd w] =>
      destruct (check_output_child cmd w) as (r & ->);
      pose proof (only_probes_child w0 w cmd eq_refl Hw) as Hw1
  end.
  destruct r as [o | e]; [| by eexists _, _].
  cbv zeta. destruct (nonempty (strip o) && isdigit (strip o));
    [| by eexists _, _].
  unfold bind, py_int, ret, raise.
  destruct (nonempty (strip o) && all_digits (strip o)); by eexists _, _.
Qed.

Lemma logs_indicate_ready_quiet cname w0 w :
  only_probes w0 w →
  ∃ r w', logs_indicate_ready H cname w = (Ok r, w') ∧ only_probes w0 w'.
Proof.
  intros Hw.
  unfold logs_indicate_ready, except_Exception, try_except, bind.
  match goal with
  | |- context [check_output H ?cmd w] =>
      destruct (check_output_child cmd w) as (r & ->);
      pose proof (only_probes_child w0 w cmd eq_refl Hw)
  end.
  destruct r as [o | e]; by eexists _, _.
Qed.

(** The loop of [wait_for_neo4j] never raises; it prints one line, the
    warning when it returns [False], and starts nothing but probes. *)
Lemma wait_for_neo4j_loop_quiet left round w0 w :
  only_probes w0 w →
  ∃ b line w',
    wait_for_neo4j_loop H left round w = (Ok b, w')
    ∧ only_probes (with_out w0 [line]) w'
    ∧ (b = false → line = neo4j_warning).
Proof.
  revert round w.
  induction left as [| left IH]; intros round w Hw;
    cbn [wait_for_neo4j_loop].
  - exists false, neo4j_warning. eexists. split; [reflexivity |].
    split; [by apply only_probes_print | done].
  - destruct (answered (http_get H round _)).
    { exists true. eexists _, _. split; [reflexivity |].
      split; [by apply only_probes_print | done]. }
    unfold bind at 1.
    destruct (find_neo4j_container_quiet w0 w Hw)
      as ([cname |] & w1 & -> & Hw1); [| by apply IH].
    unfold bind at 1.
    destruct (check_inside_with_curl_quiet cname w0 w1 Hw1)
      as (inner & w2 & -> & Hw2).
    destruct (answered inner).
    { exists true. eexists _, _. split; [reflexivity |].
      split; [by apply only_probes_print | done]. }
    unfold bind at 1.
    destruct (check_inside_with_python_quiet cname w0 w2 Hw2)
      as (inner' & w3 & -> & Hw3).
    destruct (answered inner').
    { exists true. eexists _, _. split; [reflexivity |].
      split; [by apply only_probes_print | done]. }
    unfold bind at 1.
    destruct (logs_indicate_ready_quiet cname w0 w3 Hw3)
      as (ready & w4 & -> & Hw4).
    destruct ready; [| by apply IH].
    exists true. eexists _, _. split; [reflexivity |].
    split; [by apply only_probes_print | done].
Qed.

Lemma wait_for_neo4j_quiet w :
  ∃ b line w',
    wait_for_neo4j H w = (Ok b, w')
    ∧ only_probes
        (with_out w ["Waiting for Neo4j to become ready (HTTP 7474)...";
                     line]) w'
    ∧ (b = false → line = neo4j_warning).
Proof.
  unfold wait_for_neo4j, bind. rewrite print_with_out.
  destruct (wait_for_neo4j_loop_quiet (rounds_neo4j H) 0 _ _
              (only_probes_refl
                 (with_out w
                    ["Waiting for Neo4j to become ready (HTTP 7474)..."])))
    as (b & line & w' & -> & Hw' & Hb).
  exists b, line, w'. split; [done |]. split; [| done].
  by rewrite with_out_app in Hw'.
Qed.

Lemma bind_run {A B} (m : M A) (k : A → M B) w a w1 :
  m w = (Ok a, w1) → bind m k w = k a w1.
Proof. intros Hm. unfold bind. by rewrite Hm. Qed.

Lemma bind_ok_inv {A B} (m : M A) (k : A → M B) w b w' :
  bind m k w = (Ok b, w') →
  ∃ a w1, m w = (Ok a, w1) ∧ k a w1 = (Ok b, w').
Proof.
  unfold bind. destruct (m w) as [[a | e] w1]; [| done].
  intros Hk. by exists a, w1.
Qed.

(** C6, as the code has it.  Take a launch, not a preflight, whose phases
    before the wait for Supabase return, and let the wait time out.  The
    waiter returns [False] and nothing else, having changed nothing but
    the output, whose last line is the warning; the launcher goes on to
    start the main stack from there, and the launch ends as that start
    (and the optional frontend start) ends: it is [Done] when they
    return.  The same holds for the wait for Neo4j and the phases after
    it, where the waiter has printed its first line and the warning and
    has started nothing but its probes.  Neither waiter ever raises. *)
Theorem readiness_timeout_does_not_abort :
  (∀ args w w1,
     preflight args = false →
     launch_until_wait H args w = (Ok tt, w1) →
     (wait_for_supabase H w1).1 = Ok false →
     ∃ lines,
       (wait_for_supabase H w1).2 = with_out w1 lines
       ∧ last lines = Some supabase_warning
       ∧ launch H args w =
           outcome_of (launch_after_wait H args (with_out w1 lines))
       ∧ ((launch_after_wait H args (with_out w1 lines)).1 = Ok tt →
          (launch H args w).1 = Done))
  ∧ (∀ args w w1,
       preflight args = false →
       skip_neo4j args = false →
       launch_until_neo4j_wait H args w = (Ok tt, w1) →
       (wait_for_neo4j H w1).1 = Ok false →
       let w2 := (wait_for_neo4j H w1).2 in
       only_probes
         (with_out w1 ["Waiting for Neo4j to become ready (HTTP 7474)...";
                       neo4j_warning]) w2
       ∧ launch H args w =
           outcome_of (launch_after_neo4j_wait H args w2)
       ∧ ((launch_after_neo4j_wait H args w2).1 = Ok tt →
          (launch H args w).1 = Done))
  ∧ (∀ w, ∃ b lines, wait_for_supabase H w = (Ok b, with_out w lines))
  ∧ (∀ w, ∃ b w', wait_for_neo4j H w = (Ok b, w')).
Proof.
  assert (Halways : ∀ args, negb (nonempty (environment args))
                            || nonempty (environment args) = true)
    by (intros args; by destruct (nonempty _)).
  assert (Hdone : ∀ (r : Result unit * World) o,
            o = outcome_of r → r.1 = Ok tt → o.1 = Done).
  { intros [[[] | e] w'] o -> Hr; [done | discriminate Hr]. }
  split; [| split; [| split]].
  - intros args w w1 Hpre Huntil Hfalse.
    destruct (wait_for_supabase_prints w1) as (b & lines & Hwait & Hb).
    rewrite Hwait in Hfalse. simpl in Hfalse. injection Hfalse as ->.
    exists lines. rewrite Hwait. split; [done |]. split; [by apply Hb |].
    assert (Hlaunch : launch H args w =
              outcome_of (launch_after_wait H args (with_out w1 lines))).
    { unfold launch_until_wait in Huntil.
      apply bind_ok_inv in Huntil as ([] & wa & Ha & Huntil).
      apply bind_ok_inv in Huntil as ([] & wb & Hb' & Huntil).
      apply bind_ok_inv in Huntil as ([] & wc & Hc & Huntil).
      apply bind_ok_inv in Huntil as ([] & wd & Hd & Huntil).
      apply bind_ok_inv in Huntil as ([] & we & He & Huntil).
      unfold launch, main.
      rewrite (bind_run _ _ _ _ _ Ha), (bind_run _ _ _ _ _ Hb'),
        (bind_run _ _ _ _ _ Hc), Hpre.
      rewrite (bind_run _ _ _ _ _ Hd), (bind_run _ _ _ _ _ He).
      rewrite Halways. unfold when at 1.
      unfold bind at 1. unfold bind at 1.
      rewrite Huntil. unfold bind at 1. rewrite Hwait. unfold ret at 1.
      unfold launch_after_wait, outcome_of.
      by destruct (bind _ _ _) as [[[] | e] w']. }
    split; [done |]. by apply Hdone.
  - intros args w w1 Hpre Hneo Huntil Hfalse w2. subst w2.
    destruct (wait_for_neo4j_quiet w1) as (b & line & w2 & Hwait & Hw2 & Hb).
    rewrite Hwait in Hfalse. simpl in Hfalse. injection Hfalse as ->.
    rewrite Hwait. simpl. rewrite (Hb eq_refl) in Hw2.
    split; [done |].
    assert (Hlaunch : launch H args w =
              outcome_of (launch_after_neo4j_wait H args w2)).
    { unfold launch_until_neo4j_wait in Huntil.
      apply bind_ok_inv in Huntil as ([] & wa & Ha & Huntil).
      apply bind_ok_inv in Huntil as ([] & wb & Hb' & Huntil).
      apply bind_ok_inv in Huntil as ([] & wc & Hc & Huntil).
      apply bind_ok_inv in Huntil as ([] & wd & Hd & Huntil).
      unfold launch, main.
      rewrite (bind_run _ _ _ _ _ Ha), (bind_run _ _ _ _ _ Hb'),
        (bind_run _ _ _ _ _ Hc), Hpre.
      rewrite (bind_run _ _ _ _ _ Hd), Hneo, Halways.
      cbn [negb]. unfold when at 1.
      unfold bind at 1. unfold bind at 1.
      rewrite Huntil. unfold bind at 1. rewrite Hwait. unfold ret at 1.
      unfold launch_after_neo4j_wait, launch_after_wait, outcome_of.
      unfold bind.
      destruct (start_supabase H _ _) as [[[] | e] w3]; [| done].
      by destruct (wait_for_supabase H w3) as [[b | e] w4]. }
    split; [done |]. by apply Hdone.
  - intros w. destruct (wait_for_supabase_prints w) as (b & lines & ? & _).
    by exists b, lines.
  - intros w. destruct (wait_for_neo4j_quiet w) as (b & line & w' & ? & _).
    by exists b, w'.
Qed.

End WaiterFacts.


Lemma readiness_timeout_does_not_abort_witness :
  (let H := sample_host all_succeed nobody_answers ∅ in
   let w := sample_world ∅ in
   let w1 := (launch_until_wait H sample_args w).2 in
   (wait_for_supabase H w1).1 = Ok false
   ∧ ∃ lines,
       (wait_for_supabase H w1).2 = with_out w1 lines
       ∧ last lines = Some supabase_warning
       ∧ launch H sample_args w =
           outcome_of (launch_after_wait H sample_args (with_out w1 lines))
       ∧ ((launch_after_wait H sample_args (with_out w1 lines)).1 = Ok tt →
          (launch H sample_args w).1 = Done))
  ∧ (let H := sample_host neo4j_never_ready nobody_answers ∅ in
     let w := sample_world ∅ in
     let w1 := (launch_until_neo4j_wait H sample_args_neo4j w).2 in
     let w2 := (wait_for_neo4j H w1).2 in
     (wait_for_neo4j H w1).1 = Ok false
     ∧ length (spawned w2) = (length (spawned w1) + 4)%nat
     ∧ only_probes
         (with_out w1 ["Waiting for Neo4j to become ready (HTTP 7474)...";
                       neo4j_warning]) w2
     ∧ launch H sample_args_neo4j w =
         outcome_of (launch_after_neo4j_wait H sample_args_neo4j w2)
     ∧ ((launch_after_neo4j_wait H sample_args_neo4j w2).1 = Ok tt →
        (launch H sample_args_neo4j w).1 = Done)).
Proof.
  split.
  - intros H w w1.
    assert (Hpre : preflight sample_args = false) by reflexivity.
    assert (Huntil : launch_until_wait H sample_args w = (Ok tt, w1))
      by (by vm_compute).
    assert (Hfalse : (wait_for_supabase H w1).1 = Ok false)
      by (by vm_compute).
    split; [exact Hfalse |].
    exact (proj1 (readiness_timeout_does_not_abort H) sample_args w w1
             Hpre Huntil Hfalse).
  - intros H w w1 w2.
    assert (Hpre : preflight sample_args_neo4j = false) by reflexivity.
    assert (Hneo : skip_neo4j sample_args_neo4j = false) by reflexivity.
    assert (Huntil : launch_until_neo4j_wait H sample_args_neo4j w
                     = (Ok tt, w1)) by (by vm_compute).
    assert (Hfalse : (wait_for_neo4j H w1).1 = Ok false)
      by (by vm_compute).
    split; [exact Hfalse |]. split; [by vm_compute |].
    exact (proj1 (proj2 (readiness_timeout_does_not_abort H))
             sample_args_neo4j w w1 Hpre Hneo Huntil Hfalse).
Defined.

(** C6 as the specification words it fails: the result of the waiter is
    the same bare [False] when the auth service has answered and when
    nothing has, so it does not carry the set of the targets that did
    respond. *)
Lemma wait_result_carries_no_targets :
  let one := wait_for_supabase (sample_host all_succeed auth_only ∅)
               (sample_world ∅) in
  let none := wait_for_supabase (sample_host all_succeed nobody_answers ∅)
                (sample_world ∅) in
  "  auth up (HTTP 200)" ∈ out one.2
  ∧ ("  auth up (HTTP 200)" ∉ out none.2)
  ∧ one.1 = Ok false
  ∧ none.1 = Ok false.
Proof.
  intros one none.
  split; [apply (bool_decide_unpack _); by vm_compute |].
  split; [apply (bool_decide_unpack _); by vm_compute |].
  by vm_compute.
Qed.

(** C1 on a Supabase stack as it answers: the auth service answers 200
    and the REST gateway answers 401 to the request without a key.  The
    gateway did answer, with a status below 600, yet [http_get] gives
    [None] for it, the target is never marked ready, and the wait runs
    into its timeout. *)
Theorem answered_status_401_is_not_ready :
  let H := sample_host all_succeed rest_unauthorized ∅ in
  let r := wait_for_supabase H (sample_world ∅) in
  server H 0 "http://localhost:8000/rest/v1/" = Some 401
  ∧ http_get H 0 "http://localhost:8000/rest/v1/" = None
  ∧ answered (http_get H 0 "http://localhost:8000/rest/v1/") = false
  ∧ r.1 = Ok false
  ∧ out r.2 = ["Waiting for Supabase (auth, rest) to become ready...";
               "  auth up (HTTP 200)";
               "Timeout waiting for Supabase; proceeding anyway."].
Proof. by vm_compute. Qed.

(* ===================================================================== *)
(** * Part III: further properties of the script                          *)
(* ===================================================================== *)

(** ** Port Conflict Resolver *)

Section PortExtras.
Implicit Types (used listening : gset Z) (declared : list (Z * Z)).

(** The loop of lines 564-569, one declared pair at a time. *)
Lemma resolve_cons h c declared listening :
  resolve ((h, c) :: declared) listening =
    if bool_decide (h ∈ listening) then
      (h, c, find_next_free_port (h + 1) listening)
        :: resolve declared
             ({[find_next_free_port (h + 1) listening]} ∪ listening)
    else resolve declared listening.
Proof.
  unfold resolve. simpl. case_bool_decide; [| done].
  by rewrite remap_from_prefix.
Qed.

(** X1.  For every start and every finite set of used ports the scan of
    [find_next_free_port] ends, and its result is the smallest port from
    [start] on that is not used and not below 1024. *)
Theorem find_next_free_port_is_smallest start used :
  smallest_from start (λ q, (q ∉ used) ∧ 1024 ≤ q)
    (find_next_free_port start used).
Proof.
  destruct (find_next_free_port_spec start used) as (Hle & Hfree & Hmin).
  unfold rejected in *. split; [done |]. split.
  - split; [intros Hin; apply Hfree; by left |].
    destruct (decide (find_next_free_port start used < 1024)); [| lia].
    exfalso. apply Hfree. by right.
  - intros q Hq [Hnin Hge]. apply (Hmin q Hq). intros [? | ?]; [done | lia].
Qed.

(** X2.  A resolution pass produces no remap exactly when no declared host
    port is listening. *)
Theorem resolve_empty_iff_no_conflict declared listening :
  resolve declared listening = []
  ↔ Forall (λ pr, pr.1 ∉ listening) declared.
Proof.
  induction declared as [| [h c] declared IH].
  - by split.
  - rewrite resolve_cons. case_bool_decide as Hin.
    + split; [done |]. intros Hall%Forall_cons_1. by destruct Hall.
    + rewrite IH. split.
      * intros Hall. by apply Forall_cons.
      * intros Hall%Forall_cons_1. by destruct Hall.
Qed.

(** X3.  The new host ports of one pass are pairwise distinct, none of
    them is in the listening set, and each is above the host port it
    replaces. *)
Theorem resolve_new_ports_fresh declared listening :
  NoDup (new_ports (resolve declared listening))
  ∧ Forall (λ r, (r.2 ∉ listening) ∧ r.1.1 < r.2)
      (resolve declared listening).
Proof.
  revert listening.
  induction declared as [| [h c] declared IH]; intros listening.
  - split; [apply NoDup_nil_2 | apply Forall_nil_2].
  - rewrite resolve_cons. case_bool_decide as Hin; [| apply IH].
    set (n := find_next_free_port (h + 1) listening).
    destruct (find_next_free_port_spec (h + 1) listening)
      as (Hle & Hfree & _). fold n in Hle, Hfree. unfold rejected in Hfree.
    destruct (IH ({[n]} ∪ listening)) as [Hnd Hall].
    split.
    + unfold new_ports. cbn [fmap list_fmap snd].
      apply NoDup_cons. split; [| done].
      intros Hn. apply list_elem_of_fmap in Hn as (r & Hr & Hrin).
      rewrite Forall_forall in Hall. destruct (Hall r Hrin) as [Hnot _].
      apply Hnot. rewrite <- Hr. set_solver.
    + apply Forall_cons. split.
      * simpl. split; [tauto | lia].
      * eapply Forall_impl; [exact Hall |].
        intros r (Hnot & ?). split; [set_solver | done].
Qed.

(** X4.  The remaps keep the declared pairs: their host and container
    ports are declared pairs, in the declared order, and every declared
    pair whose host port is listening is among them. *)
Theorem resolve_keeps_declared_pairs declared listening :
  fst <$> resolve declared listening `sublist_of` declared
  ∧ Forall (λ pr, pr.1 ∈ listening
                  → pr ∈ fst <$> resolve declared listening)
      declared.
Proof.
  revert listening.
  induction declared as [| [h c] declared IH]; intros listening.
  - split; [done | apply Forall_nil_2].
  - rewrite resolve_cons. case_bool_decide as Hin.
    + destruct (IH ({[find_next_free_port (h + 1) listening]} ∪ listening))
        as [Hsub Hall].
      split.
      * cbn [fmap list_fmap fst]. by apply sublist_skip.
      * apply Forall_cons. split; [intros _; cbn; left |].
        eapply Forall_impl; [exact Hall |].
        intros pr Hpr Hl. cbn. right. apply Hpr. set_solver.
    + destruct (IH listening) as [Hsub Hall]. split.
      * by apply sublist_cons.
      * apply Forall_cons. split; [done | done].
Qed.

Lemma setdefault_append_keys srvname x (d : list (string * list (Z * Z))) :
  fst <$> setdefault_append srvname x d =
    if bool_decide (srvname ∈ fst <$> d) then fst <$> d
    else (fst <$> d) ++ [srvname].
Proof.
  induction d as [| [k l] d IH]; [done |].
  cbn [setdefault_append].
  destruct (bool_decide_reflect (k = srvname)) as [-> | Hk].
  - cbn [fmap list_fmap fst].
    rewrite bool_decide_eq_true_2; [done | by left].
  - cbn [fmap list_fmap fst]. rewrite IH.
    destruct (bool_decide_reflect (srvname ∈ fst <$> d)) as [Hin | Hin].
    + rewrite bool_decide_eq_true_2; [done | by right].
    + rewrite bool_decide_eq_false_2; [done |].
      intros [? | ?]%elem_of_cons; [by subst | done].
Qed.

Lemma setdefault_append_ports srvname x (d : list (string * list (Z * Z))) :
  mbind snd (setdefault_append srvname x d) ≡ₚ mbind snd d ++ [x].
Proof.
  induction d as [| [k l] d IH]; [done |].
  cbn [setdefault_append].
  destruct (bool_decide_reflect (k = srvname)) as [-> | Hk];
    cbn [mbind list_bind snd].
  - rewrite <- !app_assoc. apply Permutation_app_head, Permutation_app_comm.
  - rewrite IH. by rewrite app_assoc.
Qed.

Lemma setdefault_append_groups (P : string → Z * Z → Prop) srvname x
    (d : list (string * list (Z * Z))) :
  P srvname x →
  Forall (λ sp, sp.2 ≠ [] ∧ Forall (P sp.1) sp.2) d →
  Forall (λ sp, sp.2 ≠ [] ∧ Forall (P sp.1) sp.2)
    (setdefault_append srvname x d).
Proof.
  intros Hx. induction 1 as [| [k l] d [Hne Hl] Hd IH];
    cbn [setdefault_append].
  - apply Forall_singleton. split; [done | by apply Forall_singleton].
  - simpl in Hne, Hl.
    destruct (bool_decide_reflect (k = srvname)) as [-> | Hk].
    + apply Forall_cons. split; [| done]. simpl. split.
      * by destruct l.
      * apply Forall_app. split; [done | by apply Forall_singleton].
    + apply Forall_cons. by split.
Qed.

(** X5.  In the grouping of the remaps by service every service name
    occurs once, no service has an empty port list, every port pair stands
    under the name of the service of its container port, and the port
    pairs of all services together are the new-port/container-port pairs
    of the remaps, each as often as it was remapped. *)
Theorem group_by_service_partitions (contport_to_service : gmap Z string)
    (remap : list (Z * Z * Z)) :
  let groups := group_by_service contport_to_service remap in
  NoDup (fst <$> groups)
  ∧ Forall (λ sp, sp.2 ≠ []
                  ∧ Forall (λ pc, service_name contport_to_service pc.2 = sp.1)
                      sp.2) groups
  ∧ mbind snd groups ≡ₚ (λ r, (r.2, r.1.2)) <$> remap.
Proof.
  unfold group_by_service.
  induction remap as [| r remap IH] using rev_ind.
  - split; [apply NoDup_nil_2 |]. split; [apply Forall_nil_2 | done].
  - rewrite foldl_app. simpl in *.
    destruct IH as (Hnd & Hall & Hperm).
    fold (service_name contport_to_service r.1.2).
    set (groups := foldl _ [] remap) in *.
    split; [| split].
    + rewrite setdefault_append_keys. case_bool_decide as Hin; [done |].
      apply NoDup_app. split; [done |]. split.
      * intros k Hk ?%list_elem_of_singleton. by subst.
      * apply NoDup_singleton.
    + by apply (setdefault_append_groups
                  (λ name pc, service_name contport_to_service pc.2 = name)).
    + rewrite setdefault_append_ports, Hperm, fmap_app. done.
Qed.

End PortExtras.

(** ** The parser of the private override file *)

Section ParserExtras.
Implicit Types (s t ds rest : string) (c : ascii).

Lemma int_of_digits_from_app acc s t :
  int_of_digits_from acc (s +:+ t) =
    int_of_digits_from (int_of_digits_from acc s) t.
Proof.
  revert acc. induction s as [| a s IH]; intros acc; [done |].
  rewrite str_app_cons. simpl. apply IH.
Qed.

Lemma int_of_digits_from_nonneg acc s :
  all_digits s = true → 0 ≤ acc → 0 ≤ int_of_digits_from acc s.
Proof.
  revert acc. induction s as [| a s IH]; intros acc Hd Hacc; [done |].
  simpl in *. apply andb_true_iff in Hd as [Ha Hs].
  apply IH; [done |]. unfold is_digit in Ha.
  apply andb_true_iff in Ha as [?%N.leb_le _]. lia.
Qed.

Lemma is_digit_pretty_N_char x : is_digit (pretty_N_char x) = true.
Proof. unfold pretty_N_char. by repeat case_match. Qed.

Lemma value_pretty_N_char x :
  (x < 10)%N →
  Z.of_N (Ascii.N_of_ascii (pretty_N_char x)) - 48 = Z.of_N x.
Proof.
  intros Hx.
  assert (x = 0 ∨ x = 1 ∨ x = 2 ∨ x = 3 ∨ x = 4 ∨ x = 5 ∨ x = 6 ∨ x = 7
          ∨ x = 8 ∨ x = 9)%N as Hc by lia.
  by repeat (destruct Hc as [-> | Hc]; [done |]); subst.
Qed.

(** The digits [pretty_N_go] puts in front of [s], read back. *)
Lemma pretty_N_go_digits (x : N) s :
  ∃ ds, pretty_N_go x s = ds +:+ s
        ∧ all_digits ds = true
        ∧ (nonempty ds = true ↔ (0 < x)%N)
        ∧ ∀ acc, ∃ k : Z,
            0 < k ∧ int_of_digits_from acc ds = acc * k + Z.of_N x.
Proof.
  revert s. induction (N.lt_wf_0 x) as [x _ IH]; intros s.
  destruct (decide (x = 0)%N) as [-> | Hx].
  - exists "". rewrite pretty_N_go_0. split; [done |]. split; [done |].
    split; [split; [done | lia] |]. intros acc. exists 1. simpl. lia.
  - assert (0 < x)%N as Hpos by lia.
    rewrite pretty_N_go_step by done.
    destruct (IH (x `div` 10)%N (N.div_lt x 10 Hpos eq_refl)
                (String (pretty_N_char (x `mod` 10)) s))
      as (ds & -> & Hds & _ & Hval).
    exists (ds +:+ String (pretty_N_char (x `mod` 10)) "").
    split; [by rewrite str_app_assoc |]. split; [| split].
    + clear Hval. induction ds as [| a ds IHds].
      * simpl. by rewrite is_digit_pretty_N_char.
      * rewrite str_app_cons. simpl in *.
        apply andb_true_iff in Hds as [-> Hds]. by apply IHds.
    + split; [done |]. intros _. by destruct ds.
    + intros acc. destruct (Hval acc) as (k & Hk & Hacc).
      exists (10 * k). split; [lia |].
      rewrite int_of_digits_from_app, Hacc. simpl.
      rewrite value_pretty_N_char by (by apply N.mod_lt).
      pose proof (N.div_mod x 10 ltac:(done)) as Hdm. lia.
Qed.

(** [int] reads back what printing a non-negative integer wrote. *)
Lemma pretty_digits (n : Z) :
  0 ≤ n →
  all_digits (pretty n) = true ∧ nonempty (pretty n) = true
  ∧ int_of_digits (pretty n) = n.
Proof.
  intros Hn. destruct n as [| p | p]; [done | | lia].
  unfold pretty, pretty_Z, pretty, pretty_positive, pretty, pretty_N.
  rewrite decide_False by done.
  destruct (pretty_N_go_digits (N.pos p) "") as (ds & -> & Hds & Hne & Hval).
  rewrite str_app_nil_r. split; [done |]. split; [apply Hne; lia |].
  destruct (Hval 0) as (k & _ & Hk). unfold int_of_digits. rewrite Hk. lia.
Qed.

Lemma take_digits_app ds rest :
  all_digits ds = true →
  match rest with String c _ => is_digit c = false | "" => True end →
  take_digits (ds +:+ rest) = (ds, rest).
Proof.
  intros Hds Hrest. induction ds as [| a ds IH].
  - rewrite str_app_nil_l. destruct rest as [| c rest]; [done |].
    simpl. by rewrite Hrest.
  - simpl in Hds. apply andb_true_iff in Hds as [Ha Hds].
    rewrite str_app_cons. simpl. rewrite Ha, IH; done.
Qed.

Lemma take_digits_split s ds rest :
  take_digits s = (ds, rest) → s = ds +:+ rest ∧ all_digits ds = true.
Proof.
  revert ds rest. induction s as [| a s IH]; intros ds rest; simpl.
  - by intros [= <- <-].
  - destruct (is_digit a) eqn:Ha.
    + destruct (take_digits s) as [d r]. intros [= <- <-].
      destruct (IH d r eq_refl) as [-> Hd]. split; [done |].
      simpl. by rewrite Ha.
    + by intros [= <- <-].
Qed.

Lemma drop_prefix_app p s : drop_prefix p (p +:+ s) = Some s.
Proof.
  induction p as [| a p IH]; [by destruct s |].
  rewrite str_app_cons. simpl. by rewrite bool_decide_eq_true_2.
Qed.

Lemma drop_prefix_split p s r : drop_prefix p s = Some r → s = p +:+ r.
Proof.
  revert s. induction p as [| a p IH]; intros s; simpl.
  - by intros [= ->].
  - destruct s as [| b s]; [done |]. case_bool_decide as Hab; [| done].
    subst b. intros ->%IH. done.
Qed.

Lemma lstrip_split s : ∃ ws, s = ws +:+ lstrip s ∧ all_space ws = true.
Proof.
  induction s as [| a s (ws & Hs & Hws)]; [by exists "" |].
  simpl. destruct (isspace a) eqn:Ha.
  - exists (String a ws). rewrite str_app_cons, <- Hs. split; [done |].
    simpl. by rewrite Ha.
  - by exists "".
Qed.

Lemma lstrip_spaces n s : lstrip (spaces n +:+ s) = lstrip s.
Proof. induction n as [| n IH]; [done |]. apply IH. Qed.

Lemma contains_char_digits c ds :
  is_digit c = false → all_digits ds = true → contains_char c ds = false.
Proof.
  intros Hc. induction ds as [| a ds IH]; [done |].
  simpl. intros [Ha Hds]%andb_true_iff.
  rewrite IH by done. rewrite orb_false_r.
  apply bool_decide_eq_false_2. intros ->. congruence.
Qed.

Lemma contains_char_spaces c n :
  c ≠ " "%char → contains_char c (spaces n) = false.
Proof.
  intros Hc. induction n as [| n IH]; [done |].
  simpl. rewrite IH, orb_false_r. apply bool_decide_eq_false_2. congruence.
Qed.

Lemma is_digit_not_space c : is_digit c = true → isspace c = false.
Proof.
  unfold is_digit, isspace. set (n := Ascii.N_of_ascii c).
  intros [?%N.leb_le ?%N.leb_le]%andb_true_iff.
  destruct (N.leb_spec 9 n), (N.leb_spec n 13), (N.leb_spec 28 n),
    (N.leb_spec n 32), (N.eqb_spec n 133), (N.eqb_spec n 160);
    simpl; try done; lia.
Qed.

Lemma last_is_space_digits t ds :
  all_digits ds = true → nonempty ds = true →
  last_is_space (t +:+ ds) = false.
Proof.
  intros Hds Hne. destruct ds as [| a ds]; [done |].
  rewrite last_is_space_app. clear Hne t.
  revert a Hds. induction ds as [| b ds IH]; intros a Hds.
  - simpl in *. rewrite andb_true_r in Hds. by apply is_digit_not_space.
  - simpl in Hds. apply andb_true_iff in Hds as [_ Hds].
    change (last_is_space (String a (String b ds)))
      with (last_is_space (String b ds)). by apply IH.
Qed.

Lemma match_loopback_mapping_rendered (h c : Z) :
  0 ≤ h → 0 ≤ c →
  match_loopback_mapping ("- 127.0.0.1:" +:+ pretty h +:+ ":" +:+ pretty c)
  = Some (h, c).
Proof.
  intros Hh Hc.
  destruct (pretty_digits h Hh) as (Hhd & Hhn & Hhv).
  destruct (pretty_digits c Hc) as (Hcd & Hcn & Hcv).
  change ("- 127.0.0.1:" +:+ pretty h +:+ ":" +:+ pretty c)
    with (String "-" (String " " ("127.0.0.1:" +:+ pretty h +:+ ":"
                                    +:+ pretty c))).
  cbn [match_loopback_mapping]. rewrite bool_decide_eq_true_2 by done.
  change (lstrip (String " " ?x)) with (lstrip x).
  assert (Hl : lstrip ("127.0.0.1:" +:+ pretty h +:+ ":" +:+ pretty c)
               = "127.0.0.1:" +:+ pretty h +:+ ":" +:+ pretty c) by done.
  rewrite Hl, drop_prefix_app.
  change (pretty h +:+ ":" +:+ pretty c)
    with (pretty h +:+ String ":" (pretty c)).
  rewrite take_digits_app by done.
  rewrite <- (str_app_nil_r (pretty c)) at 1.
  rewrite take_digits_app by done.
  rewrite Hhn, Hcn, bool_decide_eq_true_2 by done. simpl.
  by rewrite Hhv, Hcv.
Qed.

Lemma strip_rendered_mapping n (h c : Z) :
  0 ≤ h → 0 ≤ c →
  strip (render_mapping (n, (h, c)))
  = "- 127.0.0.1:" +:+ pretty h +:+ ":" +:+ pretty c.
Proof.
  intros Hh Hc.
  destruct (pretty_digits c Hc) as (Hcd & Hcn & _).
  unfold render_mapping, strip. simpl fst. simpl snd.
  rewrite lstrip_spaces.
  assert (Hl : ∀ x, lstrip ("- 127.0.0.1:" +:+ x) = "- 127.0.0.1:" +:+ x)
    by done.
  rewrite Hl.
  replace ("- 127.0.0.1:" +:+ pretty h +:+ ":" +:+ pretty c +:+ String LF "")
    with (("- 127.0.0.1:" +:+ pretty h +:+ ":" +:+ pretty c)
            +:+ String LF "")
    by (by rewrite !str_app_assoc).
  rewrite rstrip_app_space by done.
  apply rstrip_id.
  replace ("- 127.0.0.1:" +:+ pretty h +:+ ":" +:+ pretty c)
    with (("- 127.0.0.1:" +:+ pretty h +:+ ":") +:+ pretty c)
    by (by rewrite !str_app_assoc).
  by apply last_is_space_digits.
Qed.

Lemma text_lines_render_mappings (items : list (nat * (Z * Z))) :
  Forall (λ it, 0 ≤ it.2.1 ∧ 0 ≤ it.2.2) items →
  text_lines (render_mappings items) = render_mapping <$> items.
Proof.
  induction 1 as [| [n [h c]] items [Hh Hc] _ IH]; [done |].
  simpl in Hh, Hc. cbn [render_mappings fmap list_fmap].
  destruct (pretty_digits h Hh) as (Hhd & _ & _).
  destruct (pretty_digits c Hc) as (Hcd & _ & _).
  unfold render_mapping at 1. simpl fst. simpl snd.
  replace ((spaces n +:+ "- 127.0.0.1:" +:+ pretty h +:+ ":" +:+ pretty c
              +:+ String LF "") +:+ render_mappings items)
    with ((spaces n +:+ "- 127.0.0.1:" +:+ pretty h +:+ ":" +:+ pretty c)
            +:+ String LF (render_mappings items))
    by (by rewrite !str_app_assoc).
  rewrite text_lines_line, IH.
  - unfold render_mapping. simpl. by rewrite !str_app_assoc.
  - unfold has_line_break. rewrite !contains_char_app.
    rewrite !contains_char_spaces by done.
    rewrite !(contains_char_digits _ (pretty h)) by done.
    by rewrite !(contains_char_digits _ (pretty c)) by done.
Qed.

(** X6.  The parser reads back the loopback mappings of a private override
    file: for a file that lists items [- 127.0.0.1:HOST:CONTAINER] with
    non-negative ports, each on a line of its own and indented by spaces,
    it returns the pairs (HOST, CONTAINER) in the order of the file. *)
Theorem parse_private_override_ports_round_trip path w
    (items : list (nat * (Z * Z))) :
  Forall (λ it, 0 ≤ it.2.1 ∧ 0 ≤ it.2.2) items →
  fs w !! path = Some (render_mappings items) →
  parse_private_override_ports path w = (Ok (snd <$> items), w).
Proof.
  intros Hitems Hfile. unfold parse_private_override_ports.
  rewrite Hfile, text_lines_render_mappings by done.
  do 2 f_equal. clear Hfile.
  induction Hitems as [| [n [h c]] items [Hh Hc] _ IH]; [done |].
  simpl in Hh, Hc. cbn [fmap list_fmap omap list_omap snd].
  rewrite strip_rendered_mapping, match_loopback_mapping_rendered by done.
  by rewrite IH.
Qed.

(** X7.  The parser takes nothing but loopback mappings: a stripped line
    gives a pair only if it is a dash, whitespace, the text [127.0.0.1:],
    digits, a colon and digits, possibly followed by more text; the pair
    holds the values of the two digit strings, which are not negative.  A
    mapping published on another address or on all interfaces gives
    nothing. *)
Theorem match_loopback_mapping_sound line (h c : Z) :
  match_loopback_mapping line = Some (h, c) →
  ∃ ws hd cd rest,
    line = "-" +:+ ws +:+ "127.0.0.1:" +:+ hd +:+ ":" +:+ cd +:+ rest
    ∧ all_space ws = true
    ∧ all_digits hd = true ∧ nonempty hd = true
    ∧ all_digits cd = true ∧ nonempty cd = true
    ∧ h = int_of_digits hd ∧ c = int_of_digits cd
    ∧ 0 ≤ h ∧ 0 ≤ c.
Proof.
  unfold match_loopback_mapping.
  destruct line as [| a rest0]; [done |].
  case_bool_decide as Ha; [subst a | done].
  destruct (lstrip_split rest0) as (ws & Hrest0 & Hws).
  destruct (drop_prefix _ (lstrip rest0)) as [r1 |] eqn:Hdrop; [| done].
  apply drop_prefix_split in Hdrop.
  destruct (take_digits r1) as [hd r2] eqn:Hhd.
  apply take_digits_split in Hhd as [-> Hhd].
  destruct r2 as [| c2 r3]; [done |].
  destruct (take_digits r3) as [cd rest] eqn:Hcd.
  apply take_digits_split in Hcd as [-> Hcd].
  destruct (nonempty hd) eqn:Hhn; [| done].
  case_bool_decide as Hc2; [subst c2 | done].
  destruct (nonempty cd) eqn:Hcn; [| done].
  simpl. intros [= <- <-].
  exists ws, hd, cd, rest.
  split.
  { rewrite Hdrop in Hrest0. rewrite Hrest0. reflexivity. }
  repeat split; try done; by apply int_of_digits_from_nonneg.
Qed.

Lemma match_loopback_mapping_sound_witness :
  match_loopback_mapping "- 127.0.0.1:3001:3000/tcp" = Some (3001, 3000)
  ∧ ∃ ws hd cd rest,
      "- 127.0.0.1:3001:3000/tcp"
        = "-" +:+ ws +:+ "127.0.0.1:" +:+ hd +:+ ":" +:+ cd +:+ rest
      ∧ all_space ws = true
      ∧ all_digits hd = true ∧ nonempty hd = true
      ∧ all_digits cd = true ∧ nonempty cd = true
      ∧ 3001 = int_of_digits hd ∧ 3000 = int_of_digits cd
      ∧ 0 ≤ 3001 ∧ 0 ≤ 3000.
Proof.
  assert (Hm : match_loopback_mapping "- 127.0.0.1:3001:3000/tcp"
               = Some (3001, 3000)) by reflexivity.
  split; [exact Hm |].
  exact (match_loopback_mapping_sound _ 3001 3000 Hm).
Defined.

End ParserExtras.

Lemma parse_private_override_ports_round_trip_witness :
  let items := [(6%nat, (3001, 3001)); (6%nat, (8080, 80))] in
  let w := sample_world {[ "/srv/localai/docker-compose.override.private.yml"
                             := render_mappings items ]} in
  Forall (λ it : nat * (Z * Z), 0 ≤ it.2.1 ∧ 0 ≤ it.2.2) items
  ∧ fs w !! "/srv/localai/docker-compose.override.private.yml"
    = Some (render_mappings items)
  ∧ parse_private_override_ports
      "/srv/localai/docker-compose.override.private.yml" w
    = (Ok [(3001, 3001); (8080, 80)], w).
Proof.
  intros items w.
  assert (Hitems : Forall (λ it : nat * (Z * Z), 0 ≤ it.2.1 ∧ 0 ≤ it.2.2)
                     items)
    by (repeat first [apply Forall_nil_2
                     | apply Forall_cons_2; [simpl; lia |]]).
  assert (Hfile : fs w !! "/srv/localai/docker-compose.override.private.yml"
                  = Some (render_mappings items)) by reflexivity.
  split; [exact Hitems |]. split; [exact Hfile |].
  exact (parse_private_override_ports_round_trip _ w items Hitems Hfile).
Defined.

(** ** Command Runner: the other outcomes *)

Section RunnerExtras.
Variable H : Host.

(** X8.  Let the child of [run_command] end with a non-zero exit code.
    With [ignore_errors] the call returns the result with that code and
    the captured output.  Without it the call raises
    [CommandExecutionError] through the handler for unexpected errors:
    the exit code of the error is -1, not the code of the child, its
    stdout is empty, and the child's code appears only in the message. *)
Theorem run_command_nonzero_exit cmd cwd eo timeout w env w1 rc so se
    files :
  run_command_env cmd eo w = (Ok env, w1) →
  exec H w1 {| sp_cmd := cmd; sp_cwd := cwd; sp_env := env;
               sp_timeout := timeout |} = (Exited rc so se, files) →
  rc ≠ 0 →
  (run_command H cmd cwd eo true timeout w).1 =
    Ok (Some {| returncode := rc; stdout := so; stderr := se |})
  ∧ (run_command H cmd cwd eo false timeout w).1 =
      Raise (CommandExecutionError
               ("Unexpected error running command: "
                  +:+ py_str H (CalledProcessError rc cmd))
               cmd (-1) "" (py_str H (CalledProcessError rc cmd))).
Proof.
  intros Hprel Hexec Hrc.
  unfold run_command, bind. rewrite Hprel.
  unfold try_except, subprocess_run, spawn, bind. rewrite Hexec.
  apply Z.eqb_neq in Hrc. simpl. rewrite Hrc. simpl.
  split; [| done].
  unfold when, print, ret. by destruct (nonempty so); simpl;
    rewrite ?andb_false_r.
Qed.

(** X9.  Let the executable of a non-empty command not be found.  With
    [ignore_errors] the call returns [None]; without it the call raises
    [CommandExecutionError] with exit code -1 and a message that names
    the first word of the command. *)
Theorem run_command_not_found cmd cwd eo timeout w env w1 text files :
  cmd ≠ [] →
  run_command_env cmd eo w = (Ok env, w1) →
  exec H w1 {| sp_cmd := cmd; sp_cwd := cwd; sp_env := env;
               sp_timeout := timeout |} = (NotFound text, files) →
  (run_command H cmd cwd eo true timeout w).1 = Ok None
  ∧ (run_command H cmd cwd eo false timeout w).1 =
      Raise (CommandExecutionError
               ("Command not found: " +:+ hd "" cmd
                  +:+ ". Please ensure it's installed and in your PATH.")
               cmd (-1) "" (py_str H (FileNotFoundError text))).
Proof.
  intros _ Hprel Hexec.
  unfold run_command, bind. rewrite Hprel.
  unfold try_except, subprocess_run, spawn, bind. rewrite Hexec.
  by split.
Qed.

(** X10.  Whatever the child does, [run_command] either returns or raises
    a [CommandExecutionError] for its command with exit code -1 and empty
    stdout; no [CalledProcessError], [TimeoutExpired] or
    [FileNotFoundError] leaves it.  With [ignore_errors] it never raises;
    without it, what it returns is a result with exit code 0. *)
Theorem run_command_raises_only_its_error cmd cwd eo ie timeout w :
  match (run_command H cmd cwd eo ie timeout w).1 with
  | Ok r => ie = true ∨ ∃ p, r = Some p ∧ returncode p = 0
  | Raise e =>
      ie = false ∧ ∃ msg se, e = CommandExecutionError msg cmd (-1) "" se
  end.
Proof.
  destruct (run_command_env_total cmd eo w) as (env & w1 & Hprel & _ & _).
  destruct (run_command H cmd cwd eo ie timeout w) as [r w'] eqn:Erun.
  unfold run_command, bind in Erun. rewrite Hprel in Erun.
  unfold try_except, subprocess_run, spawn, bind in Erun.
  destruct (exec H w1 _) as [b files].
  destruct b as [rc so se | | text | text], ie; simpl in Erun;
    repeat (match type of Erun with
            | context [negb (?rc =? 0)] =>
                destruct (Z.eqb_spec rc 0); simpl in Erun
            | context [nonempty ?s] => destruct (nonempty s); simpl in Erun
            end);
    unfold when, print, raise, ret in Erun; simpl in Erun;
    injection Erun as <- <-; simpl; eauto 10.
Qed.

End RunnerExtras.

Lemma run_command_nonzero_exit_witness :
  let H := sample_host (λ _, Exited 2 "out" "err") nobody_answers ∅ in
  let w := sample_world ∅ in
  (run_command H ["docker"; "info"] None None true None w).1 =
    Ok (Some {| returncode := 2; stdout := "out"; stderr := "err" |})
  ∧ (run_command H ["docker"; "info"] None None false None w).1 =
      Raise (CommandExecutionError
               "Unexpected error running command: error"
               ["docker"; "info"] (-1) "" "error").
Proof.
  intros H w.
  apply (run_command_nonzero_exit H ["docker"; "info"] None None None w
           {[ "PATH" := "/usr/bin" ]}
           (run_command_env ["docker"; "info"] None w).2 2 "out" "err" ∅).
  - by vm_compute.
  - reflexivity.
  - done.
Defined.

Lemma run_command_not_found_witness :
  let H := sample_host (λ _, NotFound "No such file or directory: 'docker'")
             nobody_answers ∅ in
  let w := sample_world ∅ in
  (run_command H ["docker"; "info"] None None true None w).1 = Ok None
  ∧ (run_command H ["docker"; "info"] None None false None w).1 =
      Raise (CommandExecutionError
               "Command not found: docker. Please ensure it's installed and in your PATH."
               ["docker"; "info"] (-1) "" "error").
Proof.
  intros H w.
  apply (run_command_not_found H ["docker"; "info"] None None None w
           {[ "PATH" := "/usr/bin" ]}
           (run_command_env ["docker"; "info"] None w).2
           "No such file or directory: 'docker'" ∅).
  - done.
  - by vm_compute.
  - reflexivity.
Defined.

(** ** Stack Launcher: the phases around the main stack *)

Section PhaseExtras.
Variable H : Host.

(** A handler for [CalledProcessError] around [run_command] never runs:
    what [run_command] raises is a [CommandExecutionError]. *)
Lemma except_CalledProcessError_run_command cmd cwd eo ie timeout
    (h : Exn → M unit) w :
  except_CalledProcessError
    (run_command H cmd cwd eo ie timeout ;;; ret tt) h w =
  (run_command H cmd cwd eo ie timeout ;;; ret tt) w.
Proof.
  unfold except_CalledProcessError, try_except, bind.
  destruct (run_command_outcome H cmd cwd eo ie timeout w) as (env & _ & Hr).
  destruct (run_command H cmd cwd eo ie timeout w) as [[r | e] w1];
    simpl in *; [done |].
  by destruct Hr as (msg & so & se & ->).
Qed.

(** When [run_command] returns without [ignore_errors], its child has
    ended with exit code 0. *)
Lemma run_command_ok_exit0 cmd cwd eo timeout w r :
  (run_command H cmd cwd eo false timeout w).1 = Ok r →
  ∃ w1 sp so se, sp_cmd sp = cmd ∧ (exec H w1 sp).1 = Exited 0 so se.
Proof.
  destruct (run_command_env_total cmd eo w) as (env & w1 & Hprel & _ & _).
  unfold run_command, bind. rewrite Hprel.
  unfold try_except, subprocess_run, spawn, bind.
  set (sp := {| sp_cmd := cmd; sp_cwd := cwd; sp_env := env;
                sp_timeout := timeout |}).
  destruct (exec H w1 sp) as [b files] eqn:Hexec.
  destruct b as [rc so se | | text | text]; simpl; try done.
  destruct (Z.eqb_spec rc 0) as [-> | Hrc]; simpl; [| done].
  intros _. exists w1, sp, so, se. by rewrite Hexec.
Qed.

Lemma stop_existing_containers_body profile w :
  stop_existing_containers H profile w =
    compose_phase H
      "Stopping and removing existing containers for the unified project 'localai'..."
      (down_cmd profile) w.
Proof.
  unfold stop_existing_containers, compose_phase, docker_socket_override,
    environ_get, bind at 1 2 3, print, ret.
  simpl. apply except_CalledProcessError_run_command.
Qed.

Lemma start_supabase_body environment w :
  start_supabase H environment w =
    compose_phase H "Starting Supabase services..."
      (supabase_up_cmd environment) w.
Proof.
  unfold start_supabase, compose_phase, docker_socket_override,
    environ_get, bind at 1 2 3, print, ret.
  simpl. apply except_CalledProcessError_run_command.
Qed.

Lemma start_neo4j_body w :
  start_neo4j H w =
    compose_phase H "Starting Neo4j service (if present in compose)..."
      neo4j_up_cmd w.
Proof.
  unfold start_neo4j, compose_phase, docker_socket_override,
    environ_get, bind at 1 2 3, print, ret.
  simpl. apply except_CalledProcessError_run_command.
Qed.

(** X11.  The handlers for [CalledProcessError] in
    [stop_existing_containers], [start_supabase] and [start_neo4j] never
    run: each function behaves as its [try] body alone.  So a failed
    [docker compose down] is not passed over but raises; a failed start of
    Supabase raises without the hints of the handler; and [start_neo4j]
    never falls back to the full [docker compose up], it raises. *)
Theorem failure_handlers_never_run :
  (∀ profile w,
     stop_existing_containers H profile w =
       compose_phase H
         "Stopping and removing existing containers for the unified project 'localai'..."
         (down_cmd profile) w)
  ∧ (∀ environment w,
       start_supabase H environment w =
         compose_phase H "Starting Supabase services..."
           (supabase_up_cmd environment) w)
  ∧ (∀ w,
       start_neo4j H w =
         compose_phase H "Starting Neo4j service (if present in compose)..."
           neo4j_up_cmd w).
Proof.
  split; [| split]; intros.
  - apply stop_existing_containers_body.
  - apply start_supabase_body.
  - apply start_neo4j_body.
Qed.

(** A phase, in a world where [os.environ] exists: one child. *)
Lemma compose_phase_child line cmd w :
  is_Some (dicts w !! os_environ) →
  spawned (compose_phase H line cmd w).2 = spawned w ++ [compose_child w cmd].
Proof.
  intros Henv.
  unfold compose_phase, docker_socket_override, environ_get, bind at 1 2 3,
    print, ret.
  simpl.
  set (w0 := {| fs := fs w; dicts := dicts w; out := out w ++ [line];
                spawned := spawned w; temps := temps w |}).
  set (eo := Some _).
  destruct (run_command_spawns_once H cmd None eo false None w0 Henv)
    as (Hsp & _ & _).
  unfold bind.
  destruct (run_command H cmd None eo false None w0) as [[r | e] w1];
    simpl in *; rewrite Hsp; unfold compose_child, docker_socket;
    by rewrite insert_union_singleton_l.
Qed.

(** X12.  In a world where [os.environ] exists, each of
    [stop_existing_containers], [start_supabase] and [start_neo4j] starts
    exactly one child, whatever that child does: its own compose command,
    without working directory and without timeout, in the ambient
    environment with [DOCKER_SOCKET_LOCATION] set to the ambient value or,
    when there is none, to [/var/run/docker.sock]. *)
Theorem compose_phases_start_one_child profile environment w :
  is_Some (dicts w !! os_environ) →
  spawned (stop_existing_containers H profile w).2 =
    spawned w ++ [compose_child w (down_cmd profile)]
  ∧ spawned (start_supabase H environment w).2 =
      spawned w ++ [compose_child w (supabase_up_cmd environment)]
  ∧ spawned (start_neo4j H w).2 =
      spawned w ++ [compose_child w neo4j_up_cmd].
Proof.
  intros Henv.
  rewrite stop_existing_containers_body, start_supabase_body,
    start_neo4j_body.
  by rewrite !compose_phase_child.
Qed.

(** X13.  Take a launch, not a preflight, whose preparation returns, on a
    host where [docker compose ... down] fails whenever it is run.  The
    launch fails, and after the [down] command no other child is started:
    no service is brought up. *)
Theorem launch_aborts_when_down_fails args w w1 :
  preflight args = false →
  (host_clone H ;;; prepare_supabase_env H ;;; host_searxng H) w
    = (Ok tt, w1) →
  always_fails H (down_cmd (Some (profile args))) →
  ∃ w', launch H args w = (Failed, w')
    ∧ sp_cmd <$> spawned w' =
        (sp_cmd <$> spawned w1) ++ [down_cmd (Some (profile args))].
Proof.
  intros Hpre Hsetup Hfail.
  apply bind_ok_inv in Hsetup as ([] & wa & Ha & Hsetup).
  apply bind_ok_inv in Hsetup as ([] & wb & Hb & Hc).
  unfold launch, main. rewrite Hpre.
  rewrite (bind_run _ _ _ _ _ Ha), (bind_run _ _ _ _ _ Hb),
    (bind_run _ _ _ _ _ Hc).
  unfold bind at 1.
  unfold stop_existing_containers, docker_socket_override, environ_get,
    bind at 1 2 3, print, ret. simpl.
  rewrite except_CalledProcessError_run_command.
  fold (down_cmd (Some (profile args))).
  set (w0 := {| fs := fs w1; dicts := _; out := _; spawned := spawned w1;
                temps := _ |}).
  set (eo := Some {[ _ := _ ]}).
  destruct (run_command_outcome H (down_cmd (Some (profile args))) None eo
              false None w0) as (env & Hsp & _).
  pose proof (run_command_ok_exit0 (down_cmd (Some (profile args))) None eo
                None w0) as Hok.
  unfold bind.
  destruct (run_command H _ None eo false None w0) as [[r | e] w2];
    simpl in *.
  - destruct (Hok r eq_refl) as (wx & sp & so & se & Hcmd & Hexec).
    by destruct (Hfail wx sp so se Hcmd).
  - eexists. split; [done |]. by rewrite Hsp, fmap_app.
Qed.

End PhaseExtras.

Lemma compose_phases_start_one_child_witness :
  let H := sample_host all_time_out nobody_answers ∅ in
  let w := sample_world ∅ in
  spawned (stop_existing_containers H (Some "cpu") w).2 =
    spawned w ++ [compose_child w (down_cmd (Some "cpu"))]
  ∧ spawned (start_supabase H (Some "private") w).2 =
      spawned w ++ [compose_child w (supabase_up_cmd (Some "private"))]
  ∧ spawned (start_neo4j H w).2 =
      spawned w ++ [compose_child w neo4j_up_cmd].
Proof.
  intros H w.
  apply (compose_phases_start_one_child H (Some "cpu") (Some "private") w).
  by eexists.
Defined.

Lemma launch_aborts_when_down_fails_witness :
  let H := sample_host down_fails nobody_answers ∅ in
  let w := sample_world {[ "/srv/localai/.env" := complete_env ]} in
  ∃ w', launch H sample_args w = (Failed, w')
    ∧ sp_cmd <$> spawned w' =
        (sp_cmd <$> spawned (prepare_supabase_env H w).2)
          ++ [down_cmd (Some "cpu")].
Proof.
  intros H w.
  apply (launch_aborts_when_down_fails H sample_args w
           (prepare_supabase_env H w).2).
  - reflexivity.
  - by vm_compute.
  - intros w' sp so se Hcmd. simpl. rewrite Hcmd. by vm_compute.
Defined.

(** ** Environment Materializer: a missing root file *)

Section MaterializerExtras.
Variable H : Host.

Lemma missing_keys_empty : missing_keys ∅ = required.
Proof. by vm_compute. Qed.

Lemma path_exists_false p w :
  fs w !! p = None → path_exists p w = (Ok false, w).
Proof.
  intros Hp. unfold path_exists. rewrite Hp.
  by rewrite bool_decide_eq_false_2 by (by intros [? ?]).
Qed.

Lemma path_exists_true p w :
  is_Some (fs w !! p) → path_exists p w = (Ok true, w).
Proof. intros Hp. unfold path_exists. by rewrite bool_decide_eq_true_2. Qed.

Lemma read_env_missing p w : fs w !! p = None → read_env p w = (Ok ∅, w).
Proof. intros Hp. unfold read_env. by rewrite Hp. Qed.

Lemma generate_env_if_missing_nothing w :
  fs w !! gen_script H = None →
  fs w !! gen_fallback H = None →
  generate_env_if_missing H w = (Ok tt, w).
Proof.
  intros Hgen Hfb. unfold generate_env_if_missing.
  rewrite (bind_run _ _ _ _ _ (path_exists_false _ _ Hgen)).
  change (when false _) with (@ret unit tt).
  rewrite (bind_run _ _ w tt w eq_refl).
  unfold bind at 1. unfold path_exists at 1. simpl.
  rewrite (bind_run _ _ _ _ _ (path_exists_false _ _ Hfb)).
  by rewrite andb_false_r.
Qed.

Lemma regenerate_root_env_nothing w :
  fs w !! root_env H = None →
  fs w !! gen_script H = None →
  fs w !! gen_fallback H = None →
  regenerate_root_env H w =
    (Ok tt,
     with_out w
       ["No .env found in repo root; attempting to auto-generate one...";
        "Some required .env keys are missing or empty: "
          +:+ repr_list required;
        "Attempting to regenerate .env once more...";
        "Warning: after auto-generation, these keys are still missing: "
          +:+ repr_list required;
        "Docker compose may fail; please inspect .env or run scripts/generate_env.py manually."]).
Proof.
  intros Hroot Hgen Hfb.
  unfold regenerate_root_env.
  rewrite (bind_run _ _ _ _ _ (path_exists_false _ _ Hroot)).
  change (when (negb false) ?m) with m.
  rewrite (bind_run _ _ w tt (with_out w [_]))
    by (rewrite (bind_run _ _ _ _ _ (print_with_out _ _));
        by apply generate_env_if_missing_nothing).
  rewrite (bind_run _ _ _ _ _ (read_env_missing _ (with_out w _) Hroot)).
  rewrite missing_keys_empty.
  change (when (nonnil required) ?m) with m.
  rewrite (bind_run _ _ _ _ _ (print_with_out _ _)), with_out_app.
  rewrite (bind_run _ _ _ _ _ (print_with_out _ _)), with_out_app.
  rewrite (bind_run _ _ _ _ _
             (generate_env_if_missing_nothing (with_out w _) Hgen Hfb)).
  rewrite (bind_run _ _ _ _ _ (read_env_missing _ (with_out w _) Hroot)).
  rewrite (bind_run _ _ _ _ _ (path_exists_false _ (with_out w _) Hfb)).
  rewrite andb_false_r, missing_keys_empty.
  rewrite (bind_run _ _ _ required _ eq_refl).
  change (when (nonnil required) ?m) with m.
  rewrite (bind_run _ _ _ _ _ (print_with_out _ _)), with_out_app.
  by rewrite print_with_out, with_out_app.
Qed.

(** X14.  With no root [.env] and neither generator script in the
    repository, [prepare_supabase_env] returns: it starts no child and
    writes no file, in particular no shadow file, and its only effect is
    five lines of output that name all five required keys as missing. *)
Theorem prepare_supabase_env_without_sources w :
  fs w !! root_env H = None →
  fs w !! gen_script H = None →
  fs w !! gen_fallback H = None →
  prepare_supabase_env H w =
    (Ok tt,
     with_out w
       ["No .env found in repo root; attempting to auto-generate one...";
        "Some required .env keys are missing or empty: "
          +:+ repr_list required;
        "Attempting to regenerate .env once more...";
        "Warning: after auto-generation, these keys are still missing: "
          +:+ repr_list required;
        "Docker compose may fail; please inspect .env or run scripts/generate_env.py manually."]).
Proof.
  intros Hroot Hgen Hfb. unfold prepare_supabase_env.
  rewrite (bind_run _ _ _ _ _ (regenerate_root_env_nothing w Hroot Hgen Hfb)).
  unfold copy_root_env, bind, get_world.
  change (fs (with_out w ?l)) with (fs w). by rewrite Hroot.
Qed.

Lemma except_CalledProcessError_run_command_print cmd cwd eo ie timeout
    line (h : Exn → M unit) w :
  except_CalledProcessError
    (run_command H cmd cwd eo ie timeout ;;; print line) h w =
  (run_command H cmd cwd eo ie timeout ;;; print line) w.
Proof.
  unfold except_CalledProcessError, try_except, bind.
  destruct (run_command_outcome H cmd cwd eo ie timeout w) as (env & _ & Hr).
  destruct (run_command H cmd cwd eo ie timeout w) as [[r | e] w1];
    simpl in *; [done |].
  by destruct Hr as (msg & so & se & ->).
Qed.

(** X15.  Let the root [.env] be missing and the primary generator
    [scripts/gen_all_in_one_env.py] exist, on a host where running it
    fails.  Then [prepare_supabase_env] raises the
    [CommandExecutionError] of that run, and the generator is the only
    child started: the fallback generator is not tried. *)
Theorem failed_generator_aborts w :
  fs w !! root_env H = None →
  is_Some (fs w !! gen_script H) →
  always_fails H [sys_executable H; gen_script H] →
  ∃ msg so se w',
    prepare_supabase_env H w =
      (Raise (CommandExecutionError msg [sys_executable H; gen_script H]
                (-1) so se), w')
    ∧ sp_cmd <$> spawned w' =
        (sp_cmd <$> spawned w) ++ [[sys_executable H; gen_script H]].
Proof.
  intros Hroot Hgen Hfail.
  unfold prepare_supabase_env, regenerate_root_env.
  unfold bind at 1.
  rewrite (bind_run _ _ _ _ _ (path_exists_false _ _ Hroot)).
  change (when (negb false) ?m) with m.
  unfold bind at 1.
  rewrite (bind_run _ _ _ _ _ (print_with_out _ _)).
  unfold generate_env_if_missing.
  rewrite (bind_run _ _ _ _ _ (path_exists_true _ (with_out w _) Hgen)).
  change (when true ?m) with m.
  unfold bind at 1.
  rewrite (bind_run _ _ _ _ _ (print_with_out _ _)), with_out_app.
  rewrite except_CalledProcessError_run_command_print.
  set (cmd := [sys_executable H; gen_script H]) in *.
  set (w0 := with_out w _).
  destruct (run_command_outcome H cmd (Some (repo_dir H)) None false None w0)
    as (env & Hsp & Hr).
  pose proof (run_command_ok_exit0 H cmd (Some (repo_dir H)) None None w0)
    as Hok.
  unfold bind.
  destruct (run_command H cmd _ None false None w0) as [[r | e] w1];
    simpl in *.
  - destruct (Hok r eq_refl) as (wx & sp & so & se & Hcmd & Hexec).
    by destruct (Hfail wx sp so se Hcmd).
  - destruct Hr as (msg & so & se & ->).
    exists msg, so, se, w1. split; [done |]. by rewrite Hsp, fmap_app.
Qed.

Lemma read_env_present p w text :
  fs w !! p = Some text → read_env p w = (Ok (read_env_text text), w).
Proof. intros Hp. unfold read_env. by rewrite Hp. Qed.

Lemma generate_env_if_missing_fallback w o se files :
  fs w !! root_env H = None →
  fs w !! gen_script H = None →
  is_Some (fs w !! gen_fallback H) →
  exec H
    (with_out w
       ["Generating .env from scripts/generate_env.py (fallback)..."])
    {| sp_cmd := [sys_executable H; gen_fallback H]; sp_cwd := None;
       sp_env := environ w; sp_timeout := None |}
    = (Exited 0 o se, files) →
  generate_env_if_missing H w =
    (Ok tt,
     {| fs := <[root_env H := o]> files; dicts := dicts w;
        out := out w ++
                 ["Generating .env from scripts/generate_env.py (fallback)...";
                  "Wrote generated .env to repo root"];
        spawned := spawned w ++
                     [{| sp_cmd := [sys_executable H; gen_fallback H];
                         sp_cwd := None; sp_env := environ w;
                         sp_timeout := None |}];
        temps := temps w |}).
Proof.
  intros Hroot Hgen Hfb Hexec.
  unfold generate_env_if_missing.
  rewrite (bind_run _ _ _ _ _ (path_exists_false _ _ Hgen)).
  change (when false ?m) with (@ret unit tt).
  rewrite (bind_run _ _ _ tt _ eq_refl).
  rewrite (bind_run _ _ _ _ _ (path_exists_false _ _ Hroot)).
  rewrite (bind_run _ _ _ _ _ (path_exists_true _ _ Hfb)).
  change (when (negb false && true) ?m) with m.
  rewrite (bind_run _ _ _ _ _ (print_with_out _ _)).
  unfold except_Exception, try_except, check_output, subprocess_run, spawn,
    bind, get_world.
  change (environ (with_out w ?l)) with (environ w).
  rewrite Hexec. simpl. by rewrite <- app_assoc.
Qed.

(** X16.  Let the root [.env] and the primary generator be missing, and
    let the fallback generator [scripts/generate_env.py] exist, end with
    exit code 0 and print a text [o] that gives every required key a
    non-empty value.  Then [prepare_supabase_env] returns after that one
    child, run in the ambient environment, and [o] is the text of both the
    root file and the shadow file, on top of the files the child left. *)
Theorem fallback_generator_output_is_installed w o se files :
  fs w !! root_env H = None →
  fs w !! gen_script H = None →
  is_Some (fs w !! gen_fallback H) →
  exec H
    (with_out w
       ["No .env found in repo root; attempting to auto-generate one...";
        "Generating .env from scripts/generate_env.py (fallback)..."])
    {| sp_cmd := [sys_executable H; gen_fallback H]; sp_cwd := None;
       sp_env := environ w; sp_timeout := None |}
    = (Exited 0 o se, files) →
  missing_keys (read_env_text o) = [] →
  ∃ w', prepare_supabase_env H w = (Ok tt, w')
    ∧ fs w' = <[supabase_env H := o]> (<[root_env H := o]> files)
    ∧ spawned w' =
        spawned w ++ [{| sp_cmd := [sys_executable H; gen_fallback H];
                         sp_cwd := None; sp_env := environ w;
                         sp_timeout := None |}]
    ∧ out w' =
        out w ++
          ["No .env found in repo root; attempting to auto-generate one...";
           "Generating .env from scripts/generate_env.py (fallback)...";
           "Wrote generated .env to repo root";
           "Copying .env in root to .env in supabase/docker..."].
Proof.
  intros Hroot Hgen Hfb Hexec Hcomplete.
  unfold prepare_supabase_env, regenerate_root_env.
  unfold bind at 1.
  rewrite (bind_run _ _ _ _ _ (path_exists_false _ _ Hroot)).
  change (when (negb false) ?m) with m.
  unfold bind at 1.
  rewrite (bind_run _ _ _ _ _ (print_with_out _ _)).
  rewrite (generate_env_if_missing_fallback (with_out w _) o se files
             Hroot Hgen Hfb)
    by (by rewrite with_out_app).
  erewrite (bind_run (read_env _)) by (apply read_env_present, lookup_insert_eq).
  rewrite Hcomplete.
  change (when (nonnil []) ?m) with (@ret unit tt).
  unfold ret, copy_root_env, bind, get_world. simpl.
  rewrite lookup_insert_eq. simpl.
  eexists. split; [reflexivity |]. simpl.
  by rewrite <- !app_assoc.
Qed.

End MaterializerExtras.

Lemma prepare_supabase_env_without_sources_witness :
  let H := sample_host all_succeed nobody_answers ∅ in
  let w := sample_world ∅ in
  prepare_supabase_env H w =
    (Ok tt,
     with_out w
       ["No .env found in repo root; attempting to auto-generate one...";
        "Some required .env keys are missing or empty: "
          +:+ repr_list required;
        "Attempting to regenerate .env once more...";
        "Warning: after auto-generation, these keys are still missing: "
          +:+ repr_list required;
        "Docker compose may fail; please inspect .env or run scripts/generate_env.py manually."]).
Proof.
  intros H w.
  apply (prepare_supabase_env_without_sources H w); by vm_compute.
Defined.

Lemma failed_generator_aborts_witness :
  let H := sample_host generator_fails nobody_answers ∅ in
  let w := sample_world
             {[ "/srv/localai/scripts/gen_all_in_one_env.py" := "import os" ]} in
  ∃ msg so se w',
    prepare_supabase_env H w =
      (Raise (CommandExecutionError msg
                ["/usr/bin/python3";
                 "/srv/localai/scripts/gen_all_in_one_env.py"] (-1) so se),
       w')
    ∧ sp_cmd <$> spawned w' =
        [["/usr/bin/python3"; "/srv/localai/scripts/gen_all_in_one_env.py"]].
Proof.
  intros H w.
  apply (failed_generator_aborts H w).
  - by vm_compute.
  - by eexists.
  - intros w' sp so se Hcmd. simpl. rewrite Hcmd. by vm_compute.
Defined.

Lemma fallback_generator_output_is_installed_witness :
  let H := sample_host fallback_prints nobody_answers ∅ in
  let w := sample_world
             {[ "/srv/localai/scripts/generate_env.py" := "import secrets" ]} in
  ∃ w', prepare_supabase_env H w = (Ok tt, w')
    ∧ fs w' = <[supabase_env H := complete_env]>
                (<[root_env H := complete_env]> (fs w))
    ∧ spawned w' =
        spawned w ++ [{| sp_cmd := [sys_executable H; gen_fallback H];
                         sp_cwd := None; sp_env := environ w;
                         sp_timeout := None |}]
    ∧ out w' =
        out w ++
          ["No .env found in repo root; attempting to auto-generate one...";
           "Generating .env from scripts/generate_env.py (fallback)...";
           "Wrote generated .env to repo root";
           "Copying .env in root to .env in supabase/docker..."].
Proof.
  intros H w.
  apply (fallback_generator_output_is_installed H w complete_env "" (fs w)).
  - by vm_compute.
  - by vm_compute.
  - by eexists.
  - reflexivity.
  - by vm_compute.
Defined.

(** ** Environment Materializer: what [read_env] returns *)

Section ReaderExtras.

(** Every line of a text read in text mode is free of line breaks, but
    for the line feed that may end it. *)
Lemma text_lines_shape s :
  Forall (λ l, ∃ b, has_line_break b = false
                    ∧ (l = b ∨ l = b +:+ String LF ""))
    (text_lines s).
Proof.
  induction s as [| c s IH]; [by apply Forall_nil |].
  cbn [text_lines].
  assert (Hlf : ∃ b, has_line_break b = false
                     ∧ (String LF "" = b ∨ String LF "" = b +:+ String LF ""))
    by (exists ""; split; [done | by right]).
  case_bool_decide as Hc; [by apply Forall_cons |].
  case_bool_decide as Hc'.
  - destruct s as [| c2 s]; [by apply Forall_cons |].
    case_bool_decide as Hc2; [| by apply Forall_cons].
    subst c2. cbn [text_lines] in IH.
    by rewrite bool_decide_eq_true_2 in IH by done.
  - assert (Hone : has_line_break (String c "") = false).
    { unfold has_line_break. simpl.
      by rewrite !bool_decide_eq_false_2 by done. }
    destruct (text_lines s) as [| l ls].
    + apply Forall_cons. split; [| done].
      exists (String c ""). split; [done | by left].
    + apply Forall_cons_1 in IH as [(b & Hb & Hl) Hls].
      apply Forall_cons. split; [| done].
      exists (String c b). split.
      * unfold has_line_break in *. simpl.
        rewrite !bool_decide_eq_false_2 by done. done.
      * destruct Hl as [-> | ->]; [by left | by right].
Qed.

Lemma strip_app_LF b : strip (b +:+ String LF "") = strip b.
Proof.
  unfold strip. induction b as [| a b IH]; [done |].
  rewrite str_app_cons. cbn [lstrip].
  destruct (isspace a); [done |].
  rewrite <- str_app_cons. by apply rstrip_app_space.
Qed.

Lemma has_line_break_strip s :
  has_line_break s = false → has_line_break (strip s) = false.
Proof.
  unfold has_line_break. intros [Hlf Hcr]%orb_false_iff.
  apply orb_false_iff. split; apply not_true_is_false;
    intros Hc%contains_char_strip; congruence.
Qed.

Lemma first_is_space_lstrip s : first_is_space (lstrip s) = false.
Proof.
  induction s as [| c s IH]; [done |]. simpl.
  by destruct (isspace c) eqn:Hc; [| simpl].
Qed.

Lemma first_is_space_rstrip s :
  first_is_space s = false → first_is_space (rstrip s) = false.
Proof.
  destruct s as [| c s]; [done |]. simpl. intros Hc.
  destruct (rstrip s); simpl; [by rewrite Hc | done].
Qed.

Lemma last_is_space_rstrip s : last_is_space (rstrip s) = false.
Proof.
  induction s as [| c s IH]; [done |]. simpl.
  destruct (rstrip s) as [| b r].
  - by destruct (isspace c) eqn:Hc; [| simpl].
  - done.
Qed.

(** The pair a line free of line breaks contributes can be written in the
    KEY=VALUE format. *)
Lemma env_entry_ok line k v :
  has_line_break (strip line) = false →
  env_entry line = Some (k, v) → key_ok k ∧ value_ok v.
Proof.
  intros Hbr. unfold env_entry.
  destruct (nonempty (strip line)) eqn:Hne; [| done].
  destruct (startswith_char "#" (strip line)) eqn:Hhash; [done |].
  destruct (contains_char "=" (strip line)) eqn:Heq; [| done]. simpl.
  destruct (split1_contains _ _ Heq) as (k' & v' & Hsplit & Hline & Hk).
  rewrite Hsplit. intros [= <- <-].
  pose proof (first_is_space_rstrip _ (first_is_space_lstrip line)) as Hfirst.
  pose proof (last_is_space_rstrip (lstrip line)) as Hlast.
  fold (strip line) in Hfirst, Hlast.
  rewrite Hline in Hbr, Hhash, Hfirst, Hlast.
  unfold has_line_break in Hbr.
  change (String "=" v') with (String "=" "" +:+ v') in Hbr.
  rewrite !contains_char_app in Hbr.
  apply orb_false_iff in Hbr as [Hlf Hcr].
  apply orb_false_iff in Hlf as [Hlfk Hlf]. apply orb_false_iff in Hlf as [_ Hlfv].
  apply orb_false_iff in Hcr as [Hcrk Hcr]. apply orb_false_iff in Hcr as [_ Hcrv].
  rewrite last_is_space_app in Hlast.
  unfold key_ok, value_ok, has_line_break.
  rewrite Hk, Hlfk, Hcrk, Hlfv, Hcrv. simpl.
  split.
  - destruct k' as [| a k']; [done |]. simpl in *. by rewrite Hfirst, Hhash.
  - destruct v' as [| a v']; [done |].
    change (last_is_space (String a v') = false) in Hlast. by rewrite Hlast.
Qed.

Lemma read_env_lines_ok (lines : list string) (vals : gmap string string) :
  Forall (λ l, has_line_break (strip l) = false) lines →
  map_Forall (λ k v, key_ok k ∧ value_ok v) vals →
  map_Forall (λ k v, key_ok k ∧ value_ok v) (foldl read_env_line vals lines).
Proof.
  intros Hl. revert vals.
  induction Hl as [| l lines Hbr _ IH]; intros vals Hvals; [done |].
  simpl. apply IH. rewrite read_env_line_entry.
  destruct (env_entry l) as [[k v] |] eqn:He; [| done].
  apply map_Forall_insert_2; [| done].
  by apply (env_entry_ok l).
Qed.

Lemma read_env_text_render_map (m : gmap string string) :
  map_Forall (λ k v, key_ok k ∧ value_ok v) m →
  read_env_text (render_env (map_to_list m)) = m.
Proof.
  intros Hm. rewrite read_env_text_render.
  - rewrite foldl_insert_list_to_map.
    rewrite <- (list_to_map_to_list m) at 2.
    apply list_to_map_proper.
    + rewrite fmap_reverse, reverse_Permutation.
      apply NoDup_fst_map_to_list.
    + apply reverse_Permutation.
  - apply Forall_forall. intros [k v] Hkv%elem_of_map_to_list.
    apply (Hm k v Hkv).
Qed.

(** X17.  Whatever the text of the file, the pairs [read_env] makes of it
    can be written in the KEY=VALUE format: no key contains ['='] or a
    line break or starts with whitespace or ['#'], and no value contains a
    line break or ends with whitespace.  So writing the pairs in that
    format and reading them again gives the same pairs: reading brings
    every text to a normal form. *)
Theorem read_env_text_normal_form text :
  map_Forall (λ k v, key_ok k ∧ value_ok v) (read_env_text text)
  ∧ read_env_text (render_env (map_to_list (read_env_text text)))
    = read_env_text text.
Proof.
  assert (Hok : map_Forall (λ k v, key_ok k ∧ value_ok v)
                  (read_env_text text)).
  { apply read_env_lines_ok; [| apply map_Forall_empty].
    eapply Forall_impl; [apply text_lines_shape |].
    intros l (b & Hb & [-> | ->]); rewrite ?strip_app_LF;
      by apply has_line_break_strip. }
  split; [done |]. by apply read_env_text_render_map.
Qed.

End ReaderExtras.

(** ** Dependency Readiness Waiter: when the waits succeed *)

Section WaitExtras.
Variable H : Host.

(** One pass over the targets: the names that were ready, and the names
    of the targets that answered in this round. *)
Lemma poll_targets_spec round ts ready w :
  ∃ ready' w',
    poll_targets H round ts ready w = (Ok ready', w')
    ∧ ∀ name, name ∈ ready' ↔
        name ∈ ready
        ∨ ∃ url, (name, url) ∈ ts ∧ answered (http_get H round url) = true.
Proof.
  revert ready w. induction ts as [| [name0 url0] ts IH]; intros ready w.
  - exists ready, w. split; [done |]. intros name. split; [by left |].
    intros [? | (url & Hin & _)]; [done |]. by apply elem_of_nil in Hin.
  - cbn [poll_targets]. case_bool_decide as Hready.
    + destruct (IH ready w) as (ready' & w' & -> & Hspec).
      exists ready', w'. split; [done |]. intros name. rewrite Hspec.
      split; [intros [? | (url & Hin & Ha)]; [by left |];
              right; exists url; split; [by apply list_elem_of_further | done]
             |].
      intros [? | (url & Hin & Ha)]; [by left |].
      apply elem_of_cons in Hin as [[= -> ->] | Hin]; [by left |].
      right. by exists url.
    + destruct (answered (http_get H round url0)) eqn:Ha0.
      * unfold bind. rewrite print_with_out.
        destruct (IH ({[name0]} ∪ ready) (with_out w
                    ["  " +:+ name0 +:+ " up (HTTP "
                       +:+ pretty (default 0 (http_get H round url0))
                       +:+ ")"]))
          as (ready' & w' & -> & Hspec).
        exists ready', w'. split; [done |]. intros name. rewrite Hspec.
        rewrite elem_of_union, elem_of_singleton. split.
        -- intros [[-> | ?] | (url & Hin & Ha)]; [| by left |].
           ++ right. exists url0. split; [apply list_elem_of_here | done].
           ++ right. exists url. split; [by apply list_elem_of_further | done].
        -- intros [? | (url & Hin & Ha)]; [by left; right |].
           apply elem_of_cons in Hin as [[= -> ->] | Hin]; [by left; left |].
           right. by exists url.
      * destruct (IH ready w) as (ready' & w' & -> & Hspec).
        exists ready', w'. split; [done |]. intros name. rewrite Hspec.
        split; [intros [? | (url & Hin & Ha)]; [by left |];
                right; exists url; split; [by apply list_elem_of_further | done]
               |].
        intros [? | (url & Hin & Ha)]; [by left |].
        apply elem_of_cons in Hin as [[= -> ->] | Hin]; [congruence |].
        right. by exists url.
Qed.

(** The names of the targets, and when a set of them is complete. *)
Lemma targets_complete (ready : gset string) :
  ready ⊆ list_to_set targets.*1 →
  size ready = length targets ↔ ∀ t, t ∈ targets → t.1 ∈ ready.
Proof.
  intros Hsub.
  assert (Hsize : size (list_to_set targets.*1 : gset string)
                  = length targets).
  { rewrite size_list_to_set; [by rewrite length_fmap |].
    unfold targets. simpl. apply NoDup_cons. split.
    - rewrite list_elem_of_singleton. done.
    - apply NoDup_singleton. }
  split.
  - intros Hs t Ht.
    assert (Heq : ready ≡ list_to_set targets.*1).
    { apply set_subseteq_size_equiv; [done | lia]. }
    apply Heq, elem_of_list_to_set, list_elem_of_fmap.
    exists t. split; [reflexivity | exact Ht].
  - intros Hall. rewrite <- Hsize. f_equal. apply leibniz_equiv.
    apply set_equiv_subseteq. split; [exact Hsub |].
    intros name (t & -> & Ht)%elem_of_list_to_set%list_elem_of_fmap.
    exact (Hall t Ht).
Qed.

Lemma targets_url name url t :
  (name, url) ∈ targets → t ∈ targets → t.1 = name → t.2 = url.
Proof.
  unfold targets. rewrite !elem_of_cons, !elem_of_nil.
  intros [[= -> ->] | [[= -> ->] | []]] [-> | [-> | []]]; simpl; done.
Qed.

Lemma wait_for_supabase_loop_true left round (ready : gset string) w :
  ready ⊆ list_to_set targets.*1 →
  (wait_for_supabase_loop H left round ready w).1 = Ok true ↔
  ∃ k, (k < left)%nat
    ∧ ∀ t, t ∈ targets →
        t.1 ∈ ready
        ∨ ∃ j, (j ≤ k)%nat ∧ answered (http_get H (round + j) t.2) = true.
Proof.
  revert round ready w.
  induction left as [| left IH]; intros round ready w Hsub;
    cbn [wait_for_supabase_loop].
  - split; [done |]. intros (k & Hk & _). lia.
  - unfold bind at 1.
    destruct (poll_targets_spec round targets ready w)
      as (ready' & w' & -> & Hspec).
    assert (Hsub' : ready' ⊆ list_to_set targets.*1).
    { intros name [Hn | (url & Hin & _)]%Hspec; [by apply Hsub |].
      apply elem_of_list_to_set, list_elem_of_fmap. by exists (name, url). }
    assert (Hnow : ∀ t, t ∈ targets →
              t.1 ∈ ready' ↔
              t.1 ∈ ready ∨ answered (http_get H round t.2) = true).
    { intros t Ht. rewrite Hspec. split.
      - intros [? | (url & Hin & Ha)]; [by left |]. right.
        by rewrite (targets_url _ _ t Hin Ht eq_refl).
      - intros [? | Ha]; [by left |]. right. exists t.2.
        by destruct t. }
    case_bool_decide as Hsize.
    + split; [intros _ | done]. exists 0%nat. split; [lia |].
      intros t Ht.
      pose proof (proj1 (targets_complete _ Hsub') Hsize) as Hall.
      destruct (proj1 (Hnow t Ht) (Hall t Ht)) as [? | Ha]; [by left |].
      right. exists 0%nat. split; [lia |]. by rewrite Nat.add_0_r.
    + rewrite (IH (S round) ready' w' Hsub'). split.
      * intros (k & Hk & Hall). exists (S k). split; [lia |].
        intros t Ht. destruct (Hall t Ht) as [Hr | (j & Hj & Ha)].
        -- destruct (proj1 (Hnow t Ht) Hr) as [? | Ha]; [by left |].
           right. exists 0%nat. split; [lia |]. by rewrite Nat.add_0_r.
        -- right. exists (S j). split; [lia |].
           by replace (round + S j)%nat with (S round + j)%nat by lia.
      * intros (k & Hk & Hall).
        destruct k as [| k].
        { exfalso. apply Hsize. apply (proj2 (targets_complete _ Hsub')).
          intros t Ht. apply (Hnow t Ht).
          destruct (Hall t Ht) as [? | (j & Hj & Ha)]; [by left |].
          right. assert (j = 0%nat) as -> by lia.
          by rewrite Nat.add_0_r in Ha. }
        exists k. split; [lia |]. intros t Ht.
        destruct (Hall t Ht) as [Hr | (j & Hj & Ha)].
        -- left. apply (Hnow t Ht). by left.
        -- destruct j as [| j].
           ++ left. apply (Hnow t Ht). right. by rewrite Nat.add_0_r in Ha.
           ++ right. exists j. split; [lia |].
              by replace (S round + j)%nat with (round + S j)%nat by lia.
Qed.

(** X18.  [wait_for_supabase] never raises, and it returns [True] exactly
    when, at some round before the deadline, the auth service and the
    REST gateway have each answered with a 2xx status in that round or in
    an earlier one: an endpoint that has answered once counts as ready
    for the rest of the wait, also when it no longer answers. *)
Theorem wait_for_supabase_true_iff w :
  ∃ b, (wait_for_supabase H w).1 = Ok b
    ∧ (b = true ↔
       ∃ n, (n < rounds_supabase H)%nat
         ∧ (∃ r, (r ≤ n)%nat ∧ responds H r "http://localhost:9999/health")
         ∧ (∃ r, (r ≤ n)%nat
                 ∧ responds H r "http://localhost:8000/rest/v1/")).
Proof.
  destruct (wait_for_supabase_prints H w) as (b & lines & Hrun & _).
  exists b. split; [by rewrite Hrun |].
  assert (Hb : b = true ↔ (wait_for_supabase H w).1 = Ok true).
  { rewrite Hrun. simpl. split; [by intros -> | by intros [= ->]]. }
  rewrite Hb. unfold wait_for_supabase, bind. rewrite print_with_out.
  rewrite wait_for_supabase_loop_true by done.
  split.
  - intros (k & Hk & Hall). exists k. split; [done |].
    split.
    + destruct (Hall ("auth", "http://localhost:9999/health"))
        as [Hin | (j & Hj & Ha)]; [apply list_elem_of_here | done |].
      exists j. split; [done |]. by apply answered_http_get in Ha.
    + destruct (Hall ("rest", "http://localhost:8000/rest/v1/"))
        as [Hin | (j & Hj & Ha)];
        [apply list_elem_of_further, list_elem_of_here | done |].
      exists j. split; [done |]. by apply answered_http_get in Ha.
  - intros (n & Hn & (r1 & Hr1 & Ha1) & (r2 & Hr2 & Ha2)).
    exists n. split; [done |]. intros t Ht. right.
    unfold targets in Ht. rewrite !elem_of_cons, elem_of_nil in Ht.
    destruct Ht as [-> | [-> | []]]; simpl.
    + exists r1. split; [done |]. by apply answered_http_get.
    + exists r2. split; [done |]. by apply answered_http_get.
Qed.




End WaitExtras.

(** ** Stack Launcher: the local image *)

Section ImageExtras.
Variable H : Host.

(** X20.  Let the portal image be missing (the [inspect] child ends with a
    non-zero code), let the portal Dockerfile exist, and let the build
    fail whenever it is run.  Then [start_local_ai] raises the
    [CommandExecutionError] of the build: the handler that would print
    the advice and go on never runs, the main stack is not started, and
    no temporary file is created. *)
Theorem failed_image_build_aborts profile environment w rc so se files :
  exec H (with_out w ["Starting local AI services..."])
    {| sp_cmd := inspect_cmd; sp_cwd := None; sp_env := environ w;
       sp_timeout := None |} = (Exited rc so se, files) →
  rc ≠ 0 →
  is_Some (files !! portal_dockerfile H) →
  always_fails H build_cmd →
  ∃ msg so' se' w',
    start_local_ai H profile environment w =
      (Raise (CommandExecutionError msg build_cmd (-1) so' se'), w')
    ∧ sp_cmd <$> spawned w' =
        (sp_cmd <$> spawned w) ++ [inspect_cmd; build_cmd]
    ∧ temps w' = temps w.
Proof.
  intros Hexec Hrc Hdf Hfail.
  unfold start_local_ai. unfold bind at 1. rewrite print_with_out.
  unfold bind at 1.
  unfold ensure_local_images.
  unfold except_CalledProcessError at 1, try_except.
  unfold bind at 1, get_world, bind at 1, subprocess_run, bind at 1, spawn.
  change (environ (with_out w ?l)) with (environ w).
  fold inspect_cmd. rewrite Hexec.
  apply Z.eqb_neq in Hrc. cbn [andb negb]. rewrite Hrc.
  cbn [negb raise]. cbv beta iota.
  unfold bind at 1, path_exists. cbn [fs].
  fold (portal_dockerfile H).
  rewrite bool_decide_eq_true_2 by done. cbv beta iota.
  unfold bind at 1. rewrite print_with_out.
  rewrite except_CalledProcessError_run_command_print.
  fold build_cmd. unfold bind at 1.
  match goal with
  | |- context [run_command H build_cmd ?cwd None false None ?w0] =>
      destruct (run_command_outcome H build_cmd cwd None false None w0)
        as (env & Hsp & Hr);
      pose proof (run_command_ok_exit0 H build_cmd cwd None None w0) as Hok;
      pose proof (keeps_temps_run_command H build_cmd cwd None false None w0)
        as Htmp;
      unfold bind;
      destruct (run_command H build_cmd cwd None false None w0)
        as [[r | e] w1]
  end; simpl in *.
  - destruct (Hok r eq_refl) as (wx & sp & so0 & se0 & Hcmd & Hx).
    by destruct (Hfail wx sp so0 se0 Hcmd).
  - destruct Hr as (msg & so' & se' & ->).
    exists msg, so', se', w1. split; [done |]. split; [| done].
    rewrite Hsp, !fmap_app, <- app_assoc. done.
Qed.

End ImageExtras.

Lemma failed_image_build_aborts_witness :
  let H := sample_host build_fails nobody_answers ∅ in
  let w := sample_world {[ "/srv/localai/portal/Dockerfile" := "FROM node" ]} in
  ∃ msg so' se' w',
    start_local_ai H (Some "cpu") (Some "private") w =
      (Raise (CommandExecutionError msg build_cmd (-1) so' se'), w')
    ∧ sp_cmd <$> spawned w' =
        (sp_cmd <$> spawned w) ++ [inspect_cmd; build_cmd]
    ∧ temps w' = temps w.
Proof.
  intros H w.
  apply (failed_image_build_aborts H (Some "cpu") (Some "private") w 1 ""
           "failed to solve" (fs w)).
  - reflexivity.
  - done.
  - by eexists.
  - intros w' sp so se Hcmd. simpl. rewrite Hcmd. by vm_compute.
Defined.

(** ** Stack Launcher: the order of the phases *)

Section OrderExtras.
Variable H : Host.
Hypothesis Hgood : always_succeeds H.

Lemma run_command_succeeds cmd cwd eo timeout w :
  ∃ r w', run_command H cmd cwd eo false timeout w = (Ok r, w')
    ∧ sp_cmd <$> spawned w' = (sp_cmd <$> spawned w) ++ [cmd]
    ∧ temps w' = temps w.
Proof.
  destruct (run_command_outcome H cmd cwd eo false timeout w)
    as (env & Hsp & _).
  pose proof (keeps_temps_run_command H cmd cwd eo false timeout w) as Htmp.
  assert (Hok : ∃ r, (run_command H cmd cwd eo false timeout w).1 = Ok r).
  { destruct (run_command_env_total cmd eo w) as (env' & w1 & Hprel & _ & _).
    unfold run_command, bind. rewrite Hprel.
    unfold try_except, subprocess_run, spawn, bind.
    match goal with
    | |- context [exec H w1 ?sp] =>
        destruct (Hgood w1 sp) as (so & se & Hx);
        destruct (exec H w1 sp) as [b files]
    end.
    simpl in Hx. subst b. simpl.
    unfold when, print, ret.
    destruct (nonempty so), (nonempty se); simpl; by eexists. }
  destruct Hok as (r & Hr).
  destruct (run_command H cmd cwd eo false timeout w) as [r' w'].
  simpl in *. subst r'. exists r, w'. split; [done |].
  split; [| done]. by rewrite Hsp, fmap_app.
Qed.

Lemma compose_phase_succeeds line cmd w :
  ∃ w', compose_phase H line cmd w = (Ok tt, w')
    ∧ sp_cmd <$> spawned w' = (sp_cmd <$> spawned w) ++ [cmd]
    ∧ temps w' = temps w.
Proof.
  unfold compose_phase, docker_socket_override, environ_get, bind, print,
    ret.
  simpl.
  match goal with
  | |- context [run_command H cmd None ?eo false None ?w0] =>
      destruct (run_command_succeeds cmd None eo None w0)
        as (r & w' & Hrun & Hsp & Htmp)
  end.
  rewrite Hrun. by exists w'.
Qed.

Lemma ensure_local_images_succeeds w :
  ∃ w', ensure_local_images H w = (Ok tt, w')
    ∧ sp_cmd <$> spawned w' = (sp_cmd <$> spawned w) ++ [inspect_cmd]
    ∧ temps w' = temps w.
Proof.
  pose proof (keeps_temps_ensure_local_images H w) as Htmp.
  destruct (ensure_local_images H w) as [r w'] eqn:Erun.
  unfold ensure_local_images, except_CalledProcessError, try_except in Erun.
  unfold bind at 1, get_world, bind at 1, subprocess_run, bind at 1, spawn
    in Erun.
  fold inspect_cmd in Erun.
  match type of Erun with
  | context [exec H w ?sp] =>
      destruct (Hgood w sp) as (so & se & Hx);
      destruct (exec H w sp) as [b files]
  end.
  simpl in Hx. subst b. simpl in Erun. unfold print in Erun.
  injection Erun as <- <-. eexists. split; [reflexivity |].
  split; [| done]. simpl. by rewrite fmap_app.
Qed.

Lemma compose_up_succeeds profile environment tp w :
  (compose_up H profile environment tp w).1 = Ok tt.
Proof.
  unfold compose_up, bind, docker_socket_override, environ_get,
    try_finally, except_CalledProcessError, try_except. simpl.
  match goal with
  | |- context [run_command H ?cmd None ?eo false None w] =>
      destruct (run_command_succeeds cmd None eo None w)
        as (r & w' & Hrun & _ & _);
      rewrite Hrun
  end.
  simpl.
  unfold bind, path_exists, when, remove_file, set_fs, print. simpl.
  by destruct (truthy tp && _).
Qed.

Lemma check_output_succeeds cmd w :
  ∃ o, check_output H cmd w = (Ok o, after_child H w cmd).
Proof.
  destruct (Hgood w (inherit w cmd)) as (so & se & Hx).
  unfold check_output, bind, get_world, subprocess_run, spawn, bind,
    after_child.
  unfold inherit in *.
  destruct (exec H w _) as [b files]. simpl in Hx. subst b. simpl.
  by eexists.
Qed.

Lemma get_listening_ports_succeeds w :
  ∃ l, get_listening_ports H w = (Ok l, after_child H w ss_cmd).
Proof.
  unfold get_listening_ports, except_Exception, try_except, bind.
  fold ss_cmd.
  destruct (check_output_succeeds ss_cmd w) as (o & ->). by eexists.
Qed.

Lemma override_plan_succeeds w :
  ∃ remap wp,
    override_plan H w = (Ok remap, wp)
    ∧ sp_cmd <$> spawned wp =
        (sp_cmd <$> spawned w) ++ [inspect_cmd; ss_cmd].
Proof.
  unfold override_plan. unfold bind at 1. rewrite print_with_out.
  destruct (ensure_local_images_succeeds
              (with_out w ["Starting local AI services..."]))
    as (w1 & Hens & Hsp1 & _).
  unfold bind at 1. rewrite Hens.
  unfold bind at 1.
  destruct (parse_private_override_ports _ w1) as [rp w2] eqn:Hparse.
  assert (Hw2 : w2 = w1 ∧ ∃ parsed, rp = Ok parsed).
  { unfold parse_private_override_ports in Hparse.
    destruct (fs w1 !! _); injection Hparse as <- <-; eauto. }
  destruct Hw2 as (-> & parsed & ->).
  unfold bind at 1.
  destruct (get_listening_ports_succeeds w1) as (l & ->).
  unfold bind.
  destruct (print_all_spec (remap_message <$> resolve parsed l)
              (after_child H w1 ss_cmd)) as (w3 & -> & _ & _ & Hsp3).
  eexists _, w3. split; [reflexivity |].
  rewrite Hsp3. simpl. rewrite fmap_app, Hsp1. simpl.
  by rewrite <- app_assoc.
Qed.

Lemma start_local_ai_succeeds profile environment w remap wp :
  override_plan H w = (Ok remap, wp) →
  ∃ sp w',
    start_local_ai H profile environment w = (Ok tt, w')
    ∧ spawned w' = spawned wp ++ [sp]
    ∧ sp_cmd sp =
        compose_base_cmd profile environment
          ++ match remap with
             | [] => []
             | _ :: _ => ["-f"; mkstemp_name H wp]
             end
          ++ ["up"; "-d"].
Proof.
  intros Hplan. rewrite start_local_ai_plan. unfold bind at 1.
  rewrite Hplan. unfold bind.
  destruct (write_override_spec H remap wp) as (tp & w2 & -> & Hsp2 & Hcase).
  destruct (compose_up_child H profile environment tp w2)
    as (wx & sp & Hcmd & _ & _ & Hsp & _ & _ & Hres).
  destruct (Hgood wx sp) as (so & se & Hx). rewrite Hx in Hres.
  destruct (compose_up H profile environment tp w2) as [r w'].
  simpl in *. subst r. exists sp, w'. split; [done |].
  split; [by rewrite Hsp, Hsp2 |].
  rewrite Hcmd. destruct remap as [| r0 remap]; simpl in Hcase.
  - destruct Hcase as [-> ->]. by rewrite compose_up_cmd_plain.
  - destruct Hcase as (-> & _ & _). by rewrite compose_up_cmd_override.
Qed.

(** X21.  Take a launch, not a preflight and without the Next.js server,
    whose preparation returns, on a host where every child ends with exit
    code 0.  The launch is done, and the children it starts after the
    preparation are, in this order: [docker compose ... down]; unless
    Neo4j is skipped, its start and then the probes of the wait for it;
    the start of Supabase; the inspection of the portal image; the port
    listing [ss]; and last the start of the main stack, which passes the
    temporary override file exactly when the conflict resolution, run in
    the world the wait for Supabase left, has remapped a port. *)
Theorem launch_runs_phases_in_order args w w1 :
  preflight args = false →
  start_nextjs args = false →
  (host_clone H ;;; prepare_supabase_env H ;;; host_searxng H) w
    = (Ok tt, w1) →
  let ws := (wait_for_supabase H (launch_until_wait H args w).2).2 in
  ∃ remap wp probes sp w',
    override_plan H ws = (Ok remap, wp)
    ∧ launch H args w = (Done, w')
    ∧ sp_cmd <$> spawned wp =
        (sp_cmd <$> spawned w1)
          ++ [down_cmd (Some (profile args))]
          ++ (if skip_neo4j args then [] else neo4j_up_cmd :: probes)
          ++ [supabase_up_cmd (Some (environment args)); inspect_cmd;
              ss_cmd]
    ∧ Forall (λ cmd, is_neo4j_probe cmd = true) probes
    ∧ spawned w' = spawned wp ++ [sp]
    ∧ sp_cmd sp =
        compose_base_cmd (Some (profile args)) (Some (environment args))
          ++ match remap with
             | [] => []
             | _ :: _ => ["-f"; mkstemp_name H wp]
             end
          ++ ["up"; "-d"].
Proof.
  intros Hpre Hnext Hsetup ws.
  apply bind_ok_inv in Hsetup as ([] & wa & Ha & Hsetup).
  apply bind_ok_inv in Hsetup as ([] & wb & Hb & Hc).
  destruct (compose_phase_succeeds
              "Stopping and removing existing containers for the unified project 'localai'..."
              (down_cmd (Some (profile args))) w1)
    as (w2 & Hdown & Hsp2 & _).
  rewrite <- stop_existing_containers_body in Hdown.
  assert (Hneo : ∃ w3 probes,
    (if negb (skip_neo4j args)
     then start_neo4j H ;;; wait_for_neo4j H ;;; ret tt
     else print "Skipping Neo4j startup as requested") w2 = (Ok tt, w3)
    ∧ sp_cmd <$> spawned w3 =
        (sp_cmd <$> spawned w2)
          ++ (if skip_neo4j args then [] else neo4j_up_cmd :: probes)
    ∧ Forall (λ cmd, is_neo4j_probe cmd = true) probes).
  { destruct (skip_neo4j args); simpl.
    - eexists _, []. split; [reflexivity |]. simpl.
      by rewrite app_nil_r.
    - destruct (compose_phase_succeeds
                  "Starting Neo4j service (if present in compose)..."
                  neo4j_up_cmd w2) as (wn & Hn & Hspn & _).
      rewrite <- start_neo4j_body in Hn.
      rewrite (bind_run _ _ _ _ _ Hn).
      destruct (wait_for_neo4j_quiet H wn)
        as (b & line & w3 & Hwait & Hw3 & _).
      rewrite (bind_run _ _ _ _ _ Hwait).
      destruct Hw3 as (_ & _ & _ & kids & Hkids & Hall).
      exists w3, (sp_cmd <$> kids). split; [reflexivity |].
      split.
      + rewrite Hkids. simpl. rewrite fmap_app, Hspn.
        by rewrite <- app_assoc.
      + apply Forall_fmap. eapply Forall_impl; [exact Hall |].
        by intros sp0 [? _]. }
  destruct Hneo as (w3 & probes & Hneo & Hsp3 & Hprobes).
  destruct (compose_phase_succeeds "Starting Supabase services..."
              (supabase_up_cmd (Some (environment args))) w3)
    as (w4 & Hsup & Hsp4 & _).
  rewrite <- start_supabase_body in Hsup.
  destruct (wait_for_supabase_prints H w4) as (b & lines & Hwait & _).
  assert (Huntil : launch_until_wait H args w = (Ok tt, w4)).
  { unfold launch_until_wait.
    rewrite (bind_run _ _ _ _ _ Ha), (bind_run _ _ _ _ _ Hb),
      (bind_run _ _ _ _ _ Hc), (bind_run _ _ _ _ _ Hdown),
      (bind_run _ _ _ _ _ Hneo).
    exact Hsup. }
  assert (Hws : ws = with_out w4 lines).
  { subst ws. rewrite Huntil. cbn [snd]. by rewrite Hwait. }
  rewrite Hws.
  destruct (override_plan_succeeds (with_out w4 lines))
    as (remap & wp & Hplan & Hspp).
  destruct (start_local_ai_succeeds (Some (profile args))
              (Some (environment args)) _ remap wp Hplan)
    as (sp & w' & Hai & Hsp' & Hcmd).
  exists remap, wp, probes, sp, w'.
  split; [done |]. split.
  { unfold launch, main. rewrite Hpre, Hnext.
    rewrite (bind_run _ _ _ _ _ Ha), (bind_run _ _ _ _ _ Hb),
      (bind_run _ _ _ _ _ Hc), (bind_run _ _ _ _ _ Hdown),
      (bind_run _ _ _ _ _ Hneo).
    assert (Hwhen : negb (nonempty (environment args))
                    || nonempty (environment args) = true)
      by (by destruct (nonempty (environment args))).
    rewrite Hwhen. cbn [when].
    rewrite (bind_run _ _ w3 tt (with_out w4 lines))
      by (by rewrite (bind_run _ _ _ _ _ Hsup), (bind_run _ _ _ _ _ Hwait)).
    by rewrite (bind_run _ _ _ _ _ Hai). }
  split.
  { rewrite Hspp. simpl spawned. rewrite Hsp4, Hsp3, Hsp2.
    by rewrite <- !app_assoc. }
  done.
Qed.

End OrderExtras.

Lemma launch_runs_phases_in_order_witness :
  let H := sample_host all_succeed nobody_answers {[ 8080 ]} in
  let w := sample_world
             {[ "/srv/localai/.env" := complete_env;
                "/srv/localai/docker-compose.override.private.yml" :=
                  render_mappings [(6%nat, (8080, 80))] ]} in
  let ws := (wait_for_supabase H (launch_until_wait H sample_args w).2).2 in
  ∃ remap wp probes sp w',
    override_plan H ws = (Ok remap, wp)
    ∧ launch H sample_args w = (Done, w')
    ∧ sp_cmd <$> spawned wp =
        (sp_cmd <$> spawned (prepare_supabase_env H w).2)
          ++ [down_cmd (Some "cpu")]
          ++ (if skip_neo4j sample_args then [] else neo4j_up_cmd :: probes)
          ++ [supabase_up_cmd (Some "private"); inspect_cmd; ss_cmd]
    ∧ Forall (λ cmd, is_neo4j_probe cmd = true) probes
    ∧ spawned w' = spawned wp ++ [sp]
    ∧ sp_cmd sp =
        compose_base_cmd (Some "cpu") (Some "private")
          ++ match remap with
             | [] => []
             | _ :: _ => ["-f"; mkstemp_name H wp]
             end
          ++ ["up"; "-d"].
Proof.
  intros H w.
  apply (launch_runs_phases_in_order H).
  - intros w0 sp. simpl. case_bool_decide; by eexists _, _.
  - reflexivity.
  - reflexivity.
  - by vm_compute.
Defined.
